(** * Negative sampler of kge (kge/util/sampler.py)

    A shallow embedding of [KgeSampler], [KgeUniformSampler] and
    [KgeFrequencySampler], and the properties of sampling, shared sampling and
    filter-and-resample.

    Conventions of the embedding.
    - Tensors of indices are lists of [Z]; a matrix is the list of its rows.
    - The two random generators the code draws from (torch's default generator
      and the generator of Numba, which serves [np.random] inside a function
      compiled by [numba.njit] and is not NumPy's global generator) are tapes
      of entropy cells together with the number of cells consumed so far.
      One cell is consumed per sample drawn.
    - Exceptions, non-termination of the resample loop and the effects on
      the generators are made explicit by the monad [M]: a computation maps a
      world to a returned value, a raised exception or [Diverge] (the fuel of
      the while loop is exhausted).
    - Probabilities are exact rationals; rounding of floats is not modelled.
    - The per-slot tensors of the sampler are [int32] in the source, and
      torch raises [RuntimeError] when a value outside that range is stored.
      The embedding keeps the values as [Z] and is the constructor on the
      configurations and datasets whose sample counts and vocabulary sizes
      fit ([fits_int32]); the properties that speak of every outcome of the
      constructor have this precondition. *)

From Stdlib Require Import ZArith QArith Lia.
From stdpp Require Import base list strings gmap.

Local Open Scope nat_scope.

(** ** Slots *)

Module SLOT.
(** [SLOTS = [0, 1, 2]], [S, P, O = SLOTS]. *)
Inductive slot := S | P | O.

Definition SLOTS : list slot := [S; P; O].

(** [SLOT_STR = ["s", "p", "o"]], indexed by the slot. *)
Definition SLOT_STR (sl : slot) : string :=
  match sl with S => "s" | P => "p" | O => "o" end.

(** [["po", "so", "sp"][slot]]. *)
Definition pair_str (sl : slot) : string :=
  match sl with S => "po" | P => "so" | O => "sp" end.

(** [[[P, O], [S, O], [S, P]][slot]]. *)
Definition cols (sl : slot) : slot * slot :=
  match sl with S => (P, O) | P => (S, O) | O => (S, P) end.

Definition eqb (a b : slot) : bool :=
  match a, b with S, S | P, P | O, O => true | _, _ => false end.
End SLOT.

Abbreviation slot := SLOT.slot.

(** A tensor with one entry per slot ([torch.zeros(3, ...)]). *)
Record tensor3 (A : Type) := Tensor3 { at_s : A; at_p : A; at_o : A }.
Arguments Tensor3 {A} _ _ _.
Arguments at_s {A} _.
Arguments at_p {A} _.
Arguments at_o {A} _.

Definition getitem {A} (t : tensor3 A) (sl : slot) : A :=
  match sl with SLOT.S => at_s t | SLOT.P => at_p t | SLOT.O => at_o t end.

Definition setitem {A} (t : tensor3 A) (sl : slot) (v : A) : tensor3 A :=
  match sl with
  | SLOT.S => Tensor3 v (at_p t) (at_o t)
  | SLOT.P => Tensor3 (at_s t) v (at_o t)
  | SLOT.O => Tensor3 (at_s t) (at_p t) v
  end.

(** [any(t)] for a boolean tensor. *)
Definition any3 (t : tensor3 bool) : bool := at_s t || at_p t || at_o t.

(** ** Triples, matrices *)

(** A triple (subject, predicate, object). *)
Definition Triple : Type := Z * Z * Z.

Definition triple_at (t : Triple) (sl : slot) : Z :=
  match sl with
  | SLOT.S => t.1.1
  | SLOT.P => t.1.2
  | SLOT.O => t.2
  end.

(** Row of [positive_triples[:, cols]] for one triple. *)
Definition pair_of (sl : slot) (t : Triple) : Z * Z :=
  (triple_at t (SLOT.cols sl).1, triple_at t (SLOT.cols sl).2).

(** A matrix is the list of its rows. *)
Abbreviation Matrix := (list (list Z)).

(** ** External collaborators: configuration and dataset *)

Record Config := {
  cfg_sampling_type : string;            (* <key>.sampling_type *)
  cfg_shared : bool;                     (* shared *)
  cfg_filtering_split : string;          (* negative_sampling.filtering.split *)
  cfg_train_split : string;              (* train.split *)
  cfg_num_samples : tensor3 Z;           (* num_samples.{s,p,o} *)
  cfg_filtering : tensor3 bool;          (* filtering.{s,p,o} *)
  cfg_filtering_implementation : string; (* filtering.implementation *)
  cfg_frequency_smoothing : Q            (* frequency.smoothing *)
}.

(** The dataset: vocabulary sizes, the positive-pair indexes by name
    ([dataset.index(name).get(pair)]) and the triples of a split. *)
Record Dataset := {
  num_entities : Z;
  num_relations : Z;
  index : string → Z * Z → list Z;
  split : string → list Triple
}.

(** ** Worlds, exceptions and the monad *)

(** A random generator: a tape of entropy cells and a cursor. *)
Record RandomState := { entropy : nat → Z; consumed : nat }.

Record World := {
  torch_rng : RandomState;   (* torch's default generator *)
  numba_rng : RandomState;   (* Numba's generator: np.random in the kernel *)
  index_calls : list string  (* names passed to dataset.index, oldest first *)
}.

Inductive exn :=
| ValueError (msg : string)
| NotImplementedError (msg : string)
| RuntimeError (msg : string)
| IndexError
| AttributeError
| KeyError
| TypeError
(* the error of [check_option] for the option [key] with the value [value];
   its text is composed outside this module *)
| ConfigurationError (key value : string).

Inductive outcome (A : Type) :=
| Ret (a : A) (w : World)
| Raise (e : exn) (w : World)
| Diverge.
Arguments Ret {A} _ _.
Arguments Raise {A} _ _.
Arguments Diverge {A}.

Definition M (A : Type) : Type := World → outcome A.

Definition ret {A} (a : A) : M A := λ w, Ret a w.
Definition raise {A} (e : exn) : M A := λ w, Raise e w.
Definition diverge {A} : M A := λ _, Diverge.

Definition bind {A B} (c : M A) (k : A → M B) : M B :=
  λ w, match c w with
       | Ret a w' => k a w'
       | Raise e w' => Raise e w'
       | Diverge => Diverge
       end.

(** [try: c  except NotImplementedError: h]. *)
Definition try_except_NotImplementedError {A} (c : M A) (h : M A) : M A :=
  λ w, match c w with
       | Raise (NotImplementedError _) w' => h w'
       | r => r
       end.

(** The monad operations under stdpp's notation [x ← c; k]. *)
#[global] Instance M_ret : MRet M := @ret.
#[global] Instance M_bind : MBind M := λ A B k c, bind c k.

(** [dataset.index(name)]: the request is recorded, the index returned. *)
Definition dataset_index (ds : Dataset) (name : string) : M (Z * Z → list Z) :=
  λ w, Ret (index ds name)
           {| torch_rng := torch_rng w; numba_rng := numba_rng w;
              index_calls := index_calls w ++ [name] |}.

(** Name of the positive-pair index of a slot:
    [f"{filtering_split}_{pair}_to_{slot_str}"]. *)
Definition index_name (filtering_split : string) (sl : slot) : string :=
  filtering_split +:+ "_" +:+ SLOT.pair_str sl +:+ "_to_" +:+ SLOT.SLOT_STR sl.

(** ** The sampler object *)

Inductive SamplerClass := KgeUniformSampler | KgeFrequencySampler.

Record KgeSampler := {
  class_of : SamplerClass;
  num_samples : tensor3 Z;
  filter_positives : tensor3 bool;
  vocabulary_size : tensor3 Z;
  shared : bool;
  filtering_split : string;
  (* the attribute exists only if some slot is filtered *)
  filter_implementation : option string;
  dataset : Dataset;
  (* per slot the pair (J, q) of torch._multinomial_alias_setup;
     empty for the uniform sampler *)
  _multinomials : list (list Z * list Q)
}.

Definition set_filter_implementation (self : KgeSampler) (impl : string) : KgeSampler :=
  {| class_of := class_of self;
     num_samples := num_samples self;
     filter_positives := filter_positives self;
     vocabulary_size := vocabulary_size self;
     shared := shared self;
     filtering_split := filtering_split self;
     filter_implementation := Some impl;
     dataset := dataset self;
     _multinomials := _multinomials self |}.

Definition set_multinomials (self : KgeSampler) (ms : list (list Z * list Q)) : KgeSampler :=
  {| class_of := class_of self;
     num_samples := num_samples self;
     filter_positives := filter_positives self;
     vocabulary_size := vocabulary_size self;
     shared := shared self;
     filtering_split := filtering_split self;
     filter_implementation := filter_implementation self;
     dataset := dataset self;
     _multinomials := ms |}.

(** ** [KgeSampler.__init__] *)

(** The three tensors filled by the loop over the slots. *)
Definition slot_tensors : Type := tensor3 Z * tensor3 bool * tensor3 Z.

(** Body of [for slot in SLOTS] in [__init__]. *)
Definition init_slot (config : Config) (ds : Dataset) (fsplit : string)
    (ts : slot_tensors) (sl : slot) : M slot_tensors :=
  let '(ns, fp, vs) := ts in
  let ns := setitem ns sl (getitem (cfg_num_samples config) sl) in
  let fp := setitem fp sl (getitem (cfg_filtering config) sl) in
  let vs := setitem vs sl
              (if SLOT.eqb sl SLOT.P then num_relations ds else num_entities ds) in
  if getitem fp sl
  then (_ ← dataset_index ds (index_name fsplit sl) ; ret (ns, fp, vs))
  else ret (ns, fp, vs).

Fixpoint init_slots (config : Config) (ds : Dataset) (fsplit : string)
    (ts : slot_tensors) (slots : list slot) : M slot_tensors :=
  match slots with
  | [] => ret ts
  | sl :: rest =>
      ts' ← init_slot config ds fsplit ts sl ;
      init_slots config ds fsplit ts' rest
  end.

(** Body of [for slot, copy_from in [(S, O), (P, None), (O, S)]]. *)
Definition auto_config_step (ns : tensor3 Z) (entry : slot * option slot) : tensor3 Z :=
  let '(sl, copy_from) := entry in
  if (getitem ns sl <? 0)%Z then
    match copy_from with
    | Some c =>
        if (0 <? getitem ns c)%Z
        then setitem ns sl (getitem ns c)
        else setitem ns sl 0%Z
    | None => setitem ns sl 0%Z
    end
  else ns.

Definition auto_config (ns : tensor3 Z) : tensor3 Z :=
  foldl auto_config_step ns
    [(SLOT.S, Some SLOT.O); (SLOT.P, None); (SLOT.O, Some SLOT.S)].

Definition filtering_shared_msg : string :=
  "Filtering is not supported when shared negative sampling is enabled.".

(** Modelled from the spec: [Configurable.check_option] is not part of the
    sources at hand.  An invalid value of the filter implementation, one
    outside standard, fast and fast_if_available, is a configuration error,
    fatal and surfaced at construction time; the spec gives no message. *)
Definition check_option (key value : string) (allowed : list string) : M unit :=
  if bool_decide (value ∈ allowed) then ret tt
  else raise (ConfigurationError key value).

(** [KgeSampler.__init__].  The tensors [num_samples] and [vocabulary_size]
    are [int32] in the source, where storing a value that does not fit
    raises [RuntimeError]; the values are kept as [Z] here, and this is the
    constructor for sample counts and vocabulary sizes inside that range
    (the predicate [fits_int32] below). *)
Definition KgeSampler_init (cls : SamplerClass) (config : Config) (ds : Dataset)
    : M KgeSampler :=
  let shared := cfg_shared config in
  let fsplit := cfg_filtering_split config in
  let fsplit := if String.eqb fsplit EmptyString then cfg_train_split config else fsplit in
  '(ns, fp, vs) ← init_slots config ds fsplit
      (Tensor3 0%Z 0%Z 0%Z, Tensor3 false false false, Tensor3 0%Z 0%Z 0%Z)
      SLOT.SLOTS ;
  impl ←
    (if any3 fp then
       if shared then raise (ValueError filtering_shared_msg)
       else
         _ ← check_option "filtering.implementation"
               (cfg_filtering_implementation config)
               ["standard"; "fast"; "fast_if_available"] ;
         ret (Some (cfg_filtering_implementation config))
     else ret None) ;
  ret {| class_of := cls;
         num_samples := auto_config ns;
         filter_positives := fp;
         vocabulary_size := vs;
         shared := shared;
         filtering_split := fsplit;
         filter_implementation := impl;
         dataset := ds;
         _multinomials := [] |}.

(** ** Random primitives of torch and of np.random under Numba *)

Definition advance (k : nat) (r : RandomState) : RandomState :=
  {| entropy := entropy r; consumed := consumed r + k |}.

(** The next [k] entropy cells of a generator. *)
Definition cells (k : nat) (r : RandomState) : list Z :=
  map (entropy r) (seq (consumed r) k).

Definition torch_draw (k : nat) : M (list Z) :=
  λ w, Ret (cells k (torch_rng w))
           {| torch_rng := advance k (torch_rng w); numba_rng := numba_rng w;
              index_calls := index_calls w |}.

Definition numba_draw (k : nat) : M (list Z) :=
  λ w, Ret (cells k (numba_rng w))
           {| torch_rng := torch_rng w; numba_rng := advance k (numba_rng w);
              index_calls := index_calls w |}.

(** [flat.view(rows, cols)]: the rows of a flat tensor of [rows * cols] entries. *)
Fixpoint view (rows cols : nat) (flat : list Z) : Matrix :=
  match rows with
  | 0 => []
  | S r => take cols flat :: view r cols (drop cols flat)
  end.

(** [torch.randint(high, (rows, cols))]: every entry is one entropy cell
    reduced to [[0, high)]; an empty range or a negative dimension is an
    error of torch. *)
Definition torch_randint (high : Z) (rows : nat) (cols : Z) : M Matrix :=
  if (cols <? 0)%Z then raise (RuntimeError "negative dimension")
  else if (high <=? 0)%Z then raise (RuntimeError "random_ expects from < to")
  else
    es ← torch_draw (rows * Z.to_nat cols);
    mret (view rows (Z.to_nat cols) (map (λ e, e mod high)%Z es)).

(** [np.random.randint(low, high, k)] in the kernel compiled by Numba: the
    cells come from Numba's generator. *)
Definition numpy_randint (low high : Z) (k : nat) : M (list Z) :=
  if (high <=? low)%Z then raise (ValueError "low >= high")
  else
    es ← numba_draw k;
    mret (map (λ e, low + e mod (high - low))%Z es).

(** One draw of the alias method from the tables [(q, J)] and one entropy
    cell: a uniform index [i], kept with probability [q[i]] and replaced by
    its alias [J[i]] otherwise.  The low part of the cell gives the index,
    the high part the coin. *)
Definition alias_decode (q : list Q) (J : list Z) (e : Z) : Z :=
  let K := Z.of_nat (length J) in
  let i := (e mod K)%Z in
  let u := Qmake ((e / K) mod 2 ^ 53)%Z (2 ^ 53)%positive in
  if Qle_bool (nth (Z.to_nat i) q 0%Q) u
  then nth (Z.to_nat i) J 0%Z
  else i.

(** [torch._multinomial_alias_draw(q, J, num)]. *)
Definition _multinomial_alias_draw (q : list Q) (J : list Z) (num : Z) : M (list Z) :=
  if (num <? 0)%Z then raise (RuntimeError "negative dimension")
  else if length J =? 0 then raise (RuntimeError "empty alias table")
  else
    es ← torch_draw (Z.to_nat num);
    mret (map (alias_decode q J) es).

(** ** [_sample] and [_sample_shared] *)

Definition slot_index (sl : slot) : nat :=
  match sl with SLOT.S => 0 | SLOT.P => 1 | SLOT.O => 2 end.

(** [KgeUniformSampler._sample]. *)
Definition KgeUniformSampler_sample (self : KgeSampler)
    (positive_triples : list Triple) (sl : slot) (n : Z) : M Matrix :=
  torch_randint (getitem (vocabulary_size self) sl) (length positive_triples) n.

(** [KgeFrequencySampler._sample]. *)
Definition KgeFrequencySampler_sample (self : KgeSampler)
    (positive_triples : list Triple) (sl : slot) (n : option Z) : M Matrix :=
  let n := match n with None => getitem (num_samples self) sl | Some n => n end in
  if (n =? 0)%Z then
    mret (replicate (length positive_triples) [])
  else
    match _multinomials self !! slot_index sl with
    | None => raise IndexError
    | Some (J, q) =>
        flat ← _multinomial_alias_draw q J (Z.of_nat (length positive_triples) * n);
        if (n <? 0)%Z then raise (RuntimeError "invalid shape")
        else mret (view (length positive_triples) (Z.to_nat n) flat)
    end.

(** [self._sample(positive_triples, slot, num_samples)], dispatched on the
    class of the sampler. *)
Definition _sample (self : KgeSampler) (positive_triples : list Triple)
    (sl : slot) (n : Z) : M Matrix :=
  match class_of self with
  | KgeUniformSampler => KgeUniformSampler_sample self positive_triples sl n
  | KgeFrequencySampler => KgeFrequencySampler_sample self positive_triples sl (Some n)
  end.

(** [torch.empty(1)]: one uninitialised entry; only its [size(0) = 1] is read. *)
Definition torch_empty_1 : list Triple := [(0, 0, 0)%Z].

(** [self._sample_shared(positive_triples, slot, num_samples)]: both classes
    have the body [self._sample(torch.empty(1), slot, num_samples).view(-1)]. *)
Definition _sample_shared (self : KgeSampler) (positive_triples : list Triple)
    (sl : slot) (n : Z) : M (list Z) :=
  m ← _sample self torch_empty_1 sl n;
  mret (concat m).

(** [v.expand(rows, cols)] for a vector [v] of [cols] entries. *)
Definition expand (v : list Z) (rows : nat) : Matrix := replicate rows v.

(** ** [where_in] *)

(** Modelled from the spec: [kge.indexing.where_in] is not part of the
    sources at hand.  Given candidates [x] and positives [y] it returns, in
    increasing order, the indices of the candidates that are present in [y],
    or of those that are not when [not_in] is set; duplicates and the order
    of [y] do not matter. *)
Fixpoint where_in_from (i : nat) (x y : list Z) (not_in : bool) : list nat :=
  match x with
  | [] => []
  | v :: x' =>
      if xorb (bool_decide (v ∈ y)) not_in
      then i :: where_in_from (S i) x' y not_in
      else where_in_from (S i) x' y not_in
  end.

Definition where_in (x y : list Z) (not_in : bool) : list nat :=
  where_in_from 0 x y not_in.

(** ** The standard filter: [KgeSampler._filter_and_resample] *)

(** [values[idx]] for a list of indices. *)
Definition gather (values : list Z) (idx : list nat) : list Z :=
  map (λ k, nth k values 0%Z) idx.

(** [row[idx] = values], index and value lists of equal length. *)
Definition index_put (row : list Z) (idx : list nat) (values : list Z) : list Z :=
  foldl (λ r jv, <[jv.1 := jv.2]> r) row (zip idx values).

(** [l[a : a + k]]. *)
Definition slice {A} (l : list A) (a k : nat) : list A := take k (drop a l).

(** The [while num_remaining] loop for row [i]; every iteration takes one
    unit of fuel. *)
Fixpoint resample_loop (fuel : nat) (self : KgeSampler) (t : Triple) (sl : slot)
    (positives : list Z) (resample_idx : list nat) (num_new : nat)
    (row : list Z) (num_found num_remaining : nat) {struct fuel} : M (list Z) :=
  if num_remaining =? 0 then mret row
  else
    match fuel with
    | 0 => diverge
    | S fuel' =>
        m ← _sample self [t] sl (Z.of_nat num_remaining);
        let new_samples := concat m in
        let tn_idx := where_in new_samples positives true in
        if length tn_idx =? 0 then
          resample_loop fuel' self t sl positives resample_idx num_new
            row num_found num_remaining
        else
          let row' :=
            index_put row (slice resample_idx num_found (length tn_idx))
              (gather new_samples tn_idx) in
          let num_found' := num_found + length tn_idx in
          resample_loop fuel' self t sl positives resample_idx num_new
            row' num_found' (num_new - num_found')
    end.

(** Body of [for i in range(positive_triples.size(0))]. *)
Definition filter_row (fuel : nat) (self : KgeSampler) (sl : slot)
    (idx : Z * Z → list Z) (t : Triple) (row : list Z) : M (list Z) :=
  let positives := idx (pair_of sl t) in
  let resample_idx := where_in row positives false in
  let num_new := length resample_idx in
  let num_found := 0 in
  resample_loop fuel self t sl positives resample_idx num_new row
    num_found (num_new - num_found).

Fixpoint filter_rows (fuel : nat) (self : KgeSampler) (sl : slot)
    (idx : Z * Z → list Z) (triples : list Triple) (i : nat)
    (negative_samples : Matrix) : M Matrix :=
  match triples with
  | [] => mret negative_samples
  | t :: rest =>
      match negative_samples !! i with
      | None => raise IndexError
      | Some row =>
          row' ← filter_row fuel self sl idx t row;
          filter_rows fuel self sl idx rest (S i) (<[i := row']> negative_samples)
      end
  end.

Definition _filter_and_resample (fuel : nat) (self : KgeSampler)
    (negative_samples : Matrix) (sl : slot) (positive_triples : list Triple)
    : M Matrix :=
  idx ← dataset_index (dataset self) (index_name (filtering_split self) sl);
  filter_rows fuel self sl idx positive_triples 0 negative_samples.

(** ** The fast filter of the uniform sampler *)

(** The loop [for j in resample_idx[...]: negative_samples[i, j] =
    new_samples[ctr]; ctr += 1] of the numba kernel. *)
Fixpoint numba_write (row : list Z) (js : list nat) (new_samples : list Z)
    (ctr : nat) : list Z :=
  match js with
  | [] => row
  | j :: js' =>
      numba_write (<[j := nth ctr new_samples 0%Z]> row) js' new_samples (S ctr)
  end.

(** The [while num_remaining] loop of the numba kernel. *)
Fixpoint numba_loop (fuel : nat) (voc_size : Z) (positives : list Z)
    (resample_idx : list nat) (num_new : nat)
    (row : list Z) (num_found num_remaining : nat) {struct fuel} : M (list Z) :=
  if num_remaining =? 0 then mret row
  else
    match fuel with
    | 0 => diverge
    | S fuel' =>
        new_samples ← numpy_randint 0 voc_size num_remaining;
        let idx := where_in new_samples positives true in
        if length idx =? 0 then
          numba_loop fuel' voc_size positives resample_idx num_new
            row num_found num_remaining
        else
          let ctr := 0 in
          let row' :=
            numba_write row (slice resample_idx num_found (length idx))
              new_samples ctr in
          let num_found' := num_found + length idx in
          numba_loop fuel' voc_size positives resample_idx num_new
            row' num_found' (num_new - num_found')
    end.

Definition numba_row (fuel : nat) (voc_size : Z) (positives : list Z)
    (row : list Z) : M (list Z) :=
  let resample_idx := where_in row positives false in
  let num_new := length resample_idx in
  let num_found := 0 in
  numba_loop fuel voc_size positives resample_idx num_new row
    num_found (num_new - num_found).

(** [for i in range(batch_size)] of the kernel, [todo] rows left from row [i]. *)
Fixpoint numba_rows (fuel : nat) (pairs : list (Z * Z))
    (positives_index : gmap (Z * Z) (list Z)) (voc_size : Z)
    (todo i : nat) (negative_samples : Matrix) : M Matrix :=
  match todo with
  | 0 => mret negative_samples
  | S todo' =>
      match pairs !! i with
      | None => raise IndexError
      | Some pr =>
          match positives_index !! pr with
          | None => raise KeyError
          | Some positives =>
              match negative_samples !! i with
              | None => raise IndexError
              | Some row =>
                  row' ← numba_row fuel voc_size positives row;
                  numba_rows fuel pairs positives_index voc_size todo' (S i)
                    (<[i := row']> negative_samples)
              end
          end
      end
  end.

(** [KgeUniformSampler._filter_and_resample_numba]; the array is updated in
    place, the updated array is the result here. *)
Definition _filter_and_resample_numba (fuel : nat) (negative_samples : Matrix)
    (pairs : list (Z * Z)) (positives_index : gmap (Z * Z) (list Z))
    (batch_size : nat) (voc_size : Z) : M Matrix :=
  numba_rows fuel pairs positives_index voc_size batch_size 0 negative_samples.

(** The loop filling [positives_index = numba.typed.Dict()]. *)
Fixpoint fill_positives_index (idx : Z * Z → list Z) (pairs : list (Z * Z))
    (positives_index : gmap (Z * Z) (list Z)) : gmap (Z * Z) (list Z) :=
  match pairs with
  | [] => positives_index
  | pr :: rest => fill_positives_index idx rest (<[pr := idx pr]> positives_index)
  end.

(** [numba.typed.Dict()] has no key and value types until its first entry is
    written, and entries are never removed here: the dictionary is untyped
    exactly if it is empty. *)
Definition untyped (positives_index : gmap (Z * Z) (list Z)) : bool :=
  bool_decide (positives_index = ∅).

(** [KgeUniformSampler._filter_and_resample_fast].  The call of the kernel
    compiled by [numba.njit] types its arguments first and raises
    [TypeError] for an untyped dictionary. *)
Definition KgeUniformSampler_filter_and_resample_fast (fuel : nat)
    (self : KgeSampler) (negative_samples : Matrix) (sl : slot)
    (positive_triples : list Triple) : M Matrix :=
  idx ← dataset_index (dataset self) (index_name (filtering_split self) sl);
  let pairs := map (pair_of sl) positive_triples in
  let batch_size := length positive_triples in
  let voc_size := getitem (vocabulary_size self) sl in
  let positives_index := fill_positives_index idx pairs ∅ in
  if untyped positives_index then raise TypeError
  else
    _filter_and_resample_numba fuel negative_samples pairs positives_index
      batch_size voc_size.

(** [self._filter_and_resample_fast]: the frequency sampler inherits the
    method of [KgeSampler], which raises. *)
Definition _filter_and_resample_fast (fuel : nat) (self : KgeSampler)
    (negative_samples : Matrix) (sl : slot) (positive_triples : list Triple)
    : M Matrix :=
  match class_of self with
  | KgeUniformSampler =>
      KgeUniformSampler_filter_and_resample_fast fuel self negative_samples sl
        positive_triples
  | KgeFrequencySampler =>
      raise (NotImplementedError
               "Use filtering.implementation=standard for this sampler.")
  end.

(** ** [KgeSampler.sample] *)

(** The sampler is returned next to the matrix: the call may assign
    [self.filter_implementation]. *)
Definition sample (fuel : nat) (self : KgeSampler) (positive_triples : list Triple)
    (sl : slot) (n : option Z) : M (Matrix * KgeSampler) :=
  let n := match n with None => getitem (num_samples self) sl | Some n => n end in
  negative_samples ←
    (if shared self then
       v ← _sample_shared self positive_triples sl n;
       mret (expand v (length positive_triples))
     else _sample self positive_triples sl n);
  if getitem (filter_positives self) sl then
    match filter_implementation self with
    | None => raise AttributeError
    | Some impl =>
        if String.eqb impl "fast" then
          m ← _filter_and_resample_fast fuel self negative_samples sl
                positive_triples;
          mret (m, self)
        else if String.eqb impl "standard" then
          m ← _filter_and_resample fuel self negative_samples sl positive_triples;
          mret (m, self)
        else
          try_except_NotImplementedError
            (m ← _filter_and_resample_fast fuel self negative_samples sl
                   positive_triples;
             mret (m, set_filter_implementation self "fast"))
            (m ← _filter_and_resample fuel self negative_samples sl
                   positive_triples;
             mret (m, set_filter_implementation self "standard"))
    end
  else mret (negative_samples, self).

(** ** Constructors of the two classes and [KgeSampler.create] *)

Definition KgeUniformSampler_init (config : Config) (ds : Dataset) : M KgeSampler :=
  KgeSampler_init KgeUniformSampler config ds.

(** [np.bincount(x, minlength=m)]: the counts of [0 .. max(m, max(x) + 1) - 1];
    a negative entry is an error of numpy. *)
Definition bincount (x : list Z) (minlength : Z) : M (list Z) :=
  if bool_decide (Forall (λ v, 0 ≤ v)%Z x) then
    let len := Z.to_nat (Z.max minlength (foldr Z.max (-1)%Z x + 1)) in
    mret (map (λ v, Z.of_nat (length (filter (λ y, y = Z.of_nat v) x))) (seq 0 len))
  else raise (ValueError "bincount: negative input").

Definition Qsum (l : list Q) : Q := foldr Qplus 0%Q l.

Section TorchAliasSetup.
(** [torch._multinomial_alias_setup], which returns the pair [(J, q)]. *)
Variable _multinomial_alias_setup : list Q → list Z * list Q.

(** Body of [for slot in SLOTS] in [KgeFrequencySampler.__init__]. *)
Definition frequency_slot (config : Config) (ds : Dataset) (self : KgeSampler)
    (multinomials : list (list Z * list Q)) (sl : slot)
    : M (list (list Z * list Q)) :=
  let alpha := cfg_frequency_smoothing config in
  counts ← bincount (map (λ t, triple_at t sl) (split ds (cfg_train_split config)))
             (getitem (vocabulary_size self) sl);
  let smoothed_counts := map (λ c, inject_Z c + alpha)%Q counts in
  let total := Qsum smoothed_counts in
  mret (multinomials ++
        [_multinomial_alias_setup (map (λ c, c / total)%Q smoothed_counts)]).

Fixpoint frequency_slots (config : Config) (ds : Dataset) (self : KgeSampler)
    (multinomials : list (list Z * list Q)) (slots : list slot)
    : M (list (list Z * list Q)) :=
  match slots with
  | [] => mret multinomials
  | sl :: rest =>
      ms ← frequency_slot config ds self multinomials sl;
      frequency_slots config ds self ms rest
  end.

Definition KgeFrequencySampler_init (config : Config) (ds : Dataset)
    : M KgeSampler :=
  self ← KgeSampler_init KgeFrequencySampler config ds;
  ms ← frequency_slots config ds self [] SLOT.SLOTS;
  mret (set_multinomials self ms).

(** [KgeSampler.create]. *)
Definition create (config : Config) (configuration_key : string) (ds : Dataset)
    : M KgeSampler :=
  let sampling_type := cfg_sampling_type config in
  if String.eqb sampling_type "uniform" then KgeUniformSampler_init config ds
  else if String.eqb sampling_type "frequency" then
    KgeFrequencySampler_init config ds
  else raise (ValueError (configuration_key +:+ ".sampling_type")).
End TorchAliasSetup.

(** * Definitions of the specification *)

(** ** Construction in closed form *)

(** The world after the index requests of the filtered slots. *)
Definition log_requests (w : World) (names : list string) : World :=
  {| torch_rng := torch_rng w; numba_rng := numba_rng w;
     index_calls := index_calls w ++ names |}.

(** The split the positive-pair indexes are taken from. *)
Definition resolved_split (config : Config) : string :=
  if String.eqb (cfg_filtering_split config) EmptyString
  then cfg_train_split config
  else cfg_filtering_split config.

Definition filtered_slots (fp : tensor3 bool) : list slot :=
  filter (λ sl, getitem fp sl = true) SLOT.SLOTS.

Definition valid_implementation (impl : string) : bool :=
  bool_decide (impl ∈ ["standard"; "fast"; "fast_if_available"]).

(** ** Generators as streams *)

Inductive generator := Torch | Numba.

Definition rng_of (g : generator) (w : World) : RandomState :=
  match g with Torch => torch_rng w | Numba => numba_rng w end.

(** The world with the cursor of one generator moved to [c]. *)
Definition set_consumed (g : generator) (c : nat) (w : World) : World :=
  match g with
  | Torch =>
      {| torch_rng := {| entropy := entropy (torch_rng w); consumed := c |};
         numba_rng := numba_rng w; index_calls := index_calls w |}
  | Numba =>
      {| torch_rng := torch_rng w;
         numba_rng := {| entropy := entropy (numba_rng w); consumed := c |};
         index_calls := index_calls w |}
  end.

Definition draw_from (g : generator) (k : nat) : M (list Z) :=
  λ w, Ret (cells k (rng_of g w))
           (set_consumed g (consumed (rng_of g w) + k) w).

(** The values a generator yields from cell [c] on, [len] of them, decoded
    by [dec]. *)
Definition tape_values (g : generator) (dec : Z → Z) (w : World) (c len : nat)
    : list Z :=
  map (λ k, dec (entropy (rng_of g w) k)) (seq c len).

(** ** The resample loop over a stream

    Both resample loops draw [num_remaining] cells of one generator, decode
    them, and write into the row.  [stream_loop] is that loop for a
    generator [g], a decoder [dec] and a writer [write]; the loops of the
    source are instances of it (see [resample_loop_stream] and
    [numba_loop_stream]). *)

Section StreamLoopDefinitions.
Variable g : generator.
Variable dec : Z → Z.
Variable write : list Z → list nat → list Z → list nat → list Z.
Variable positives : list Z.
Variable resample_idx : list nat.
Variable num_new : nat.

Fixpoint stream_loop (fuel : nat) (row : list Z) (num_found num_remaining : nat)
    {struct fuel} : M (list Z) :=
  if num_remaining =? 0 then mret row
  else
    match fuel with
    | 0 => diverge
    | S fuel' =>
        es ← draw_from g num_remaining;
        let new_samples := map dec es in
        let tn_idx := where_in new_samples positives true in
        if length tn_idx =? 0 then
          stream_loop fuel' row num_found num_remaining
        else
          stream_loop fuel'
            (write row (slice resample_idx num_found (length tn_idx))
               new_samples tn_idx)
            (num_found + length tn_idx)
            (num_new - (num_found + length tn_idx))
    end.

(** The candidates drawn at cursor [c] of the tape of [w]. *)
Definition candidates (w : World) (c r : nat) : list Z := tape_values g dec w c r.

Definition accepted (w : World) (c r : nat) : list nat :=
  where_in (candidates w c r) positives true.

(** A tape is fair for the positives if it yields, from every cell on, a
    value outside the positives. *)
Definition fair (w : World) : Prop :=
  ∀ c, ∃ k, c ≤ k ∧ dec (entropy (rng_of g w) k) ∉ positives.

End StreamLoopDefinitions.

(** ** The loops of the source as stream loops *)

(** The value [_sample] makes of one entropy cell. *)
Definition sample_value (self : KgeSampler) (sl : slot) : Z → Z :=
  match class_of self with
  | KgeUniformSampler => λ e, (e mod getitem (vocabulary_size self) sl)%Z
  | KgeFrequencySampler =>
      match _multinomials self !! slot_index sl with
      | Some (J, q) => alias_decode q J
      | None => λ e, e
      end
  end.

(** What [_sample] needs to draw without an error: a non-empty vocabulary,
    and for the frequency sampler the alias tables of the slot. *)
Definition can_sample (self : KgeSampler) (sl : slot) : Prop :=
  match class_of self with
  | KgeUniformSampler => (0 < getitem (vocabulary_size self) sl)%Z
  | KgeFrequencySampler =>
      ∃ J q, _multinomials self !! slot_index sl = Some (J, q) ∧ length J ≠ 0
  end.

(** The writers of the two loops. *)
Definition write_standard (row : list Z) (js : list nat) (new_samples : list Z)
    (tn_idx : list nat) : list Z :=
  index_put row js (gather new_samples tn_idx).

Definition write_numba (row : list Z) (js : list nat) (new_samples : list Z)
    (tn_idx : list nat) : list Z :=
  numba_write row js new_samples 0.

(** The decoder of [np.random.randint(0, voc_size, _)]. *)
Definition numpy_value (voc_size : Z) : Z → Z :=
  λ e, (0 + e mod (voc_size - 0))%Z.

(** ** Rows and batches *)

(** A writer keeps the length of the row and writes drawn candidates only. *)
Definition writer_ok (positives : list Z)
    (write : list Z → list nat → list Z → list nat → list Z) : Prop :=
  (∀ row js new tn, length (write row js new tn) = length row) ∧
  (∀ (Q : Z → Prop) row js new,
     length js ≤ length (where_in new positives true) →
     Forall Q row → Forall Q new →
     Forall Q (write row js new (where_in new positives true))).

(** What the standard loop makes of a row: the entries outside the
    positives stay, and the colliding positions hold, in their order, the
    accepted ones of the candidates drawn from cell [c] to cell [c']. *)
Definition row_resampled (g : generator) (dec : Z → Z) (w : World)
    (positives row row' : list Z) (c c' : nat) : Prop :=
  c ≤ c' ∧
  length row' = length row ∧
  (∀ j v, row !! j = Some v → v ∉ positives → row' !! j = Some v) ∧
  gather row' (where_in row positives false) =
    filter (λ v, v ∉ positives) (tape_values g dec w c (c' - c)).

(** Row [k] of the batch is resampled from the cells between the cursors
    [cs !! k] and [cs !! (k + 1)] of torch's generator; [offset] is the index
    of the first row treated. *)
Definition rows_resampled (dec : Z → Z) (w : World) (positives_of : Triple → list Z)
    (triples : list Triple) (offset : nat) (m m' : Matrix) (cs : list nat) : Prop :=
  ∀ k t row, triples !! k = Some t → m !! (offset + k) = Some row →
    ∃ row' c c',
      m' !! (offset + k) = Some row' ∧ cs !! k = Some c ∧ cs !! S k = Some c' ∧
      row_resampled Torch dec w (positives_of t) row row' c c'.

(** The positives of the row of triple [t]. *)
Definition positives_of (self : KgeSampler) (sl : slot) (t : Triple) : list Z :=
  index (dataset self) (index_name (filtering_split self) sl) (pair_of sl t).

(** ** Invariant of a constructed sampler *)

Definition in_vocabulary (self : KgeSampler) (sl : slot) (v : Z) : Prop :=
  (0 ≤ v < getitem (vocabulary_size self) sl)%Z.

(** The alias tables of the frequency sampler: one pair per slot, as long
    as the vocabulary, with aliases inside the vocabulary. *)
Definition tables_ok (self : KgeSampler) : Prop :=
  match class_of self with
  | KgeUniformSampler => True
  | KgeFrequencySampler =>
      ∀ sl, ∃ J q,
        _multinomials self !! slot_index sl = Some (J, q) ∧
        Z.of_nat (length J) = getitem (vocabulary_size self) sl ∧
        Forall (in_vocabulary self sl) J
  end.

Definition valid_implementations : list string :=
  ["standard"; "fast"; "fast_if_available"].

Record sampler_invariant (self : KgeSampler) : Prop := {
  inv_vocabulary : ∀ sl, (0 < getitem (vocabulary_size self) sl)%Z;
  inv_tables : tables_ok self;
  inv_num_samples : ∀ sl, (0 ≤ getitem (num_samples self) sl)%Z;
  inv_exclusive :
    shared self = true → ∀ sl, getitem (filter_positives self) sl = false;
  inv_implementation :
    ∀ sl, getitem (filter_positives self) sl = true →
      ∃ impl, filter_implementation self = Some impl ∧ impl ∈ valid_implementations
}.

(** ** The two stages of [sample] *)

(** The number of samples of a call. *)
Definition requested (self : KgeSampler) (sl : slot) (n : option Z) : Z :=
  match n with None => getitem (num_samples self) sl | Some n => n end.

(** First stage: the raw matrix. *)
Definition draw_stage (self : KgeSampler) (positive_triples : list Triple)
    (sl : slot) (n : Z) : M Matrix :=
  if shared self then
    v ← _sample_shared self positive_triples sl n;
    mret (expand v (length positive_triples))
  else _sample self positive_triples sl n.

(** Second stage: the filter chosen by [filter_implementation]. *)
Definition filter_stage (fuel : nat) (self : KgeSampler) (negative_samples : Matrix)
    (sl : slot) (positive_triples : list Triple) : M (Matrix * KgeSampler) :=
  if getitem (filter_positives self) sl then
    match filter_implementation self with
    | None => raise AttributeError
    | Some impl =>
        if String.eqb impl "fast" then
          m ← _filter_and_resample_fast fuel self negative_samples sl
                positive_triples;
          mret (m, self)
        else if String.eqb impl "standard" then
          m ← _filter_and_resample fuel self negative_samples sl positive_triples;
          mret (m, self)
        else
          try_except_NotImplementedError
            (m ← _filter_and_resample_fast fuel self negative_samples sl
                   positive_triples;
             mret (m, set_filter_implementation self "fast"))
            (m ← _filter_and_resample fuel self negative_samples sl
                   positive_triples;
             mret (m, set_filter_implementation self "standard"))
    end
  else mret (negative_samples, self).

(** The raw matrix and the cells it takes from torch's generator. *)
Definition raw_matrix (self : KgeSampler) (batch_size : nat) (sl : slot)
    (cols : nat) (w : World) : Matrix :=
  let c := consumed (torch_rng w) in
  if shared self
  then replicate batch_size (tape_values Torch (sample_value self sl) w c cols)
  else view batch_size cols
         (tape_values Torch (sample_value self sl) w c (batch_size * cols)).

Definition raw_cells (self : KgeSampler) (batch_size cols : nat) : nat :=
  if shared self then cols else batch_size * cols.

(** Row by row the length is kept, and so is a property [Q] of the entries. *)
Definition kept (Q : Z → Prop) (m m' : Matrix) : Prop :=
  Forall2 (λ row row', length row' = length row ∧ (Forall Q row → Forall Q row'))
    m m'.

(** What [sample] may do to the sampler: nothing, or resolve the choice of
    the filter implementation. *)
Definition resolved_from (self self' : KgeSampler) : Prop :=
  self' = self ∨
  (filter_implementation self ≠ Some "fast" ∧
   filter_implementation self ≠ Some "standard" ∧
   (self' = set_filter_implementation self "fast" ∨
    self' = set_filter_implementation self "standard")).

(** ** Fair tapes and supported calls *)

(** Both tapes are fair for the positives of every row of the batch. *)
Definition fair_tapes (self : KgeSampler) (sl : slot) (triples : list Triple)
    (w : World) : Prop :=
  ∀ t, t ∈ triples →
    fair Torch (sample_value self sl) (positives_of self sl t) w ∧
    fair Numba (numpy_value (getitem (vocabulary_size self) sl))
      (positives_of self sl t) w.

(** The frequency sampler has no fast filter: a call with filtering and
    [filtering.implementation = fast] raises [NotImplementedError]. *)
Definition supported (self : KgeSampler) (sl : slot) : Prop :=
  ¬ (class_of self = KgeFrequencySampler ∧
     getitem (filter_positives self) sl = true ∧
     filter_implementation self = Some "fast").

(** The call runs the fast filter of the uniform sampler, whose kernel
    raises [TypeError] for a batch without triples. *)
Definition uses_fast_filter (self : KgeSampler) (sl : slot) : Prop :=
  class_of self = KgeUniformSampler ∧
  getitem (filter_positives self) sl = true ∧
  filter_implementation self ≠ Some "standard".

(** ** The random source and the precondition of the resample loop *)

(** A stream of samples is recurrent over the vocabulary if it keeps
    yielding every value of the vocabulary: after every cell comes a cell
    that decodes to the value.  This is an assumption on the random source
    and the distribution, not on the positives; a stream that repeats one
    value for ever is not recurrent. *)
Definition recurrent (g : generator) (dec : Z → Z) (voc : Z) (w : World) : Prop :=
  ∀ v, (0 ≤ v < voc)%Z → ∀ c, ∃ k, c ≤ k ∧ dec (entropy (rng_of g w) k) = v.

(** The precondition of the loop for the row of a triple: fewer distinct
    positives than the vocabulary has values. *)
Definition fewer_positives (self : KgeSampler) (sl : slot) (t : Triple) : Prop :=
  length (remove_dups (positives_of self sl t))
  < Z.to_nat (getitem (vocabulary_size self) sl).

(** ** Concrete objects for the examples *)

(** A tape that yields the entries of [l] and then [rest] for ever. *)
Definition tape_of (l : list Z) (rest : Z) : RandomState :=
  {| entropy := λ k, nth k l rest; consumed := 0 |}.

Definition world_of (torch numba : RandomState) : World :=
  {| torch_rng := torch; numba_rng := numba; index_calls := [] |}.

(** A tape that yields the entries of [l] and then counts up: cell [k]
    holds [k]. *)
Definition tape_then (l : list Z) : RandomState :=
  {| entropy := λ k, nth k l (Z.of_nat k); consumed := 0 |}.

(** Ten entities, four relations; every pair has the positives 3 and 7. *)
Definition example_dataset : Dataset :=
  {| num_entities := 10; num_relations := 4;
     index := λ _ _, [3; 7]%Z;
     split := λ _, [(1, 2, 3); (4, 0, 5)]%Z |}.

Definition example_config (sampling_type : string) (shared : bool)
    (filtering : tensor3 bool) (implementation : string) : Config :=
  {| cfg_sampling_type := sampling_type;
     cfg_shared := shared;
     cfg_filtering_split := EmptyString;
     cfg_train_split := "train";
     cfg_num_samples := Tensor3 (-1)%Z (-1)%Z 5%Z;
     cfg_filtering := filtering;
     cfg_filtering_implementation := implementation;
     cfg_frequency_smoothing := 1%Q |}.

(** ** Auxiliary notions of the proofs *)


(** What is used of [torch._multinomial_alias_setup]: the alias table is as
    long as the distribution and its entries are indices into it. *)
Definition setup_ok (setup : list Q → list Z * list Q) : Prop :=
  ∀ probs,
    length (setup probs).1 = length probs ∧
    Forall (λ j, (0 ≤ j < Z.of_nat (length probs))%Z) (setup probs).1.

(** The vocabularies are not empty and the training triples are inside. *)
Definition dataset_ok (config : Config) (ds : Dataset) : Prop :=
  (0 < num_entities ds)%Z ∧ (0 < num_relations ds)%Z ∧
  ∀ t sl, t ∈ split ds (cfg_train_split config) →
    (0 ≤ triple_at t sl
       < (if SLOT.eqb sl SLOT.P then num_relations ds else num_entities ds))%Z.

(** The result of [np.bincount]. *)
Definition bincount_value (x : list Z) (minlength : Z) : list Z :=
  map (λ v, Z.of_nat (length (filter (λ y, y = Z.of_nat v) x)))
      (seq 0 (Z.to_nat (Z.max minlength (foldr Z.max (-1)%Z x + 1)))).

(** The distribution [KgeFrequencySampler.__init__] hands to the setup. *)
Definition smoothed_distribution (config : Config) (ds : Dataset) (self : KgeSampler)
    (sl : slot) : list Q :=
  let counts :=
    bincount_value (map (λ t, triple_at t sl) (split ds (cfg_train_split config)))
      (getitem (vocabulary_size self) sl) in
  let smoothed_counts :=
    map (λ c, inject_Z c + cfg_frequency_smoothing config)%Q counts in
  map (λ c, c / Qsum smoothed_counts)%Q smoothed_counts.

(** The samplers after each call of a sequence of calls of [sample]. *)
Fixpoint sample_calls (fuel : nat) (self : KgeSampler)
    (calls : list (list Triple * slot * option Z)) : M (list KgeSampler) :=
  match calls with
  | [] => mret []
  | (positive_triples, sl, n) :: rest =>
      r ← sample fuel self positive_triples sl n;
      later ← sample_calls fuel r.2 rest;
      mret (r.2 :: later)
  end.

(** The number of changes of value along [prev :: l]. *)
Fixpoint transitions (prev : option string) (l : list (option string)) : nat :=
  match l with
  | [] => 0
  | x :: l' => (if decide (x = prev) then 0 else 1) + transitions x l'
  end.


(** ** Concrete samplers *)

(** The uniform sampler [create] builds for [example_dataset]. *)
Definition uniform_sampler (shared : bool) (filtering : tensor3 bool)
    (impl : option string) : KgeSampler :=
  {| class_of := KgeUniformSampler;
     num_samples := Tensor3 5%Z 0%Z 5%Z;
     filter_positives := filtering;
     vocabulary_size := Tensor3 10%Z 4%Z 10%Z;
     shared := shared;
     filtering_split := "train";
     filter_implementation := impl;
     dataset := example_dataset;
     _multinomials := [] |}.

(** An alias setup that is right for uniform distributions: no entry has
    an alias, every index is kept with probability one. *)
Definition example_setup (probs : list Q) : list Z * list Q :=
  (map (λ _, 0%Z) probs, map (λ _, 1%Q) probs).

(** The frequency sampler of [example_dataset] with the tables of
    [example_setup]. *)
Definition frequency_sampler (filtering : tensor3 bool) (impl : option string)
    : KgeSampler :=
  {| class_of := KgeFrequencySampler;
     num_samples := Tensor3 5%Z 0%Z 5%Z;
     filter_positives := filtering;
     vocabulary_size := Tensor3 10%Z 4%Z 10%Z;
     shared := false;
     filtering_split := "train";
     filter_implementation := impl;
     dataset := example_dataset;
     _multinomials :=
       [(replicate 10 0%Z, replicate 10 1%Q);
        (replicate 4 0%Z, replicate 4 1%Q);
        (replicate 10 0%Z, replicate 10 1%Q)] |}.

Definition only_object : tensor3 bool := Tensor3 false false true.
Definition no_filtering : tensor3 bool := Tensor3 false false false.

(** Torch draws 3, 5, 7, 2 and then 3, 4, 5; Numba draws 3, 4, 5; both
    yield 1 afterwards. *)
Definition example_world : World :=
  world_of (tape_of [3; 5; 7; 2; 3; 4; 5]%Z 1%Z) (tape_of [3; 4; 5]%Z 1%Z).

(** Two entities, both positives of every pair: the positives cover the
    vocabulary. *)
Definition covered_dataset : Dataset :=
  {| num_entities := 2; num_relations := 1;
     index := λ _ _, [0; 1]%Z;
     split := λ _, [] |}.

Definition covered_sampler : KgeSampler :=
  {| class_of := KgeUniformSampler;
     num_samples := Tensor3 0%Z 0%Z 0%Z;
     filter_positives := only_object;
     vocabulary_size := Tensor3 2%Z 1%Z 2%Z;
     shared := false;
     filtering_split := "train";
     filter_implementation := Some "standard";
     dataset := covered_dataset;
     _multinomials := [] |}.

(** Both generators yield 3 twice and then count up: 2, 3, 4, ... *)
Definition retry_world : World :=
  world_of (tape_then [3; 3]%Z) (tape_then [3; 3]%Z).

(** ** Notions of the further properties *)

(** The range of an [int32] entry of a tensor. *)
Definition int32 (z : Z) : Prop := (- 2 ^ 31 ≤ z < 2 ^ 31)%Z.

(** The number of colliding entries of a matrix: the entries of row [i]
    that are positives of triple [i]. *)
Definition collisions (positives : Triple → list Z) (triples : list Triple)
    (m : Matrix) : nat :=
  sum_list (zip_with (λ t row, length (where_in row (positives t) false))
              triples m).

(** The values [__init__] stores in its [int32] tensors fit. *)
Definition fits_int32 (config : Config) (ds : Dataset) : Prop :=
  (∀ sl, int32 (getitem (cfg_num_samples config) sl)) ∧
  int32 (num_entities ds) ∧ int32 (num_relations ds).

(** The message of [KgeSampler._filter_and_resample_fast]. *)
Definition fast_unsupported_msg : string :=
  "Use filtering.implementation=standard for this sampler.".

(** The column of a slot in the training split. *)
Definition train_column (config : Config) (ds : Dataset) (sl : slot) : list Z :=
  map (λ t, triple_at t sl) (split ds (cfg_train_split config)).

(** How often [v] occurs in [x]. *)
Definition occurrences (x : list Z) (v : Z) : Z :=
  Z.of_nat (length (filter (λ y, y = v) x)).

(** * Properties *)

(** ** Reasoning about the monad *)

Lemma bind_unfold {A B} (c : M A) (k : A → M B) (w : World) :
  (c ≫= k) w = match c w with
               | Ret a w' => k a w'
               | Raise e w' => Raise e w'
               | Diverge => Diverge
               end.
Proof. reflexivity. Qed.

Lemma bind_Ret_inv {A B} (c : M A) (k : A → M B) (w w2 : World) (b : B) :
  (c ≫= k) w = Ret b w2 → ∃ a w1, c w = Ret a w1 ∧ k a w1 = Ret b w2.
Proof.
  rewrite bind_unfold. destruct (c w) as [a w1|e w1|] eqn:E; try discriminate.
  intros H. by exists a, w1.
Qed.

Lemma bind_Ret {A B} (c : M A) (k : A → M B) (w w1 : World) (a : A) :
  c w = Ret a w1 → (c ≫= k) w = k a w1.
Proof. intros H. by rewrite bind_unfold, H. Qed.

Lemma bind_Raise {A B} (c : M A) (k : A → M B) (w w1 : World) (e : exn) :
  c w = Raise e w1 → (c ≫= k) w = Raise e w1.
Proof. intros H. by rewrite bind_unfold, H. Qed.

Lemma bind_Diverge {A B} (c : M A) (k : A → M B) (w : World) :
  c w = Diverge → (c ≫= k) w = Diverge.
Proof. intros H. by rewrite bind_unfold, H. Qed.

Lemma mret_unfold {A} (a : A) (w : World) : (mret a : M A) w = Ret a w.
Proof. reflexivity. Qed.

(** ** Construction *)

(** [__init__] in closed form. *)
Lemma KgeSampler_init_spec cls config ds w :
  let w' := log_requests w
              (map (index_name (resolved_split config))
                   (filtered_slots (cfg_filtering config))) in
  KgeSampler_init cls config ds w =
    if any3 (cfg_filtering config) && cfg_shared config
    then Raise (ValueError filtering_shared_msg) w'
    else if any3 (cfg_filtering config)
            && negb (valid_implementation (cfg_filtering_implementation config))
    then Raise (ConfigurationError "filtering.implementation"
                  (cfg_filtering_implementation config)) w'
    else Ret {| class_of := cls;
                num_samples := auto_config (cfg_num_samples config);
                filter_positives := cfg_filtering config;
                vocabulary_size :=
                  Tensor3 (num_entities ds) (num_relations ds) (num_entities ds);
                shared := cfg_shared config;
                filtering_split := resolved_split config;
                filter_implementation :=
                  if any3 (cfg_filtering config)
                  then Some (cfg_filtering_implementation config) else None;
                dataset := ds;
                _multinomials := [] |} w'.
Proof.
  destruct config as [ty sh fs tr [n1 n2 n3] [f1 f2 f3] impl al].
  destruct w as [tr_ np calls].
  unfold KgeSampler_init, resolved_split, valid_implementation, check_option,
    filtered_slots, log_requests; simpl.
  destruct f1, f2, f3, sh; simpl;
    rewrite ?bind_unfold; simpl; rewrite ?app_nil_r, <- ?app_assoc; simpl;
    try reflexivity;
    unfold mbind, M_bind, bind, raise, ret; simpl;
    destruct (bool_decide _); reflexivity.
Qed.

Lemma auto_config_spec (s p o : Z) :
  auto_config (Tensor3 s p o) =
    Tensor3 (if (s <? 0)%Z then if (0 <? o)%Z then o else 0%Z else s)
            (if (p <? 0)%Z then 0%Z else p)
            (if (o <? 0)%Z then if (0 <? s)%Z then s else 0%Z else o).
Proof.
  unfold auto_config, auto_config_step; simpl.
  destruct (Z.ltb_spec s 0), (Z.ltb_spec p 0), (Z.ltb_spec o 0); simpl;
    repeat (match goal with
            | |- context [(?a <? ?b)%Z] => destruct (Z.ltb_spec a b)
            end; simpl);
    try reflexivity; try (exfalso; simpl in *; lia).
Qed.

Lemma auto_config_nonneg (ns : tensor3 Z) (sl : slot) :
  (0 ≤ getitem (auto_config ns) sl)%Z.
Proof.
  destruct ns as [s p o]. rewrite auto_config_spec.
  destruct sl; simpl;
    repeat match goal with |- context [(?a <? ?b)%Z] =>
      destruct (Z.ltb_spec a b) end; lia.
Qed.

(** ** Generators as streams *)

Lemma torch_draw_eq k w : torch_draw k w = draw_from Torch k w.
Proof. reflexivity. Qed.

Lemma numba_draw_eq k w : numba_draw k w = draw_from Numba k w.
Proof. reflexivity. Qed.

Lemma cells_tape_values g dec w k :
  map dec (cells k (rng_of g w)) = tape_values g dec w (consumed (rng_of g w)) k.
Proof. unfold cells, tape_values. by rewrite map_map. Qed.

Lemma set_consumed_set_consumed g c c' w :
  set_consumed g c' (set_consumed g c w) = set_consumed g c' w.
Proof. by destruct g. Qed.

Lemma set_consumed_id g w : set_consumed g (consumed (rng_of g w)) w = w.
Proof. destruct g, w as [[] [] ?]; reflexivity. Qed.

Lemma rng_of_set_consumed g c w :
  rng_of g (set_consumed g c w) = {| entropy := entropy (rng_of g w); consumed := c |}.
Proof. by destruct g. Qed.

Lemma consumed_set_consumed g c w : consumed (rng_of g (set_consumed g c w)) = c.
Proof. by destruct g. Qed.

Lemma entropy_set_consumed g g' c w :
  entropy (rng_of g (set_consumed g' c w)) = entropy (rng_of g w).
Proof. by destruct g, g'. Qed.

Lemma index_calls_set_consumed g c w :
  index_calls (set_consumed g c w) = index_calls w.
Proof. by destruct g. Qed.

Lemma tape_values_set_consumed g g' dec c0 w c len :
  tape_values g dec (set_consumed g' c0 w) c len = tape_values g dec w c len.
Proof. unfold tape_values. by rewrite entropy_set_consumed. Qed.

Lemma tape_values_app g dec w c a b :
  tape_values g dec w c (a + b) =
    tape_values g dec w c a ++ tape_values g dec w (c + a) b.
Proof. unfold tape_values. by rewrite seq_app, map_app. Qed.

Lemma length_tape_values g dec w c len : length (tape_values g dec w c len) = len.
Proof. unfold tape_values. by rewrite length_map, length_seq. Qed.

(** ** Lists: [where_in], [gather], [index_put], [numba_write], [view] *)

Lemma where_in_from_shift i x y b :
  where_in_from i x y b = map (λ k, i + k) (where_in x y b).
Proof.
  unfold where_in. revert i. induction x as [|v x IH]; intros i; [done|].
  simpl. rewrite (IH (S i)), (IH 1).
  destruct (xorb _ _); simpl; rewrite ?Nat.add_0_r, map_map;
    [f_equal|]; apply map_ext; intros; lia.
Qed.

Lemma where_in_cons v x y b :
  where_in (v :: x) y b =
    if xorb (bool_decide (v ∈ y)) b
    then 0 :: map S (where_in x y b)
    else map S (where_in x y b).
Proof.
  unfold where_in at 1. simpl. rewrite where_in_from_shift.
  by destruct (xorb _ _).
Qed.

Lemma gather_cons_map_S v x idx : gather (v :: x) (map S idx) = gather x idx.
Proof. unfold gather. rewrite map_map. by apply map_ext. Qed.

(** The accepted candidates are the candidates outside the positives, in
    their order. *)
Lemma gather_where_in_not_in x y :
  gather x (where_in x y true) = filter (λ v, v ∉ y) x.
Proof.
  induction x as [|v x IH]; [done|].
  rewrite where_in_cons, filter_cons.
  destruct (decide (v ∉ y)) as [Hv|Hv].
  - rewrite bool_decide_eq_false_2 by done. simpl.
    by rewrite gather_cons_map_S, IH.
  - rewrite bool_decide_eq_true_2 by (by apply dec_stable). simpl.
    by rewrite gather_cons_map_S, IH.
Qed.

Lemma length_gather x idx : length (gather x idx) = length idx.
Proof. apply length_map. Qed.

Lemma length_where_in_not_in x y :
  length (where_in x y true) = length (filter (λ v, v ∉ y) x).
Proof. by rewrite <- gather_where_in_not_in, length_gather. Qed.

Lemma length_where_in_le x y b : length (where_in x y b) ≤ length x.
Proof.
  induction x as [|v x IH]; [done|].
  rewrite where_in_cons. destruct (xorb _ _); simpl; rewrite length_map; lia.
Qed.

Lemma where_in_not_in_nil x y :
  length (where_in x y true) = 0 ↔ Forall (λ v, v ∈ y) x.
Proof.
  induction x as [|v x IH]; [by split|].
  rewrite where_in_cons, Forall_cons.
  destruct (decide (v ∈ y)) as [Hv|Hv].
  - rewrite bool_decide_eq_true_2 by done. simpl. rewrite length_map. tauto.
  - rewrite bool_decide_eq_false_2 by done. simpl. split; [lia|tauto].
Qed.

Lemma elem_of_where_in x y b k :
  k ∈ where_in x y b ↔
  ∃ v, x !! k = Some v ∧ xorb (bool_decide (v ∈ y)) b = true.
Proof.
  revert k. induction x as [|v x IH]; intros k.
  - split; [by intros ?%elem_of_nil|by intros (? & ? & _)].
  - rewrite where_in_cons.
    assert (k ∈ map S (where_in x y b) ↔
            ∃ k', k = S k' ∧ ∃ u, x !! k' = Some u
                  ∧ xorb (bool_decide (u ∈ y)) b = true) as Hmap.
    { rewrite list_elem_of_fmap. split.
      - intros (k' & -> & Hk'). exists k'. split; [done|]. by apply IH.
      - intros (k' & -> & Hk'). exists k'. split; [done|]. by apply IH. }
    destruct (xorb (bool_decide (v ∈ y)) b) eqn:Hx.
    + rewrite elem_of_cons, Hmap. split.
      * intros [->|(k' & -> & u & ? & ?)]; [by exists v|by exists u].
      * intros (u & Hu & Hb). destruct k as [|k']; [by left|].
        right. exists k'. split; [done|]. by exists u.
    + rewrite Hmap. split.
      * intros (k' & -> & u & ? & ?). by exists u.
      * intros (u & Hu & Hb). destruct k as [|k'].
        { simpl in Hu. injection Hu as ->. congruence. }
        exists k'. split; [done|]. by exists u.
Qed.

Lemma where_in_lt x y b : Forall (λ k, k < length x) (where_in x y b).
Proof.
  apply Forall_forall. intros k (v & Hv & _)%elem_of_where_in.
  by eapply lookup_lt_Some.
Qed.

Lemma NoDup_where_in x y b : NoDup (where_in x y b).
Proof.
  induction x as [|v x IH]; [constructor|].
  rewrite where_in_cons.
  assert (NoDup (map S (where_in x y b))) as HS.
  { apply (NoDup_fmap_2 S), IH. }
  destruct (xorb _ _); [|done].
  constructor; [|done].
  intros (k & Hk & _)%list_elem_of_fmap. discriminate.
Qed.

Lemma slice_take_app {A} (l : list A) a k :
  take (a + k) l = take a l ++ slice l a k.
Proof. unfold slice. by rewrite take_take_drop. Qed.

Lemma length_slice {A} (l : list A) a k :
  a + k ≤ length l → length (slice l a k) = k.
Proof. intros H. unfold slice. rewrite length_take, length_drop. lia. Qed.

Lemma length_index_put row js vs : length (index_put row js vs) = length row.
Proof.
  unfold index_put. revert row vs.
  induction js as [|j js IH]; intros row [|v vs]; simpl; try done.
  by rewrite IH, length_insert.
Qed.

Lemma index_put_cons row j js v vs :
  index_put row (j :: js) (v :: vs) = index_put (<[j := v]> row) js vs.
Proof. reflexivity. Qed.

Lemma index_put_lookup_other row js vs j :
  j ∉ js → index_put row js vs !! j = row !! j.
Proof.
  revert row vs. induction js as [|j0 js IH]; intros row [|v vs] Hj; try done.
  apply not_elem_of_cons in Hj as [Hne Hj].
  rewrite index_put_cons, IH by done. by apply list_lookup_insert_ne.
Qed.

Lemma gather_ext x x' idx :
  (∀ j, j ∈ idx → x !! j = x' !! j) → gather x idx = gather x' idx.
Proof.
  intros H. unfold gather. apply map_ext_in. intros j Hj%list_elem_of_In.
  by rewrite !nth_lookup, H.
Qed.

Lemma gather_index_put_other row js vs idx :
  (∀ j, j ∈ idx → j ∉ js) →
  gather (index_put row js vs) idx = gather row idx.
Proof. intros H. apply gather_ext. intros j Hj. by apply index_put_lookup_other, H. Qed.

Lemma gather_index_put row js vs :
  NoDup js → length js = length vs → Forall (λ j, j < length row) js →
  gather (index_put row js vs) js = vs.
Proof.
  revert row vs. induction js as [|j js IH]; intros row [|v vs] Hnd Hlen Hlt;
    try done.
  apply NoDup_cons in Hnd as [Hj Hnd]. apply Forall_cons in Hlt as [Hjlt Hlt].
  rewrite index_put_cons. unfold gather at 1. simpl. f_equal.
  - rewrite nth_lookup, index_put_lookup_other by done.
    by rewrite list_lookup_insert_eq.
  - apply IH; [done|by injection Hlen|]. by rewrite length_insert.
Qed.

Lemma Forall_index_put (Q : Z → Prop) row js vs :
  Forall Q row → Forall Q vs → Forall Q (index_put row js vs).
Proof.
  revert row vs. induction js as [|j js IH]; intros row [|v vs] Hrow Hvs;
    try done.
  apply Forall_cons in Hvs as [Hv Hvs].
  rewrite index_put_cons. apply IH; [|done]. by apply Forall_insert.
Qed.

Lemma Forall_gather (Q : Z → Prop) x idx :
  Forall Q x → Forall (λ k, k < length x) idx → Forall Q (gather x idx).
Proof.
  intros Hx Hidx. unfold gather. apply Forall_fmap.
  eapply Forall_impl; [exact Hidx|]. intros k Hk. simpl.
  destruct (lookup_lt_is_Some_2 x k Hk) as [v Hv].
  rewrite (nth_lookup_Some _ _ _ _ Hv).
  by eapply Forall_lookup_1.
Qed.

Lemma length_numba_write row js new ctr :
  length (numba_write row js new ctr) = length row.
Proof.
  revert row ctr. induction js as [|j js IH]; intros row ctr; simpl; [done|].
  by rewrite IH, length_insert.
Qed.

Lemma Forall_numba_write (Q : Z → Prop) row js new ctr :
  ctr + length js ≤ length new →
  Forall Q row → Forall Q new → Forall Q (numba_write row js new ctr).
Proof.
  revert row ctr. induction js as [|j js IH]; intros row ctr Hlen Hrow Hnew;
    simpl in *; [done|].
  apply IH; [lia| |done]. apply Forall_insert; [done|].
  destruct (lookup_lt_is_Some_2 new ctr) as [v Hv]; [lia|].
  rewrite (nth_lookup_Some _ _ _ _ Hv). by eapply Forall_lookup_1.
Qed.

Lemma numba_write_lookup_other row js new ctr j :
  j ∉ js → numba_write row js new ctr !! j = row !! j.
Proof.
  revert row ctr. induction js as [|j0 js IH]; intros row ctr Hj; [done|].
  apply not_elem_of_cons in Hj as [Hne Hj]. simpl.
  rewrite IH by done. by apply list_lookup_insert_ne.
Qed.

Lemma length_view rows cols flat : length (view rows cols flat) = rows.
Proof.
  revert flat. induction rows as [|r IH]; intros flat; simpl; [done|].
  by rewrite IH.
Qed.

Lemma Forall_view (Q : Z → Prop) rows cols flat :
  Forall Q flat → Forall (Forall Q) (view rows cols flat).
Proof.
  revert flat. induction rows as [|r IH]; intros flat H; simpl; constructor.
  - by apply Forall_take.
  - by apply IH, Forall_drop.
Qed.

Lemma view_row_length rows cols flat :
  rows * cols ≤ length flat →
  Forall (λ row, length row = cols) (view rows cols flat).
Proof.
  revert flat. induction rows as [|r IH]; intros flat H; simpl; constructor.
  - rewrite length_take. lia.
  - apply IH. rewrite length_drop. lia.
Qed.

Lemma concat_view_1 cols flat :
  length flat = cols → concat (view 1 cols flat) = flat.
Proof.
  intros H. simpl. rewrite app_nil_r. apply take_ge. lia.
Qed.

Lemma view_0_cols rows flat : view rows 0 flat = replicate rows [].
Proof.
  revert flat. induction rows as [|r IH]; intros flat; simpl; [done|].
  by rewrite take_0, drop_0, IH.
Qed.

(** ** Properties of the resample loop over a stream *)

Section StreamLoop.
Variable g : generator.
Variable dec : Z → Z.
Variable write : list Z → list nat → list Z → list nat → list Z.
Variable positives : list Z.
Variable resample_idx : list nat.
Variable num_new : nat.

Local Abbreviation loop := (stream_loop g dec write positives resample_idx num_new).
Local Abbreviation drawn := (candidates g dec).
Local Abbreviation taken := (accepted g dec positives).
Local Abbreviation fair_tape := (fair g dec positives).

Lemma stream_loop_done fuel row nf w : loop fuel row nf 0 w = Ret row w.
Proof. by destruct fuel. Qed.

Lemma stream_loop_0 row nf nr w : nr ≠ 0 → loop 0 row nf nr w = Diverge.
Proof. intros H. simpl. by destruct nr. Qed.

Lemma stream_loop_S fuel row nf nr w c :
  nr ≠ 0 →
  loop (S fuel) row nf nr (set_consumed g c w) =
    if length (taken w c nr) =? 0
    then loop fuel row nf nr (set_consumed g (c + nr) w)
    else loop fuel
           (write row (slice resample_idx nf (length (taken w c nr)))
              (drawn w c nr) (taken w c nr))
           (nf + length (taken w c nr))
           (num_new - (nf + length (taken w c nr)))
           (set_consumed g (c + nr) w).
Proof.
  intros H. simpl. destruct nr as [|nr']; [done|].
  change (S nr' =? 0) with false. cbv iota.
  rewrite bind_unfold. unfold draw_from.
  rewrite cells_tape_values, consumed_set_consumed, set_consumed_set_consumed,
    tape_values_set_consumed.
  unfold accepted, candidates. by destruct (_ =? 0).
Qed.

Lemma length_accepted_le w c r : length (taken w c r) ≤ r.
Proof.
  unfold accepted, candidates.
  etrans; [apply length_where_in_le|]. by rewrite length_tape_values.
Qed.

(** No candidate of a block is accepted exactly if the whole block is positive. *)
Lemma accepted_none w c r :
  length (taken w c r) = 0 ↔
  ∀ k, c ≤ k < c + r → dec (entropy (rng_of g w) k) ∈ positives.
Proof.
  unfold accepted, candidates, tape_values.
  rewrite where_in_not_in_nil, Forall_fmap, Forall_forall.
  split.
  - intros H k Hk. apply (H k). apply elem_of_seq. lia.
  - intros H k Hk%elem_of_seq. apply H. lia.
Qed.

(** *** Invariants of the loop *)

Section Invariant.
Variable w : World.
Variable I : list Z → nat → nat → Prop.
Hypothesis I_step : ∀ row nf c,
  I row nf c → nf < num_new →
  let r := num_new - nf in
  let a := length (taken w c r) in
  if a =? 0 then I row nf (c + r)
  else I (write row (slice resample_idx nf a) (drawn w c r) (taken w c r))
         (nf + a) (c + r).

Lemma stream_loop_invariant fuel row nf c row' w' :
  nf ≤ num_new → I row nf c →
  loop fuel row nf (num_new - nf) (set_consumed g c w) = Ret row' w' →
  ∃ c', c ≤ c' ∧ w' = set_consumed g c' w ∧ I row' num_new c'.
Proof.
  revert row nf c. induction fuel as [|fuel IH]; intros row nf c Hnf HI Hrun.
  - destruct (decide (num_new - nf = 0)) as [Hz|Hz].
    + rewrite Hz, stream_loop_done in Hrun. injection Hrun as <- <-.
      exists c. replace num_new with nf by lia. done.
    + by rewrite stream_loop_0 in Hrun.
  - destruct (decide (num_new - nf = 0)) as [Hz|Hz].
    + rewrite Hz, stream_loop_done in Hrun. injection Hrun as <- <-.
      exists c. replace num_new with nf by lia. done.
    + rewrite stream_loop_S in Hrun by done.
      specialize (I_step row nf c HI ltac:(lia)). simpl in I_step.
      pose proof (length_accepted_le w c (num_new - nf)) as Hle.
      destruct (length (taken w c (num_new - nf)) =? 0) eqn:Ha.
      * apply IH in Hrun as (c' & Hc' & -> & HI'); [|done..].
        exists c'. split; [lia|done].
      * apply IH in Hrun as (c' & Hc' & -> & HI'); [|lia|done].
        exists c'. split; [lia|done].
Qed.
End Invariant.

(** The loop raises no exception. *)
Lemma stream_loop_no_raise fuel row nf nr w e w' :
  loop fuel row nf nr w ≠ Raise e w'.
Proof.
  revert row nf nr w. induction fuel as [|fuel IH]; intros row nf nr w.
  - simpl. by destruct nr.
  - destruct (decide (nr = 0)) as [->|Hz]; [by rewrite stream_loop_done|].
    rewrite <- (set_consumed_id g w), stream_loop_S by done.
    destruct (_ =? 0); apply IH.
Qed.

(** More fuel does not change a result. *)
Lemma stream_loop_fuel_mono fuel fuel' row nf nr w row' w' :
  fuel ≤ fuel' →
  loop fuel row nf nr w = Ret row' w' →
  loop fuel' row nf nr w = Ret row' w'.
Proof.
  revert fuel' row nf nr w.
  induction fuel as [|fuel IH]; intros fuel' row nf nr w Hle Hrun.
  - destruct (decide (nr = 0)) as [->|Hz].
    + by rewrite stream_loop_done in *.
    + by rewrite stream_loop_0 in Hrun.
  - destruct (decide (nr = 0)) as [->|Hz]; [by rewrite stream_loop_done in *|].
    destruct fuel' as [|fuel']; [lia|].
    rewrite <- (set_consumed_id g w) in *. rewrite stream_loop_S in * by done.
    destruct (_ =? 0); apply IH; (lia || done).
Qed.

(** *** Termination on a fair tape *)

Lemma stream_loop_terminates w row nf c :
  fair_tape w → nf ≤ num_new →
  ∃ fuel row' w',
    loop fuel row nf (num_new - nf) (set_consumed g c w) = Ret row' w'.
Proof.
  intros Hfair.
  remember (num_new - nf) as r eqn:Hr. revert row nf c Hr.
  induction r as [r IHr] using lt_wf_ind. intros row nf c Hr Hnf.
  destruct (decide (r = 0)) as [->|Hz].
  { exists 0, row, (set_consumed g c w). apply stream_loop_done. }
  destruct (Hfair c) as (k & Hk & Hgood).
  remember (k - c) as d eqn:Hd. revert c k Hk Hgood Hd.
  induction d as [d IHd] using lt_wf_ind. intros c k Hk Hgood Hd.
  pose proof (length_accepted_le w c r) as Hle.
  destruct (length (taken w c r) =? 0) eqn:Ha.
  - apply Nat.eqb_eq in Ha.
    assert (c + r ≤ k) as Hk'.
    { destruct (decide (c + r ≤ k)); [done|]. exfalso. apply Hgood.
      apply (proj1 (accepted_none w c r) Ha). lia. }
    destruct (IHd (k - (c + r)) ltac:(lia) (c + r) k Hk' Hgood eq_refl)
      as (fuel & row' & w' & Hrun).
    exists (S fuel), row', w'.
    rewrite stream_loop_S by done. rewrite Ha. simpl. exact Hrun.
  - apply Nat.eqb_neq in Ha.
    set (a := length (taken w c r)) in *.
    destruct (IHr (num_new - (nf + a)) ltac:(lia)
                (write row (slice resample_idx nf a) (drawn w c r)
                   (taken w c r)) (nf + a) (c + r) eq_refl ltac:(lia))
      as (fuel & row' & w' & Hrun).
    exists (S fuel), row', w'.
    rewrite stream_loop_S by done. fold a.
    apply Nat.eqb_neq in Ha. rewrite Ha. exact Hrun.
Qed.

(** *** Divergence when every draw is a positive *)

Lemma stream_loop_diverges fuel row nf nr w :
  (∀ e, dec e ∈ positives) → nr ≠ 0 →
  loop fuel row nf nr w = Diverge.
Proof.
  intros Hall Hnr. revert w. induction fuel as [|fuel IH]; intros w.
  - by apply stream_loop_0.
  - rewrite <- (set_consumed_id g w), stream_loop_S by done.
    assert (length (taken w (consumed (rng_of g w)) nr) = 0) as ->.
    { apply accepted_none. intros k _. apply Hall. }
    apply IH.
Qed.

End StreamLoop.

(** ** The loops of the source as stream loops *)

Lemma _sample_spec self (positive_triples : list Triple) sl n w :
  can_sample self sl → (0 ≤ n)%Z →
  _sample self positive_triples sl n w =
    Ret (view (length positive_triples) (Z.to_nat n)
           (tape_values Torch (sample_value self sl) w (consumed (torch_rng w))
              (length positive_triples * Z.to_nat n)))
        (set_consumed Torch
           (consumed (torch_rng w) + length positive_triples * Z.to_nat n) w).
Proof.
  intros Hcan Hn. unfold _sample, can_sample, sample_value in *.
  destruct (class_of self).
  - unfold KgeUniformSampler_sample, torch_randint.
    destruct (Z.ltb_spec n 0); [lia|].
    destruct (Z.leb_spec (getitem (vocabulary_size self) sl) 0); [lia|].
    rewrite bind_unfold, torch_draw_eq. unfold draw_from.
    rewrite mret_unfold. f_equal. f_equal.
    apply (cells_tape_values Torch).
  - destruct Hcan as (J & q & Hms & HJ).
    unfold KgeFrequencySampler_sample. rewrite Hms.
    destruct (Z.eqb_spec n 0) as [->|Hn0].
    + rewrite mret_unfold. simpl Z.to_nat. rewrite Nat.mul_0_r, Nat.add_0_r.
      rewrite view_0_cols. f_equal.
      symmetry. apply (set_consumed_id Torch).
    + unfold _multinomial_alias_draw.
      destruct (Z.ltb_spec (Z.of_nat (length positive_triples) * n) 0); [lia|].
      destruct (Nat.eqb_spec (length J) 0); [done|].
      rewrite !bind_unfold, torch_draw_eq. unfold draw_from.
      rewrite mret_unfold.
      destruct (Z.ltb_spec n 0); [lia|].
      rewrite mret_unfold.
      replace (Z.to_nat (Z.of_nat (length positive_triples) * n))
        with (length positive_triples * Z.to_nat n) by lia.
      f_equal. f_equal. apply (cells_tape_values Torch).
Qed.

Lemma resample_loop_stream fuel self t sl positives resample_idx num_new
    row nf nr w :
  can_sample self sl →
  resample_loop fuel self t sl positives resample_idx num_new row nf nr w =
  stream_loop Torch (sample_value self sl) write_standard positives
    resample_idx num_new fuel row nf nr w.
Proof.
  intros Hcan. revert row nf nr w.
  induction fuel as [|fuel IH]; intros row nf nr w; [reflexivity|].
  destruct nr as [|nr']; [reflexivity|].
  rewrite <- (set_consumed_id Torch w) at 2.
  rewrite stream_loop_S by done.
  simpl resample_loop. rewrite bind_unfold.
  rewrite _sample_spec by (done || lia).
  rewrite Nat2Z.id. simpl length. rewrite !Nat.mul_1_l.
  rewrite concat_view_1 by apply length_tape_values.
  unfold accepted, candidates. simpl rng_of.
  destruct (_ =? 0); apply IH.
Qed.

Lemma numba_loop_stream fuel voc_size positives resample_idx num_new
    row nf nr w :
  (0 < voc_size)%Z →
  numba_loop fuel voc_size positives resample_idx num_new row nf nr w =
  stream_loop Numba (numpy_value voc_size) write_numba positives
    resample_idx num_new fuel row nf nr w.
Proof.
  intros Hvoc. revert row nf nr w.
  induction fuel as [|fuel IH]; intros row nf nr w; [reflexivity|].
  destruct nr as [|nr']; [reflexivity|].
  rewrite <- (set_consumed_id Numba w) at 2.
  rewrite stream_loop_S by done.
  simpl numba_loop. rewrite bind_unfold. unfold numpy_randint.
  destruct (Z.leb_spec voc_size 0); [lia|].
  rewrite bind_unfold, numba_draw_eq. unfold draw_from. rewrite mret_unfold.
  rewrite (cells_tape_values Numba (numpy_value voc_size)).
  unfold accepted, candidates. simpl rng_of.
  destruct (_ =? 0); apply IH.
Qed.

(** ** One row of the filter *)

Lemma Forall_tape_values (Q : Z → Prop) g dec w c len :
  (∀ e, Q (dec e)) → Forall Q (tape_values g dec w c len).
Proof. intros H. unfold tape_values. apply Forall_fmap, Forall_true. intros k. apply H. Qed.

Lemma length_slice_le {A} (l : list A) a k : length (slice l a k) ≤ k.
Proof. unfold slice. rewrite length_take. lia. Qed.

Lemma slice_subseteq {A} (l : list A) a k : slice l a k ⊆ l.
Proof. unfold slice. etrans; [apply subseteq_take|apply subseteq_drop]. Qed.

Lemma NoDup_slice {A} (l : list A) a k : NoDup l → NoDup (slice l a k).
Proof.
  intros H. unfold slice.
  eapply sublist_NoDup; [|apply sublist_take].
  eapply sublist_NoDup; [done|apply sublist_drop].
Qed.

Lemma take_slice_disjoint {A} (l : list A) a k x :
  NoDup l → x ∈ take a l → x ∉ slice l a k.
Proof.
  intros Hnd Hx Hs. rewrite <- (take_drop a l) in Hnd.
  apply NoDup_app in Hnd as (_ & Hdis & _).
  apply (Hdis x Hx). unfold slice in Hs. by eapply subseteq_take.
Qed.

Lemma write_standard_ok positives : writer_ok positives write_standard.
Proof.
  split.
  - intros. apply length_index_put.
  - intros Q row js new _ Hrow Hnew. apply Forall_index_put; [done|].
    apply Forall_gather; [done|]. apply where_in_lt.
Qed.

Lemma write_numba_ok positives : writer_ok positives write_numba.
Proof.
  split.
  - intros. apply length_numba_write.
  - intros Q row js new Hjs Hrow Hnew. apply Forall_numba_write; [|done..].
    pose proof (length_where_in_le new positives true). lia.
Qed.

(** Length and range of a row are kept by the loop of any writer. *)
Lemma stream_loop_length_range g dec write positives resample_idx num_new
    (Q : Z → Prop) fuel row nf c w row' w' :
  writer_ok positives write → (∀ e, Q (dec e)) → Forall Q row →
  nf ≤ num_new →
  stream_loop g dec write positives resample_idx num_new fuel row nf
    (num_new - nf) (set_consumed g c w) = Ret row' w' →
  ∃ c', c ≤ c' ∧ w' = set_consumed g c' w ∧
        length row' = length row ∧ Forall Q row'.
Proof.
  intros [Hlen HQ] Hdec Hrow Hnf Hrun.
  eapply (stream_loop_invariant g dec write positives resample_idx num_new w
            (λ r _ _, length r = length row ∧ Forall Q r)) in Hrun;
    [exact Hrun| |done|done].
  intros r nf' c' [Hl Hr] Hlt. simpl.
  destruct (_ =? 0); [done|].
  split; [by rewrite Hlen|].
  apply HQ; [apply length_slice_le|done|]. by apply Forall_tape_values.
Qed.

Lemma stream_loop_standard g dec positives fuel row c w row' w' :
  let resample_idx := where_in row positives false in
  stream_loop g dec write_standard positives resample_idx (length resample_idx)
    fuel row 0 (length resample_idx - 0) (set_consumed g c w) = Ret row' w' →
  ∃ c', w' = set_consumed g c' w ∧ row_resampled g dec w positives row row' c c'.
Proof.
  intros ridx Hrun.
  pose proof (NoDup_where_in row positives false) as Hnd.
  pose proof (where_in_lt row positives false) as Hlt.
  fold ridx in Hnd, Hlt.
  eapply (stream_loop_invariant g dec write_standard positives ridx (length ridx) w
            (λ r nf cur,
               c ≤ cur ∧ length r = length row ∧
               (∀ j, j ∉ ridx → r !! j = row !! j) ∧
               gather r (take nf ridx) =
                 filter (λ v, v ∉ positives) (tape_values g dec w c (cur - c))))
    in Hrun.
  - destruct Hrun as (c' & Hc & -> & _ & Hlen & Hother & Hacc).
    exists c'. split; [done|]. split; [done|]. split; [done|]. split.
    + intros j v Hj Hv. rewrite Hother; [done|].
      intros (u & Hu & Hb)%elem_of_where_in.
      rewrite Hj in Hu. injection Hu as <-.
      rewrite bool_decide_eq_false_2 in Hb by done. discriminate.
    + by rewrite take_ge in Hacc by done.
  - intros r nf cur (Hc & Hlen & Hother & Hacc) Hnf. simpl.
    set (new := candidates g dec w cur (length ridx - nf)).
    set (tn := accepted g dec positives w cur (length ridx - nf)).
    pose proof (length_accepted_le g dec positives w cur (length ridx - nf)) as Hle.
    fold tn in Hle.
    replace (cur + (length ridx - nf) - c)
      with ((cur - c) + (length ridx - nf)) by lia.
    rewrite tape_values_app, filter_app.
    replace (c + (cur - c)) with cur by lia.
    change (tape_values g dec w cur (length ridx - nf)) with new.
    assert (filter (λ v, v ∉ positives) new = gather new tn) as Hfilter.
    { symmetry. apply gather_where_in_not_in. }
    destruct (length tn =? 0) eqn:Ha.
    + apply Nat.eqb_eq in Ha.
      split; [lia|]. split; [done|]. split; [done|].
      rewrite Hfilter. unfold gather at 2.
      apply nil_length_inv in Ha. rewrite Ha. simpl. by rewrite app_nil_r.
    + split; [lia|]. unfold write_standard.
      split; [by rewrite length_index_put|]. split.
      * intros j Hj. rewrite index_put_lookup_other; [by apply Hother|].
        intros Hs. apply Hj. by eapply slice_subseteq.
      * rewrite slice_take_app. unfold gather at 1. rewrite map_app.
        fold (gather (index_put r (slice ridx nf (length tn)) (gather new tn))
                (take nf ridx)).
        fold (gather (index_put r (slice ridx nf (length tn)) (gather new tn))
                (slice ridx nf (length tn))).
        rewrite gather_index_put_other
          by (intros j Hj; by apply take_slice_disjoint).
        rewrite Hacc. f_equal.
        rewrite Hfilter. apply gather_index_put.
        -- by apply NoDup_slice.
        -- rewrite length_gather. apply length_slice. lia.
        -- rewrite Hlen. eapply Forall_forall. intros j Hj.
           eapply Forall_forall in Hlt; [exact Hlt|]. by eapply slice_subseteq.
  - lia.
  - split; [lia|]. split; [done|]. split; [done|].
    rewrite take_0, Nat.sub_diag. reflexivity.
Qed.

(** No entry of a resampled row is a positive. *)
Lemma row_resampled_no_collision g dec w positives row row' c c' :
  row_resampled g dec w positives row row' c c' →
  Forall (λ v, v ∉ positives) row'.
Proof.
  intros (_ & Hlen & Hkeep & Hacc).
  apply Forall_lookup_2. intros j v' Hj.
  assert (j < length row) as Hjlt.
  { rewrite <- Hlen. by eapply lookup_lt_Some. }
  destruct (lookup_lt_is_Some_2 row j Hjlt) as [v Hv].
  destruct (decide (v ∈ positives)) as [Hin|Hout].
  - assert (j ∈ where_in row positives false) as Hidx.
    { apply elem_of_where_in. exists v. split; [done|].
      by rewrite bool_decide_eq_true_2. }
    assert (v' ∈ gather row' (where_in row positives false)) as Hg.
    { unfold gather. apply list_elem_of_fmap. exists j. split; [|done].
      by rewrite (nth_lookup_Some _ _ _ _ Hj). }
    rewrite Hacc in Hg. by apply list_elem_of_filter in Hg as [? _].
  - rewrite (Hkeep j v Hv Hout) in Hj. by injection Hj as <-.
Qed.

(** The range of the drawn values carries over to a resampled row. *)
Lemma row_resampled_range (Q : Z → Prop) g dec w positives row row' c c' :
  (∀ e, Q (dec e)) → Forall Q row →
  row_resampled g dec w positives row row' c c' → Forall Q row'.
Proof.
  intros Hdec Hrow (_ & Hlen & Hkeep & Hacc).
  apply Forall_lookup_2. intros j v' Hj.
  assert (j < length row) as Hjlt.
  { rewrite <- Hlen. by eapply lookup_lt_Some. }
  destruct (lookup_lt_is_Some_2 row j Hjlt) as [v Hv].
  destruct (decide (v ∈ positives)) as [Hin|Hout].
  - assert (j ∈ where_in row positives false) as Hidx.
    { apply elem_of_where_in. exists v. split; [done|].
      by rewrite bool_decide_eq_true_2. }
    assert (v' ∈ gather row' (where_in row positives false)) as Hg.
    { unfold gather. apply list_elem_of_fmap. exists j. split; [|done].
      by rewrite (nth_lookup_Some _ _ _ _ Hj). }
    rewrite Hacc in Hg. apply list_elem_of_filter in Hg as [_ Hg].
    eapply Forall_forall in Hg; [exact Hg|]. by apply Forall_tape_values.
  - rewrite (Hkeep j v Hv Hout) in Hj. injection Hj as <-.
    by eapply Forall_lookup_1.
Qed.

(** ** The whole batch, standard filter *)

Lemma filter_row_stream fuel self sl idx t row w :
  can_sample self sl →
  filter_row fuel self sl idx t row w =
  stream_loop Torch (sample_value self sl) write_standard (idx (pair_of sl t))
    (where_in row (idx (pair_of sl t)) false)
    (length (where_in row (idx (pair_of sl t)) false))
    fuel row 0 (length (where_in row (idx (pair_of sl t)) false) - 0) w.
Proof. intros H. unfold filter_row. by rewrite resample_loop_stream. Qed.

Lemma filter_rows_spec fuel self sl idx triples i m c w m' w' :
  can_sample self sl →
  filter_rows fuel self sl idx triples i m (set_consumed Torch c w) = Ret m' w' →
  ∃ cs c',
    w' = set_consumed Torch c' w ∧
    length cs = S (length triples) ∧
    cs !! 0 = Some c ∧ cs !! length triples = Some c' ∧
    length m' = length m ∧
    (∀ j, j < i → m' !! j = m !! j) ∧
    (∀ j, i + length triples ≤ j → m' !! j = m !! j) ∧
    rows_resampled (sample_value self sl) w (λ t, idx (pair_of sl t))
      triples i m m' cs.
Proof.
  intros Hcan. revert i m c m' w'.
  induction triples as [|t rest IH]; intros i m c m' w' Hrun.
  - simpl in Hrun. injection Hrun as <- <-.
    exists [c], c. repeat split; done.
  - cbn [filter_rows] in Hrun.
    destruct (m !! i) as [row|] eqn:Hrow; [|discriminate].
    rewrite bind_unfold in Hrun.
    destruct (filter_row fuel self sl idx t row (set_consumed Torch c w))
      as [row1 w1| |] eqn:Hr; try discriminate.
    rewrite filter_row_stream in Hr by done.
    apply stream_loop_standard in Hr as (c1 & -> & Hres).
    apply IH in Hrun
      as (cs & c' & -> & Hlen & Hcs0 & Hcsn & Hlm & Hbefore & Hafter & Hrows).
    assert (i < length m) as Hi by (by eapply lookup_lt_Some).
    exists (c :: cs), c'. split; [done|]. split; [simpl; lia|].
    split; [done|]. split; [done|].
    split; [by rewrite Hlm, length_insert|].
    split; [|split].
    + intros j Hj. rewrite Hbefore by lia. apply list_lookup_insert_ne. lia.
    + intros j Hj. simpl in Hj. rewrite Hafter by lia.
      apply list_lookup_insert_ne. lia.
    + intros k t' row0 Hk Hrow0. destruct k as [|k'].
      * simpl in Hk. injection Hk as <-.
        rewrite Nat.add_0_r in *. rewrite Hrow in Hrow0. injection Hrow0 as <-.
        exists row1, c, c1. split; [|done].
        rewrite Hbefore by lia. by apply list_lookup_insert_eq.
      * simpl in Hk.
        destruct (Hrows k' t' row0 Hk) as (row' & ck & ck' & H1 & H2 & H3 & H4).
        { rewrite list_lookup_insert_ne by lia. rewrite <- Hrow0. f_equal. lia. }
        exists row', ck, ck'. split; [|done].
        rewrite <- H1. f_equal. lia.
Qed.

(** ** The whole batch, fast filter *)

Lemma fill_positives_index_lookup (idx : Z * Z → list Z) (pairs : list (Z * Z))
    (d : gmap (Z * Z) (list Z)) (pr : Z * Z) :
  fill_positives_index idx pairs d !! pr =
    if decide (pr ∈ pairs) then Some (idx pr) else d !! pr.
Proof.
  revert d. induction pairs as [|p rest IH]; intros d; cbn [fill_positives_index].
  - destruct (decide (pr ∈ [])) as [H|H]; [by apply elem_of_nil in H|done].
  - rewrite IH.
    destruct (decide (pr ∈ rest)) as [Hin|Hout],
             (decide (pr ∈ p :: rest)) as [Hin'|Hout']; try done.
    + exfalso. apply Hout'. by right.
    + apply elem_of_cons in Hin' as [->|?]; [|done].
      by rewrite lookup_insert_eq.
    + apply lookup_insert_ne. intros ->. apply Hout'. by left.
Qed.

Lemma numba_row_stream fuel voc_size positives row w :
  (0 < voc_size)%Z →
  numba_row fuel voc_size positives row w =
  stream_loop Numba (numpy_value voc_size) write_numba positives
    (where_in row positives false) (length (where_in row positives false))
    fuel row 0 (length (where_in row positives false) - 0) w.
Proof. intros H. unfold numba_row. by rewrite numba_loop_stream. Qed.

(** The kernel keeps the shape of the matrix and, for a property [Q] of
    all values [np.random.randint] can yield, the property [Q] of its rows. *)
Lemma numba_rows_spec (Q : Z → Prop) fuel pairs pindex voc_size todo i m c w m' w' :
  (0 < voc_size)%Z → (∀ e, Q (numpy_value voc_size e)) →
  numba_rows fuel pairs pindex voc_size todo i m (set_consumed Numba c w)
    = Ret m' w' →
  ∃ c', c ≤ c' ∧ w' = set_consumed Numba c' w ∧
    Forall2 (λ row row', length row' = length row ∧ (Forall Q row → Forall Q row'))
      m m'.
Proof.
  intros Hvoc HQ. revert i m c m' w'.
  induction todo as [|todo IH]; intros i m c m' w' Hrun.
  - simpl in Hrun. injection Hrun as <- <-. exists c. split; [done|].
    split; [done|]. apply Forall_Forall2_diag, Forall_true. by intros row.
  - cbn [numba_rows] in Hrun.
    destruct (pairs !! i) as [pr|]; [|discriminate].
    destruct (pindex !! pr) as [positives|]; [|discriminate].
    destruct (m !! i) as [row|] eqn:Hrow; [|discriminate].
    rewrite bind_unfold in Hrun.
    destruct (numba_row fuel voc_size positives row (set_consumed Numba c w))
      as [row1 w1| |] eqn:Hr; try discriminate.
    rewrite numba_row_stream in Hr by done.
    assert (∃ c1, c ≤ c1 ∧ w1 = set_consumed Numba c1 w ∧
                  length row1 = length row ∧ (Forall Q row → Forall Q row1))
      as (c1 & Hc1 & -> & Hl1 & HQ1).
    { pose proof Hr as Hr'.
      apply (stream_loop_length_range _ _ _ _ _ _ (λ _, True)) in Hr
        as (c1 & Hc1 & -> & Hl1 & _);
        [|apply write_numba_ok|done|by apply Forall_true|lia].
      exists c1. split; [done|]. split; [done|]. split; [done|].
      intros HrowQ.
      apply (stream_loop_length_range _ _ _ _ _ _ Q) in Hr'
        as (? & _ & _ & _ & ?); [done|apply write_numba_ok|done|done|lia]. }
    apply IH in Hrun as (c' & Hc' & -> & Hall).
    exists c'. split; [lia|]. split; [done|].
    rewrite <- (list_insert_id m i row Hrow).
    eapply Forall2_trans; [| |exact Hall].
    + instantiate (1 := λ r r', length r' = length r ∧ (Forall Q r → Forall Q r')).
      intros r1 r2 r3 [? ?] [? ?]. split; [congruence|tauto].
    + apply Forall2_insert; [|done].
      apply Forall_Forall2_diag, Forall_true. by intros r.
Qed.

(** ** Index requests and generators *)

Lemma dataset_index_spec ds name w :
  dataset_index ds name w = Ret (index ds name) (log_requests w [name]).
Proof. reflexivity. Qed.

Lemma rng_of_log_requests g w names : rng_of g (log_requests w names) = rng_of g w.
Proof. by destruct g. Qed.

Lemma set_consumed_log_requests g c w names :
  set_consumed g c (log_requests w names) = log_requests (set_consumed g c w) names.
Proof. by destruct g. Qed.

Lemma tape_values_log_requests g dec w names c len :
  tape_values g dec (log_requests w names) c len = tape_values g dec w c len.
Proof. unfold tape_values. by rewrite rng_of_log_requests. Qed.

Lemma row_resampled_log_requests g dec w names positives row row' c c' :
  row_resampled g dec (log_requests w names) positives row row' c c' ↔
  row_resampled g dec w positives row row' c c'.
Proof. unfold row_resampled. by rewrite tape_values_log_requests. Qed.

Lemma fair_log_requests g dec positives w names :
  fair g dec positives (log_requests w names) ↔ fair g dec positives w.
Proof. unfold fair. by rewrite rng_of_log_requests. Qed.

Lemma fair_set_consumed g g' dec positives c w :
  fair g dec positives (set_consumed g' c w) ↔ fair g dec positives w.
Proof. unfold fair. by rewrite entropy_set_consumed. Qed.

(** ** The standard filter on a batch *)

Lemma _filter_and_resample_spec fuel self m sl triples w m' w' :
  can_sample self sl →
  _filter_and_resample fuel self m sl triples w = Ret m' w' →
  ∃ cs c',
    w' = set_consumed Torch c'
           (log_requests w [index_name (filtering_split self) sl]) ∧
    length cs = S (length triples) ∧
    cs !! 0 = Some (consumed (torch_rng w)) ∧ cs !! length triples = Some c' ∧
    length m' = length m ∧
    (∀ j, length triples ≤ j → m' !! j = m !! j) ∧
    rows_resampled (sample_value self sl) w (positives_of self sl) triples 0 m m' cs.
Proof.
  intros Hcan Hrun. unfold _filter_and_resample in Hrun.
  rewrite bind_unfold, dataset_index_spec in Hrun.
  rewrite <- (set_consumed_id Torch (log_requests _ _)) in Hrun.
  apply filter_rows_spec in Hrun
    as (cs & c' & -> & Hlen & Hcs0 & Hcsn & Hlm & _ & Hafter & Hrows); [|done].
  exists cs, c'. repeat split; done.
Qed.

(** *** Termination of the batch on fair tapes *)

(** The row loop on a fair tape returns for all large enough fuels. *)
Lemma stream_loop_total g dec write positives resample_idx row c w :
  writer_ok positives write → fair g dec positives w →
  ∃ fuel0 row' c',
    length row' = length row ∧
    ∀ fuel, fuel0 ≤ fuel →
      stream_loop g dec write positives resample_idx (length resample_idx)
        fuel row 0 (length resample_idx - 0) (set_consumed g c w)
      = Ret row' (set_consumed g c' w).
Proof.
  intros Hw Hfair.
  destruct (stream_loop_terminates g dec write positives resample_idx
              (length resample_idx) w row 0 c Hfair ltac:(lia))
    as (fuel0 & row' & w' & Hrun).
  pose proof Hrun as Hrun'.
  apply (stream_loop_length_range _ _ _ _ _ _ (λ _, True)) in Hrun'
    as (c' & _ & -> & Hlen & _); [|done|done|by apply Forall_true|lia].
  exists fuel0, row', c'. split; [done|].
  intros fuel Hfuel. by eapply stream_loop_fuel_mono.
Qed.

Lemma filter_rows_total self sl idx triples i m c w :
  can_sample self sl →
  i + length triples ≤ length m →
  (∀ t, t ∈ triples → fair Torch (sample_value self sl) (idx (pair_of sl t)) w) →
  ∃ fuel0 m' c',
    ∀ fuel, fuel0 ≤ fuel →
      filter_rows fuel self sl idx triples i m (set_consumed Torch c w)
      = Ret m' (set_consumed Torch c' w).
Proof.
  intros Hcan. revert i m c.
  induction triples as [|t rest IH]; intros i m c Hlen Hfair.
  - exists 0, m, c. by intros fuel _.
  - simpl in Hlen.
    destruct (lookup_lt_is_Some_2 m i ltac:(lia)) as [row Hrow].
    destruct (stream_loop_total Torch (sample_value self sl) write_standard
                (idx (pair_of sl t)) (where_in row (idx (pair_of sl t)) false)
                row c w (write_standard_ok _))
      as (fuel1 & row1 & c1 & Hl1 & Hrun1).
    { apply Hfair. by left. }
    destruct (IH (S i) (<[i := row1]> m) c1) as (fuel2 & m' & c' & Hrun2).
    { rewrite length_insert. lia. }
    { intros t' Ht'. apply Hfair. by right. }
    exists (fuel1 `max` fuel2), m', c'. intros fuel Hfuel.
    cbn [filter_rows]. rewrite Hrow, bind_unfold.
    rewrite filter_row_stream by done.
    rewrite Hrun1 by lia. apply Hrun2. lia.
Qed.

Lemma numba_rows_total (pairs : list (Z * Z)) (pindex : gmap (Z * Z) (list Z))
    (idx : Z * Z → list Z) voc_size todo i (m : Matrix) c w :
  (0 < voc_size)%Z →
  i + todo ≤ length m → i + todo ≤ length pairs →
  (∀ pr, pr ∈ pairs → pindex !! pr = Some (idx pr)) →
  (∀ pr, pr ∈ pairs → fair Numba (numpy_value voc_size) (idx pr) w) →
  ∃ fuel0 m' c',
    ∀ fuel, fuel0 ≤ fuel →
      numba_rows fuel pairs pindex voc_size todo i m (set_consumed Numba c w)
      = Ret m' (set_consumed Numba c' w).
Proof.
  intros Hvoc. revert i m c.
  induction todo as [|todo IH]; intros i m c Hlm Hlp Hidx Hfair.
  - exists 0, m, c. by intros fuel _.
  - destruct (lookup_lt_is_Some_2 m i ltac:(lia)) as [row Hrow].
    destruct (lookup_lt_is_Some_2 pairs i ltac:(lia)) as [pr Hpr].
    assert (pr ∈ pairs) as Hin by (by eapply list_elem_of_lookup_2).
    destruct (stream_loop_total Numba (numpy_value voc_size) write_numba
                (idx pr) (where_in row (idx pr) false)
                row c w (write_numba_ok _) (Hfair pr Hin))
      as (fuel1 & row1 & c1 & Hl1 & Hrun1).
    destruct (IH (S i) (<[i := row1]> m) c1) as (fuel2 & m' & c' & Hrun2);
      [rewrite length_insert; lia|lia|done|done|].
    exists (fuel1 `max` fuel2), m', c'. intros fuel Hfuel.
    cbn [numba_rows]. rewrite Hpr, (Hidx pr Hin), Hrow, bind_unfold.
    rewrite numba_row_stream by done.
    rewrite Hrun1 by lia. apply Hrun2. lia.
Qed.

(** ** Invariant of a constructed sampler *)

Lemma invariant_can_sample self sl : sampler_invariant self → can_sample self sl.
Proof.
  intros [Hvoc Htab _ _ _]. unfold can_sample, tables_ok in *.
  destruct (class_of self); [apply Hvoc|].
  destruct (Htab sl) as (J & q & HJ & Hlen & _).
  exists J, q. split; [done|]. specialize (Hvoc sl). lia.
Qed.

Lemma sample_value_in_vocabulary self sl e :
  sampler_invariant self → in_vocabulary self sl (sample_value self sl e).
Proof.
  intros [Hvoc Htab _ _ _]. specialize (Hvoc sl).
  unfold sample_value, tables_ok, in_vocabulary in *.
  destruct (class_of self).
  - by apply Z.mod_pos_bound.
  - destruct (Htab sl) as (J & q & -> & Hlen & HJ).
    unfold alias_decode. rewrite Hlen.
    pose proof (Z.mod_pos_bound e _ Hvoc) as Hi.
    destruct (Qle_bool _ _); [|done].
    assert (Z.to_nat (e mod getitem (vocabulary_size self) sl) < length J)
      as Hlt by lia.
    destruct (lookup_lt_is_Some_2 J _ Hlt) as [j Hj].
    rewrite (nth_lookup_Some _ _ _ _ Hj).
    by eapply (Forall_lookup_1 _ _ _ _ HJ).
Qed.

Lemma numpy_value_in_vocabulary self sl e :
  sampler_invariant self →
  in_vocabulary self sl (numpy_value (getitem (vocabulary_size self) sl) e).
Proof.
  intros [Hvoc _ _ _ _]. specialize (Hvoc sl).
  unfold numpy_value, in_vocabulary. rewrite Z.sub_0_r, Z.add_0_l.
  by apply Z.mod_pos_bound.
Qed.

Lemma invariant_set_filter_implementation self impl :
  impl ∈ valid_implementations →
  sampler_invariant self → sampler_invariant (set_filter_implementation self impl).
Proof.
  intros Himpl [H1 H2 H3 H4 H5]. split; try done.
  intros sl _. by exists impl.
Qed.

(** ** The two stages of [sample] *)

Lemma sample_stages fuel self positive_triples sl n :
  sample fuel self positive_triples sl n =
    (negative_samples ← draw_stage self positive_triples sl (requested self sl n);
     filter_stage fuel self negative_samples sl positive_triples).
Proof. reflexivity. Qed.

Lemma draw_stage_spec self (positive_triples : list Triple) sl n w :
  sampler_invariant self → (0 ≤ n)%Z →
  draw_stage self positive_triples sl n w =
    Ret (raw_matrix self (length positive_triples) sl (Z.to_nat n) w)
        (set_consumed Torch
           (consumed (torch_rng w)
            + raw_cells self (length positive_triples) (Z.to_nat n)) w).
Proof.
  intros Hinv Hn. unfold draw_stage, raw_matrix, raw_cells.
  pose proof (invariant_can_sample self sl Hinv) as Hcan.
  destruct (shared self).
  - unfold _sample_shared. rewrite !bind_unfold.
    rewrite _sample_spec by done. rewrite !mret_unfold.
    simpl length. rewrite Nat.mul_1_l.
    rewrite concat_view_1 by apply length_tape_values. reflexivity.
  - by rewrite _sample_spec.
Qed.

Lemma raw_matrix_shape self batch_size sl cols w :
  length (raw_matrix self batch_size sl cols w) = batch_size ∧
  Forall (λ row, length row = cols) (raw_matrix self batch_size sl cols w).
Proof.
  unfold raw_matrix. destruct (shared self).
  - split; [apply length_replicate|].
    apply Forall_replicate, length_tape_values.
  - split; [apply length_view|].
    apply view_row_length. by rewrite length_tape_values.
Qed.

Lemma raw_matrix_range self batch_size sl cols w :
  sampler_invariant self →
  Forall (Forall (in_vocabulary self sl)) (raw_matrix self batch_size sl cols w).
Proof.
  intros Hinv. unfold raw_matrix.
  assert (∀ c len, Forall (in_vocabulary self sl)
                     (tape_values Torch (sample_value self sl) w c len)) as H.
  { intros c len. apply Forall_tape_values.
    intros e. by apply sample_value_in_vocabulary. }
  destruct (shared self); [by apply Forall_replicate|by apply Forall_view].
Qed.

(** ** What both filters keep: shape and range *)


Lemma kept_range Q m m' :
  kept Q m m' → Forall (Forall Q) m → Forall (Forall Q) m'.
Proof.
  intros Hk Hm. apply Forall_lookup_2. intros i row' Hi.
  destruct (Forall2_lookup_r _ _ _ _ _ Hk Hi) as (row & Hrow & _ & HQ).
  apply HQ. by eapply (Forall_lookup_1 _ _ _ _ Hm).
Qed.

Lemma _filter_and_resample_kept (Q : Z → Prop) fuel self m sl triples w m' w' :
  can_sample self sl → (∀ e, Q (sample_value self sl e)) →
  _filter_and_resample fuel self m sl triples w = Ret m' w' →
  kept Q m m'.
Proof.
  intros Hcan HQ Hrun.
  apply _filter_and_resample_spec in Hrun
    as (cs & c' & _ & _ & _ & _ & Hlen & Hafter & Hrows); [|done].
  apply Forall2_same_length_lookup_2; [done|].
  intros i row row' Hrow Hrow'.
  destruct (decide (i < length triples)) as [Hi|Hi].
  - destruct (lookup_lt_is_Some_2 triples i Hi) as [t Ht].
    destruct (Hrows i t row Ht Hrow) as (row1 & c & c1 & H1 & _ & _ & Hres).
    simpl in H1. rewrite Hrow' in H1. injection H1 as <-.
    split; [apply Hres|]. intros HrowQ.
    by eapply row_resampled_range.
  - rewrite Hafter in Hrow' by lia. rewrite Hrow in Hrow'.
    by injection Hrow' as <-.
Qed.

Lemma untyped_fill_positives_index (idx : Z * Z → list Z) (pairs : list (Z * Z)) :
  untyped (fill_positives_index idx pairs ∅) = bool_decide (pairs = []).
Proof.
  unfold untyped. destruct pairs as [|pr rest]; [done|].
  rewrite (bool_decide_eq_false_2 (_ :: _ = [])) by done.
  apply bool_decide_eq_false_2. intros Hempty.
  pose proof (fill_positives_index_lookup idx (pr :: rest) ∅ pr) as Hl.
  rewrite Hempty, lookup_empty in Hl.
  destruct (decide (pr ∈ pr :: rest)) as [|Hn]; [done|].
  apply Hn. by left.
Qed.

(** The fast filter of the uniform sampler: the index is requested, an
    empty batch leaves the dictionary untyped and the call of the kernel
    raises, and otherwise the kernel runs over the rows. *)
Lemma KgeUniformSampler_fast_unfold fuel self (m : Matrix) sl triples w :
  KgeUniformSampler_filter_and_resample_fast fuel self m sl triples w =
    if bool_decide (triples = []) then
      Raise TypeError (log_requests w [index_name (filtering_split self) sl])
    else
      numba_rows fuel (map (pair_of sl) triples)
        (fill_positives_index
           (index (dataset self) (index_name (filtering_split self) sl))
           (map (pair_of sl) triples) ∅)
        (getitem (vocabulary_size self) sl) (length triples) 0 m
        (log_requests w [index_name (filtering_split self) sl]).
Proof.
  unfold KgeUniformSampler_filter_and_resample_fast.
  rewrite bind_unfold, dataset_index_spec, untyped_fill_positives_index.
  by destruct triples.
Qed.

Lemma KgeUniformSampler_fast_Ret_inv fuel self (m : Matrix) sl triples w m' w' :
  KgeUniformSampler_filter_and_resample_fast fuel self m sl triples w
    = Ret m' w' →
  triples ≠ [] ∧
  numba_rows fuel (map (pair_of sl) triples)
    (fill_positives_index
       (index (dataset self) (index_name (filtering_split self) sl))
       (map (pair_of sl) triples) ∅)
    (getitem (vocabulary_size self) sl) (length triples) 0 m
    (log_requests w [index_name (filtering_split self) sl]) = Ret m' w'.
Proof.
  rewrite KgeUniformSampler_fast_unfold. case_bool_decide; [discriminate|done].
Qed.

Lemma KgeUniformSampler_fast_nonempty fuel self (m : Matrix) sl triples w :
  triples ≠ [] →
  KgeUniformSampler_filter_and_resample_fast fuel self m sl triples w =
    numba_rows fuel (map (pair_of sl) triples)
      (fill_positives_index
         (index (dataset self) (index_name (filtering_split self) sl))
         (map (pair_of sl) triples) ∅)
      (getitem (vocabulary_size self) sl) (length triples) 0 m
      (log_requests w [index_name (filtering_split self) sl]).
Proof.
  intros Hne. rewrite KgeUniformSampler_fast_unfold.
  by rewrite bool_decide_eq_false_2.
Qed.

Lemma KgeUniformSampler_fast_spec (Q : Z → Prop) fuel self m sl triples w m' w' :
  (0 < getitem (vocabulary_size self) sl)%Z →
  (∀ e, Q (numpy_value (getitem (vocabulary_size self) sl) e)) →
  KgeUniformSampler_filter_and_resample_fast fuel self m sl triples w = Ret m' w' →
  (∃ c', consumed (numba_rng w) ≤ c' ∧
         w' = set_consumed Numba c'
                (log_requests w [index_name (filtering_split self) sl])) ∧
  kept Q m m'.
Proof.
  intros Hvoc HQ Hrun. apply KgeUniformSampler_fast_Ret_inv in Hrun as [_ Hrun].
  rewrite <- (set_consumed_id Numba (log_requests _ _)) in Hrun.
  apply (numba_rows_spec Q) in Hrun as (c' & Hc' & -> & Hall); [|done..].
  split; [|done]. exists c'. split; [exact Hc'|done].
Qed.

(** ** The filter stage *)

Lemma try_except_Ret_inv {A} (c h : M A) w a w' :
  try_except_NotImplementedError c h w = Ret a w' →
  c w = Ret a w' ∨ ∃ msg w1, c w = Raise (NotImplementedError msg) w1 ∧ h w1 = Ret a w'.
Proof.
  unfold try_except_NotImplementedError.
  destruct (c w) as [a0 w0|e w0|] eqn:Hc; [by left| |done].
  destruct e; try done. intros H. right. by eexists _, _.
Qed.

Lemma _filter_and_resample_fast_kept (Q : Z → Prop) fuel self m sl triples w m' w' :
  sampler_invariant self →
  (∀ e, Q (numpy_value (getitem (vocabulary_size self) sl) e)) →
  _filter_and_resample_fast fuel self m sl triples w = Ret m' w' →
  kept Q m m'.
Proof.
  intros Hinv HQ Hrun. unfold _filter_and_resample_fast in Hrun.
  destruct (class_of self); [|discriminate].
  eapply KgeUniformSampler_fast_spec in Hrun as [_ ?]; [done| |done].
  apply Hinv.
Qed.

Lemma filter_stage_kept (Q : Z → Prop) fuel self m sl triples w m' self' w' :
  sampler_invariant self →
  (∀ e, Q (sample_value self sl e)) →
  (∀ e, Q (numpy_value (getitem (vocabulary_size self) sl) e)) →
  filter_stage fuel self m sl triples w = Ret (m', self') w' →
  kept Q m m' ∧ resolved_from self self'.
Proof.
  intros Hinv HQ1 HQ2 Hrun. unfold filter_stage in Hrun.
  pose proof (invariant_can_sample self sl Hinv) as Hcan.
  destruct (getitem (filter_positives self) sl).
  2:{ injection Hrun as <- <- <-. split; [|by left].
      apply Forall_Forall2_diag, Forall_true. by intros row. }
  destruct (filter_implementation self) as [impl|] eqn:Himpl; [|discriminate].
  destruct (String.eqb_spec impl "fast") as [->|Hnf].
  { apply bind_Ret_inv in Hrun as (m1 & w1 & Hf & Hret).
    injection Hret as <- <- <-. split; [|by left].
    by eapply _filter_and_resample_fast_kept. }
  destruct (String.eqb_spec impl "standard") as [->|Hns].
  { apply bind_Ret_inv in Hrun as (m1 & w1 & Hf & Hret).
    injection Hret as <- <- <-. split; [|by left].
    by eapply _filter_and_resample_kept. }
  assert (filter_implementation self ≠ Some "fast" ∧
          filter_implementation self ≠ Some "standard") as [? ?].
  { rewrite Himpl. split; congruence. }
  apply try_except_Ret_inv in Hrun as [Hrun|(msg & w1 & _ & Hrun)];
    apply bind_Ret_inv in Hrun as (m1 & w2 & Hf & Hret);
    injection Hret as <- <- <-.
  - split; [by eapply _filter_and_resample_fast_kept|].
    right. split; [done|]. split; [done|]. by left.
  - split; [by eapply _filter_and_resample_kept|].
    right. split; [done|]. split; [done|]. by right.
Qed.

(** ** Termination of [sample] on fair tapes *)

Lemma _filter_and_resample_total self (m : Matrix) sl triples w :
  can_sample self sl → length triples ≤ length m →
  (∀ t, t ∈ triples →
     fair Torch (sample_value self sl) (positives_of self sl t) w) →
  ∃ fuel0 m' w', ∀ fuel, fuel0 ≤ fuel →
    _filter_and_resample fuel self m sl triples w = Ret m' w'.
Proof.
  intros Hcan Hlen Hfair.
  destruct (filter_rows_total self sl
              (index (dataset self) (index_name (filtering_split self) sl))
              triples 0 m (consumed (torch_rng w))
              (log_requests w [index_name (filtering_split self) sl]) Hcan)
    as (fuel0 & m' & c' & Hrun); [simpl; lia| |].
  { intros t Ht. apply fair_log_requests. by apply Hfair. }
  exists fuel0, m', (set_consumed Torch c'
                      (log_requests w [index_name (filtering_split self) sl])).
  intros fuel Hfuel. unfold _filter_and_resample.
  rewrite bind_unfold, dataset_index_spec.
  rewrite <- (set_consumed_id Torch (log_requests _ _)). by apply Hrun.
Qed.

Lemma KgeUniformSampler_fast_total self (m : Matrix) sl triples w :
  (0 < getitem (vocabulary_size self) sl)%Z → length triples ≤ length m →
  triples ≠ [] →
  (∀ t, t ∈ triples →
     fair Numba (numpy_value (getitem (vocabulary_size self) sl))
       (positives_of self sl t) w) →
  ∃ fuel0 m' w', ∀ fuel, fuel0 ≤ fuel →
    KgeUniformSampler_filter_and_resample_fast fuel self m sl triples w = Ret m' w'.
Proof.
  intros Hvoc Hlen Hne Hfair.
  set (idx := index (dataset self) (index_name (filtering_split self) sl)).
  set (pairs := map (pair_of sl) triples).
  set (w1 := log_requests w [index_name (filtering_split self) sl]).
  destruct (numba_rows_total pairs (fill_positives_index idx pairs ∅) idx
              (getitem (vocabulary_size self) sl) (length triples) 0 m
              (consumed (numba_rng w)) w1 Hvoc)
    as (fuel0 & m' & c' & Hrun).
  - simpl; lia.
  - unfold pairs. rewrite length_map. simpl; lia.
  - intros pr Hpr. rewrite fill_positives_index_lookup.
    by destruct (decide (pr ∈ pairs)).
  - intros pr (t & -> & Ht)%list_elem_of_fmap.
    apply fair_log_requests. by apply Hfair.
  - exists fuel0, m', (set_consumed Numba c' w1).
    intros fuel Hfuel. rewrite KgeUniformSampler_fast_nonempty by done.
    fold w1 idx pairs.
    rewrite <- (set_consumed_id Numba w1). by apply Hrun.
Qed.

Lemma filter_stage_total self (m : Matrix) sl triples w :
  sampler_invariant self → supported self sl →
  (uses_fast_filter self sl → triples ≠ []) →
  length triples ≤ length m → fair_tapes self sl triples w →
  ∃ fuel0 m' self' w', ∀ fuel, fuel0 ≤ fuel →
    filter_stage fuel self m sl triples w = Ret (m', self') w'.
Proof.
  intros Hinv Hsup Hbatch Hlen Hfair.
  pose proof (invariant_can_sample self sl Hinv) as Hcan.
  pose proof (inv_vocabulary self Hinv sl) as Hvoc.
  destruct (_filter_and_resample_total self m sl triples w Hcan Hlen)
    as (fs & ms & ws & Hstd); [intros t Ht; by apply Hfair|].
  assert (uses_fast_filter self sl →
          ∃ ff mf wf, ∀ fuel, ff ≤ fuel →
            KgeUniformSampler_filter_and_resample_fast fuel self m sl triples w
            = Ret mf wf) as Hfast.
  { intros Huse.
    apply (KgeUniformSampler_fast_total self m sl triples w Hvoc Hlen);
      [by apply Hbatch|]. intros t Ht. by apply Hfair. }
  unfold filter_stage, supported, uses_fast_filter in *.
  destruct (getitem (filter_positives self) sl) eqn:Hfp.
  2:{ exists 0, m, self, w. by intros fuel _. }
  destruct (inv_implementation self Hinv sl Hfp) as (impl & Himpl & _).
  rewrite Himpl in *.
  destruct (String.eqb_spec impl "fast") as [->|Hnf].
  { unfold _filter_and_resample_fast.
    destruct (class_of self); [|exfalso; by apply Hsup].
    destruct Hfast as (ff & mf & wf & Hfast); [done|].
    exists ff, mf, self, wf. intros fuel Hfuel.
    by rewrite bind_unfold, Hfast. }
  destruct (String.eqb_spec impl "standard") as [->|Hns].
  { exists fs, ms, self, ws. intros fuel Hfuel.
    by rewrite bind_unfold, Hstd. }
  unfold try_except_NotImplementedError, _filter_and_resample_fast.
  destruct (class_of self).
  - destruct Hfast as (ff & mf & wf & Hfast).
    { split; [done|]. split; [done|]. congruence. }
    exists ff, mf, (set_filter_implementation self "fast"), wf.
    intros fuel Hfuel. by rewrite !bind_unfold, Hfast.
  - exists fs, ms, (set_filter_implementation self "standard"), ws.
    intros fuel Hfuel. rewrite bind_unfold. unfold raise.
    by rewrite bind_unfold, Hstd.
Qed.

Lemma fair_tapes_set_consumed self sl triples g c w :
  fair_tapes self sl triples (set_consumed g c w) ↔ fair_tapes self sl triples w.
Proof.
  unfold fair_tapes. split; intros H t Ht; destruct (H t Ht) as [H1 H2].
  - by apply fair_set_consumed in H1, H2.
  - split; by apply fair_set_consumed.
Qed.

(** [sample] returns for every large enough fuel. *)
Lemma sample_total self triples sl n w :
  sampler_invariant self → (0 ≤ requested self sl n)%Z →
  supported self sl → (uses_fast_filter self sl → triples ≠ []) →
  fair_tapes self sl triples w →
  ∃ fuel0 m self' w', ∀ fuel, fuel0 ≤ fuel →
    sample fuel self triples sl n w = Ret (m, self') w'.
Proof.
  intros Hinv Hn Hsup Hbatch Hfair.
  set (raw := raw_matrix self (length triples) sl (Z.to_nat (requested self sl n)) w).
  set (w1 := set_consumed Torch
               (consumed (torch_rng w)
                + raw_cells self (length triples) (Z.to_nat (requested self sl n))) w).
  destruct (filter_stage_total self raw sl triples w1 Hinv Hsup Hbatch)
    as (fuel0 & m & self' & w' & Hrun).
  - unfold raw. by rewrite (proj1 (raw_matrix_shape _ _ _ _ _)).
  - by apply fair_tapes_set_consumed.
  - exists fuel0, m, self', w'. intros fuel Hfuel.
    rewrite sample_stages, bind_unfold, draw_stage_spec by done.
    by apply Hrun.
Qed.

(** ** Properties of the construction *)

(** C6: at construction a negative [num_samples] of the subject becomes the
    count of the object when that is positive and 0 otherwise, a negative
    count of the object becomes the count of the subject when that is
    positive and 0 otherwise, and a negative count of the predicate becomes 0
    without copying; counts that are not negative stay.  In particular -1
    for the subject with 5 for the object gives 5, and two negative counts
    give 0 for both. *)
Theorem num_samples_auto_derivation cls config ds w self w' :
  KgeSampler_init cls config ds w = Ret self w' →
  let s := getitem (cfg_num_samples config) SLOT.S in
  let p := getitem (cfg_num_samples config) SLOT.P in
  let o := getitem (cfg_num_samples config) SLOT.O in
  getitem (num_samples self) SLOT.S
    = (if (s <? 0)%Z then if (0 <? o)%Z then o else 0%Z else s) ∧
  getitem (num_samples self) SLOT.O
    = (if (o <? 0)%Z then if (0 <? s)%Z then s else 0%Z else o) ∧
  getitem (num_samples self) SLOT.P = (if (p <? 0)%Z then 0%Z else p) ∧
  (s = (-1)%Z → o = 5%Z → getitem (num_samples self) SLOT.S = 5%Z) ∧
  ((s < 0)%Z → (o < 0)%Z →
   getitem (num_samples self) SLOT.S = 0%Z ∧
   getitem (num_samples self) SLOT.O = 0%Z).
Proof.
  intros Hinit. rewrite KgeSampler_init_spec in Hinit.
  destruct (_ && _); [discriminate|].
  destruct (_ && _); [discriminate|].
  injection Hinit as <- _.
  destruct (cfg_num_samples config) as [s p o]. simpl.
  rewrite auto_config_spec. simpl.
  repeat split.
  - by intros -> ->.
  - destruct (Z.ltb_spec s 0); [|lia]. destruct (Z.ltb_spec 0 o); [lia|done].
  - destruct (Z.ltb_spec o 0); [|lia]. destruct (Z.ltb_spec 0 s); [lia|done].
Qed.

Lemma num_samples_auto_derivation_witness :
  ∃ self w',
    KgeSampler_init KgeUniformSampler
      (example_config "uniform" false (Tensor3 false false true) "standard")
      example_dataset (world_of (tape_of [] 0) (tape_of [] 0)) = Ret self w' ∧
    getitem (num_samples self) SLOT.S = 5%Z ∧
    getitem (num_samples self) SLOT.P = 0%Z.
Proof.
  eexists _, _. split; [reflexivity|].
  pose proof (num_samples_auto_derivation KgeUniformSampler
                (example_config "uniform" false (Tensor3 false false true) "standard")
                example_dataset (world_of (tape_of [] 0) (tape_of [] 0))
                _ _ eq_refl) as (HS & _ & HP & _).
  split; [exact HS|exact HP].
Defined.







(** ** The index requests of [sample] *)

Lemma numba_rows_Raise_inv (fuel : nat) (pairs : list (Z * Z))
    (pindex : gmap (Z * Z) (list Z)) voc_size todo i (m : Matrix) w e w' :
  (0 < voc_size)%Z →
  numba_rows fuel pairs pindex voc_size todo i m w = Raise e w' →
  e = IndexError ∨ e = KeyError.
Proof.
  intros Hvoc. revert i m w.
  induction todo as [|todo IH]; intros i m w Hrun; [discriminate|].
  cbn [numba_rows] in Hrun.
  destruct (pairs !! i) as [pr|]; [|injection Hrun as <- _; by left].
  destruct (pindex !! pr) as [positives|]; [|injection Hrun as <- _; by right].
  destruct (m !! i) as [row|]; [|injection Hrun as <- _; by left].
  rewrite bind_unfold, numba_row_stream in Hrun by done.
  destruct (stream_loop _ _ _ _ _ _ _ _ _ _ w) as [row1 w1|e1 w1|] eqn:Hr;
    [by eapply IH| |discriminate].
  by apply stream_loop_no_raise in Hr.
Qed.

Lemma KgeUniformSampler_fast_Raise_inv fuel self (m : Matrix) sl triples w e w' :
  (0 < getitem (vocabulary_size self) sl)%Z →
  KgeUniformSampler_filter_and_resample_fast fuel self m sl triples w = Raise e w' →
  e = IndexError ∨ e = KeyError ∨ e = TypeError.
Proof.
  intros Hvoc Hrun. rewrite KgeUniformSampler_fast_unfold in Hrun.
  case_bool_decide; [injection Hrun as <- _; by right; right|].
  eapply numba_rows_Raise_inv in Hrun as [?|?]; [by left|by right; left|done].
Qed.

Lemma _filter_and_resample_fast_log fuel self (m : Matrix) sl triples w m' w' :
  sampler_invariant self →
  _filter_and_resample_fast fuel self m sl triples w = Ret m' w' →
  class_of self = KgeUniformSampler ∧
  index_calls w' = index_calls w ++ [index_name (filtering_split self) sl].
Proof.
  intros Hinv Hrun. unfold _filter_and_resample_fast in Hrun.
  destruct (class_of self); [|discriminate]. split; [done|].
  apply (KgeUniformSampler_fast_spec (λ _, True)) in Hrun
    as [(c' & _ & ->) _]; [|apply Hinv|done].
  by rewrite index_calls_set_consumed.
Qed.

Lemma _filter_and_resample_log fuel self (m : Matrix) sl triples w m' w' :
  sampler_invariant self →
  _filter_and_resample fuel self m sl triples w = Ret m' w' →
  index_calls w' = index_calls w ++ [index_name (filtering_split self) sl].
Proof.
  intros Hinv Hrun.
  apply _filter_and_resample_spec in Hrun as (cs & c' & -> & _);
    [|by apply invariant_can_sample].
  by rewrite index_calls_set_consumed.
Qed.

Lemma _filter_and_resample_fast_NotImplemented fuel self (m : Matrix) sl triples
    w msg w' :
  sampler_invariant self →
  _filter_and_resample_fast fuel self m sl triples w
    = Raise (NotImplementedError msg) w' →
  class_of self = KgeFrequencySampler ∧ w' = w.
Proof.
  intros Hinv Hrun. unfold _filter_and_resample_fast in Hrun.
  destruct (class_of self).
  - apply KgeUniformSampler_fast_Raise_inv in Hrun as [?|[?|?]];
      [done|done|done|].
    apply Hinv.
  - by injection Hrun as _ <-.
Qed.

Lemma filter_stage_log fuel self (m : Matrix) sl triples w r w' :
  sampler_invariant self →
  filter_stage fuel self m sl triples w = Ret r w' →
  index_calls w' =
    index_calls w ++
    (if getitem (filter_positives self) sl
     then [index_name (filtering_split self) sl] else []).
Proof.
  intros Hinv Hrun. unfold filter_stage in Hrun.
  destruct (getitem (filter_positives self) sl).
  2:{ injection Hrun as _ <-. by rewrite app_nil_r. }
  destruct (filter_implementation self) as [impl|]; [|discriminate].
  destruct (String.eqb impl "fast").
  { apply bind_Ret_inv in Hrun as (m1 & w1 & Hf & Hret).
    injection Hret as _ <-. by eapply _filter_and_resample_fast_log. }
  destruct (String.eqb impl "standard").
  { apply bind_Ret_inv in Hrun as (m1 & w1 & Hf & Hret).
    injection Hret as _ <-. by eapply _filter_and_resample_log. }
  apply try_except_Ret_inv in Hrun as [Hrun|(msg & w1 & Hraise & Hrun)].
  - apply bind_Ret_inv in Hrun as (m1 & w1 & Hf & Hret).
    injection Hret as _ <-. by eapply _filter_and_resample_fast_log.
  - rewrite bind_unfold in Hraise.
    destruct (_filter_and_resample_fast fuel self m sl triples w)
      as [m0 w0|e0 w0|] eqn:Hf; try discriminate.
    injection Hraise as -> ->.
    apply _filter_and_resample_fast_NotImplemented in Hf as [_ ->]; [|done].
    apply bind_Ret_inv in Hrun as (m1 & w2 & Hs & Hret).
    injection Hret as _ <-. by eapply _filter_and_resample_log.
Qed.

Lemma sample_log fuel self triples sl n w r w' :
  sampler_invariant self → (0 ≤ requested self sl n)%Z →
  sample fuel self triples sl n w = Ret r w' →
  index_calls w' =
    index_calls w ++
    (if getitem (filter_positives self) sl
     then [index_name (filtering_split self) sl] else []).
Proof.
  intros Hinv Hn Hrun.
  rewrite sample_stages, bind_unfold, draw_stage_spec in Hrun by done.
  apply filter_stage_log in Hrun; [|done].
  by rewrite index_calls_set_consumed in Hrun.
Qed.

(** C10: if the configured filtering split is the empty string, the sampler
    takes the training split in its place: the field holds the training
    split, the indexes built at construction are those of the training split
    for the filtered slots, and every index a call of [sample] asks for
    afterwards is the index of the training split for the slot. *)
Theorem empty_filtering_split_is_train_split cls config ds w self w' :
  cfg_filtering_split config = EmptyString →
  KgeSampler_init cls config ds w = Ret self w' →
  filtering_split self = cfg_train_split config ∧
  index_calls w' =
    index_calls w ++
    map (index_name (cfg_train_split config))
        (filtered_slots (cfg_filtering config)) ∧
  (∀ sl t, positives_of self sl t
           = index ds (index_name (cfg_train_split config) sl) (pair_of sl t)) ∧
  (∀ s fuel triples sl n w1 r w2,
     sampler_invariant s → filtering_split s = filtering_split self →
     (0 ≤ requested s sl n)%Z →
     sample fuel s triples sl n w1 = Ret r w2 →
     index_calls w2 =
       index_calls w1 ++
       (if getitem (filter_positives s) sl
        then [index_name (cfg_train_split config) sl] else [])).
Proof.
  intros Hsplit Hinit. rewrite KgeSampler_init_spec in Hinit.
  destruct (_ && _); [discriminate|].
  destruct (_ && _); [discriminate|].
  injection Hinit as <- <-.
  unfold resolved_split, positives_of. rewrite Hsplit. simpl.
  split; [done|]. split; [done|]. split; [done|].
  intros s fuel triples sl n w1 r w2 Hinv Hfs Hn Hrun.
  apply sample_log in Hrun; [|done..]. by rewrite Hfs in Hrun.
Qed.

(** ** [create] establishes the invariant *)

Lemma any3_false (t : tensor3 bool) sl : any3 t = false → getitem t sl = false.
Proof. by destruct t as [[] [] []], sl. Qed.

Lemma any3_true (t : tensor3 bool) sl : getitem t sl = true → any3 t = true.
Proof. by destruct t as [[] [] []], sl. Qed.

Lemma KgeSampler_init_invariant cls config ds w self w' :
  (0 < num_entities ds)%Z → (0 < num_relations ds)%Z →
  KgeSampler_init cls config ds w = Ret self w' →
  class_of self = cls ∧ _multinomials self = [] ∧
  (∀ sl, getitem (vocabulary_size self) sl
         = if SLOT.eqb sl SLOT.P then num_relations ds else num_entities ds) ∧
  (∀ sl, (0 ≤ getitem (num_samples self) sl)%Z) ∧
  (shared self = true → ∀ sl, getitem (filter_positives self) sl = false) ∧
  (∀ sl, getitem (filter_positives self) sl = true →
     ∃ impl, filter_implementation self = Some impl ∧ impl ∈ valid_implementations).
Proof.
  intros He Hr Hinit. rewrite KgeSampler_init_spec in Hinit.
  destruct (any3 (cfg_filtering config) && cfg_shared config) eqn:H1;
    [discriminate|].
  destruct (any3 (cfg_filtering config) && negb _) eqn:H2; [discriminate|].
  injection Hinit as <- _. simpl.
  split; [done|]. split; [done|]. split; [by intros []|].
  split; [apply auto_config_nonneg|]. split.
  - intros Hsh sl. rewrite Hsh, andb_true_r in H1. by apply any3_false.
  - intros sl Hsl. apply any3_true in Hsl. rewrite Hsl in *. simpl in H2.
    eexists. split; [done|].
    apply negb_false_iff in H2. by apply bool_decide_eq_true_1 in H2.
Qed.

Lemma bincount_Ret_inv x minlength w counts w' :
  bincount x minlength w = Ret counts w' →
  counts = bincount_value x minlength ∧ w' = w.
Proof.
  unfold bincount. destruct (bool_decide _); [|discriminate].
  by intros [= <- <-].
Qed.

Lemma foldr_max_bound (x : list Z) (b : Z) :
  (-1 ≤ b)%Z → Forall (λ v, v ≤ b)%Z x → (foldr Z.max (-1) x ≤ b)%Z.
Proof. intros Hb. induction 1; simpl; lia. Qed.

Lemma length_bincount_value x minlength :
  (0 < minlength)%Z → Forall (λ v, v < minlength)%Z x →
  length (bincount_value x minlength) = Z.to_nat minlength.
Proof.
  intros Hm Hx. unfold bincount_value. rewrite length_map, length_seq.
  assert (foldr Z.max (-1) x ≤ minlength - 1)%Z.
  { apply foldr_max_bound; [lia|]. eapply Forall_impl; [exact Hx|].
    simpl. intros; lia. }
  lia.
Qed.

Lemma frequency_slots_Ret_inv setup config ds self ms slots w ms' w' :
  frequency_slots setup config ds self ms slots w = Ret ms' w' →
  ms' = ms ++ map (λ sl, setup (smoothed_distribution config ds self sl)) slots.
Proof.
  revert ms w. induction slots as [|sl rest IH]; intros ms w Hrun.
  - injection Hrun as <- _. by rewrite app_nil_r.
  - cbn [frequency_slots] in Hrun. rewrite bind_unfold in Hrun.
    unfold frequency_slot in Hrun. rewrite bind_unfold in Hrun.
    destruct (bincount _ _ w) as [counts w1|e1 w1|] eqn:Hb; try discriminate.
    apply bincount_Ret_inv in Hb as [-> ->].
    rewrite mret_unfold in Hrun. apply IH in Hrun. subst ms'.
    by rewrite <- app_assoc.
Qed.

Lemma create_invariant setup config key ds w self w' :
  setup_ok setup → dataset_ok config ds →
  create setup config key ds w = Ret self w' →
  sampler_invariant self.
Proof.
  intros Hsetup (He & Hr & Htrain) Hc. unfold create in Hc.
  destruct (String.eqb (cfg_sampling_type config) "uniform").
  { apply KgeSampler_init_invariant in Hc
      as (Hcls & _ & Hvoc & Hns & Hex & Himpl); [|done..].
    split; try done.
    - intros sl. rewrite Hvoc. by destruct sl.
    - unfold tables_ok. by rewrite Hcls. }
  destruct (String.eqb (cfg_sampling_type config) "frequency"); [|discriminate].
  unfold KgeFrequencySampler_init in Hc.
  apply bind_Ret_inv in Hc as (self0 & w1 & Hinit & Hc).
  apply bind_Ret_inv in Hc as (ms & w2 & Hms & Hc).
  injection Hc as <- _.
  apply KgeSampler_init_invariant in Hinit
    as (Hcls & _ & Hvoc & Hns & Hex & Himpl); [|done..].
  apply frequency_slots_Ret_inv in Hms. simpl in Hms. subst ms.
  assert (∀ sl, (0 < getitem (vocabulary_size self0) sl)%Z) as Hpos.
  { intros sl. rewrite Hvoc. by destruct sl. }
  split; try done.
  unfold tables_ok. simpl. rewrite Hcls. intros sl.
  destruct (setup (smoothed_distribution config ds self0 sl)) as [J q] eqn:HJ.
  exists J, q.
  destruct (Hsetup (smoothed_distribution config ds self0 sl)) as [Hlen Hall].
  rewrite HJ in Hlen, Hall. simpl in Hlen, Hall.
  assert (length (smoothed_distribution config ds self0 sl)
          = Z.to_nat (getitem (vocabulary_size self0) sl)) as Hdist.
  { unfold smoothed_distribution. rewrite !length_map.
    apply length_bincount_value; [apply Hpos|].
    apply Forall_fmap, Forall_forall. intros t Ht. simpl.
    rewrite Hvoc. apply (Htrain t sl Ht). }
  rewrite Hdist in Hlen, Hall. specialize (Hpos sl).
  split; [by destruct sl; simpl; rewrite <- HJ|].
  split; [lia|].
  eapply Forall_impl; [exact Hall|]. unfold in_vocabulary. simpl. intros; lia.
Qed.

(** ** Shared sampling *)

(** C9: with shared sampling [sample] draws one vector of [num_samples]
    values once: the vector [v] that the strategy's [_sample] returns as the
    single row for a batch of one triple, whose entries are the values of
    the next [num_samples] cells of torch's generator; the call takes
    exactly these cells.  The vector does not depend on the batch, and every
    row of the result is that vector. *)
Theorem shared_sampling_broadcast self sl n w :
  sampler_invariant self → shared self = true →
  (0 ≤ requested self sl n)%Z →
  let cols := Z.to_nat (requested self sl n) in
  let after := set_consumed Torch (consumed (torch_rng w) + cols) w in
  let v := tape_values Torch (sample_value self sl) w (consumed (torch_rng w))
             cols in
  length v = cols ∧
  (∀ t, _sample self [t] sl (requested self sl n) w = Ret [v] after) ∧
  (∀ j, j < cols →
     v !! j = Some (sample_value self sl
                      (entropy (torch_rng w) (consumed (torch_rng w) + j)))) ∧
  ∀ fuel (positive_triples : list Triple),
    sample fuel self positive_triples sl n w =
      Ret (replicate (length positive_triples) v, self) after ∧
    ∀ i row, replicate (length positive_triples) v !! i = Some row → row = v.
Proof.
  intros Hinv Hsh Hn cols after v.
  split; [apply length_tape_values|]. split; [|split].
  - intros t. rewrite _sample_spec by (try done; by apply invariant_can_sample).
    fold cols. simpl length. rewrite Nat.mul_1_l. fold v. fold after.
    simpl view.
    by rewrite take_ge by (unfold v; by rewrite length_tape_values).
  - intros j Hj. unfold v, tape_values.
    change (map ?f ?l) with (f <$> l).
    by rewrite list_lookup_fmap, lookup_seq_lt.
  - intros fuel triples. split.
    + rewrite sample_stages, bind_unfold, draw_stage_spec by done.
      unfold filter_stage. rewrite (inv_exclusive self Hinv Hsh sl).
      unfold raw_matrix, raw_cells. rewrite Hsh. reflexivity.
    + intros i row Hrow. by apply lookup_replicate in Hrow as [-> _].
Qed.

(** ** Resolution of the filter implementation *)

Lemma sample_resolved fuel self triples sl n w m self' w' :
  sample fuel self triples sl n w = Ret (m, self') w' → resolved_from self self'.
Proof.
  rewrite sample_stages. intros (raw & w1 & _ & Hrun)%bind_Ret_inv.
  unfold filter_stage in Hrun.
  destruct (getitem (filter_positives self) sl);
    [|injection Hrun as _ <- _; by left].
  destruct (filter_implementation self) as [impl|] eqn:Himpl; [|discriminate].
  destruct (String.eqb_spec impl "fast") as [->|Hnf].
  { apply bind_Ret_inv in Hrun as (m1 & w2 & _ & Hret).
    injection Hret as _ <- _. by left. }
  destruct (String.eqb_spec impl "standard") as [->|Hns].
  { apply bind_Ret_inv in Hrun as (m1 & w2 & _ & Hret).
    injection Hret as _ <- _. by left. }
  right. split; [congruence|]. split; [congruence|].
  apply try_except_Ret_inv in Hrun as [Hrun|(msg & w2 & _ & Hrun)];
    apply bind_Ret_inv in Hrun as (m1 & w3 & _ & Hret);
    injection Hret as _ <- _; [by left|by right].
Qed.

Lemma sample_resolved_stays fuel self triples sl n w m self' w' :
  filter_implementation self = Some "fast" ∨
  filter_implementation self = Some "standard" →
  sample fuel self triples sl n w = Ret (m, self') w' → self' = self.
Proof.
  intros Himpl Hrun. apply sample_resolved in Hrun as [?|(H1 & H2 & _)]; [done|].
  by destruct Himpl.
Qed.

Lemma transitions_resolved fuel self calls w samplers w' :
  filter_implementation self = Some "fast" ∨
  filter_implementation self = Some "standard" →
  sample_calls fuel self calls w = Ret samplers w' →
  transitions (filter_implementation self) (map filter_implementation samplers) = 0.
Proof.
  intros Himpl. revert w samplers w'.
  induction calls as [|[[triples sl] n] rest IH]; intros w samplers w' Hrun.
  - by injection Hrun as <- _.
  - cbn [sample_calls] in Hrun.
    apply bind_Ret_inv in Hrun as ([m self'] & w1 & Hs & Hrun).
    apply bind_Ret_inv in Hrun as (later & w2 & Hl & Hret).
    injection Hret as <- _. cbn [map transitions snd] in *.
    apply sample_resolved_stays in Hs as ->; [|done].
    rewrite decide_True by done. by eapply IH.
Qed.

Lemma transitions_at_most_once fuel self calls w samplers w' :
  sample_calls fuel self calls w = Ret samplers w' →
  transitions (filter_implementation self) (map filter_implementation samplers) ≤ 1.
Proof.
  revert self w samplers w'.
  induction calls as [|[[triples sl] n] rest IH]; intros self w samplers w' Hrun.
  - injection Hrun as <- _. simpl. lia.
  - cbn [sample_calls] in Hrun.
    apply bind_Ret_inv in Hrun as ([m self'] & w1 & Hs & Hrun).
    apply bind_Ret_inv in Hrun as (later & w2 & Hl & Hret).
    injection Hret as <- _. cbn [map transitions snd] in *.
    destruct (sample_resolved _ _ _ _ _ _ _ _ _ Hs) as [->|(_ & _ & Hres)].
    + rewrite decide_True by done. by eapply IH.
    + apply transitions_resolved in Hl.
      * rewrite Hl. destruct (decide _); lia.
      * destruct Hres as [-> | ->]; [by left|by right].
Qed.

(** C8: for a sampler without a fast filter (the frequency sampler) under
    [fast_if_available], a filtered call of [sample] catches the
    [NotImplementedError] of the fast filter, produces its result with the
    standard filter and records "standard"; a later call of the sampler so
    resolved runs the standard filter directly and leaves the choice as it
    is; and along any sequence of calls, of any sampler, the recorded
    implementation changes at most once. *)
Theorem fast_if_available_fallback self :
  class_of self = KgeFrequencySampler →
  filter_implementation self = Some "fast_if_available" →
  let resolved := set_filter_implementation self "standard" in
  (∀ fuel (negative_samples : Matrix) sl triples w,
     _filter_and_resample_fast fuel self negative_samples sl triples w =
       Raise (NotImplementedError
                "Use filtering.implementation=standard for this sampler.") w) ∧
  (∀ fuel triples sl n w,
     getitem (filter_positives self) sl = true →
     sample fuel self triples sl n w =
       (negative_samples ← draw_stage self triples sl (requested self sl n);
        m ← _filter_and_resample fuel self negative_samples sl triples;
        mret (m, resolved)) w) ∧
  (∀ fuel triples sl n w,
     getitem (filter_positives self) sl = true →
     sample fuel resolved triples sl n w =
       (negative_samples ← draw_stage resolved triples sl (requested resolved sl n);
        m ← _filter_and_resample fuel resolved negative_samples sl triples;
        mret (m, resolved)) w) ∧
  (∀ fuel (s : KgeSampler) calls w samplers w',
     sample_calls fuel s calls w = Ret samplers w' →
     transitions (filter_implementation s) (map filter_implementation samplers) ≤ 1).
Proof.
  intros Hcls Himpl resolved.
  assert (∀ fuel (negative_samples : Matrix) sl triples w,
     _filter_and_resample_fast fuel self negative_samples sl triples w =
       Raise (NotImplementedError
                "Use filtering.implementation=standard for this sampler.") w)
    as Hfast.
  { intros. unfold _filter_and_resample_fast. by rewrite Hcls. }
  split; [exact Hfast|]. split; [|split].
  - intros fuel triples sl n w Hfp.
    rewrite sample_stages, !bind_unfold.
    destruct (draw_stage self triples sl (requested self sl n) w)
      as [raw w1|e w1|]; try done.
    unfold filter_stage. rewrite Hfp, Himpl. simpl.
    unfold try_except_NotImplementedError.
    by rewrite bind_unfold, Hfast.
  - intros fuel triples sl n w Hfp.
    rewrite sample_stages, !bind_unfold.
    destruct (draw_stage resolved triples sl (requested resolved sl n) w)
      as [raw w1|e w1|]; try done.
    unfold filter_stage. simpl. by rewrite Hfp.
  - intros fuel s calls w samplers w'. apply transitions_at_most_once.
Qed.

(** ** Rows without a collision *)








(** The two errors of [sample] on a constructed sampler. *)
Lemma sample_unsupported fuel self triples sl n w :
  sampler_invariant self → (0 ≤ requested self sl n)%Z →
  class_of self = KgeFrequencySampler →
  getitem (filter_positives self) sl = true →
  filter_implementation self = Some "fast" →
  sample fuel self triples sl n w
  = Raise (NotImplementedError fast_unsupported_msg)
      (set_consumed Torch
         (consumed (torch_rng w)
          + raw_cells self (length triples) (Z.to_nat (requested self sl n))) w).
Proof.
  intros Hinv Hn Hcls Hfp Himpl.
  rewrite sample_stages, bind_unfold, draw_stage_spec by done.
  unfold filter_stage. rewrite Hfp, Himpl. simpl.
  rewrite bind_unfold. unfold _filter_and_resample_fast. by rewrite Hcls.
Qed.

Lemma sample_untyped fuel self sl n w :
  sampler_invariant self → (0 ≤ requested self sl n)%Z →
  uses_fast_filter self sl →
  sample fuel self [] sl n w
  = Raise TypeError (log_requests w [index_name (filtering_split self) sl]).
Proof.
  intros Hinv Hn (Hcls & Hfp & Hns).
  rewrite sample_stages, bind_unfold, draw_stage_spec by done.
  assert (shared self = false) as Hsh.
  { destruct (shared self) eqn:Hsh; [|done].
    by rewrite (inv_exclusive self Hinv Hsh sl) in Hfp. }
  unfold raw_cells. rewrite Hsh. simpl length.
  rewrite Nat.mul_0_l, Nat.add_0_r, (set_consumed_id Torch).
  unfold filter_stage. rewrite Hfp.
  destruct (inv_implementation self Hinv sl Hfp) as (impl & Himpl & _).
  rewrite Himpl in *.
  destruct (String.eqb_spec impl "fast") as [Heq|Hnf].
  { rewrite bind_unfold. unfold _filter_and_resample_fast. rewrite Hcls.
    by rewrite KgeUniformSampler_fast_unfold. }
  destruct (String.eqb_spec impl "standard") as [Heq|Hnst]; [congruence|].
  unfold try_except_NotImplementedError.
  rewrite bind_unfold. unfold _filter_and_resample_fast. rewrite Hcls.
  by rewrite KgeUniformSampler_fast_unfold.
Qed.

(** ** Shape and range of the result *)


(** C3: every value of the matrix [sample] returns lies in
    [[0, vocabulary_size[slot])], whatever the class of the sampler, with or
    without shared sampling, and with either filter; and [sample] does
    return on fair tapes, when the call is one that returns a matrix. *)
Theorem sample_range self triples sl n w :
  sampler_invariant self → (0 ≤ requested self sl n)%Z →
  (∀ fuel m self' w',
     sample fuel self triples sl n w = Ret (m, self') w' →
     ∀ row v, row ∈ m → v ∈ row → (0 ≤ v < getitem (vocabulary_size self) sl)%Z) ∧
  (supported self sl → (uses_fast_filter self sl → triples ≠ []) →
   fair_tapes self sl triples w →
   ∃ fuel m self' w', sample fuel self triples sl n w = Ret (m, self') w').
Proof.
  intros Hinv Hn. split.
  - intros fuel m self' w' Hrun row v Hrow Hv.
    rewrite sample_stages, bind_unfold, draw_stage_spec in Hrun by done.
    apply (filter_stage_kept (in_vocabulary self sl)) in Hrun as [Hk _];
      [|done|intros; by apply sample_value_in_vocabulary
       |intros; by apply numpy_value_in_vocabulary].
    apply kept_range in Hk; [|by apply raw_matrix_range].
    eapply Forall_forall in Hk; [|exact Hrow].
    eapply Forall_forall in Hk; [|exact Hv]. exact Hk.
  - intros Hsup Hbatch Hfair.
    destruct (sample_total self triples sl n w Hinv Hn Hsup Hbatch Hfair)
      as (fuel0 & m & self' & w' & Hrun).
    exists fuel0, m, self', w'. by apply Hrun.
Qed.

(** ** The examples satisfy the hypotheses *)

Lemma example_setup_ok : setup_ok example_setup.
Proof.
  intros probs. unfold example_setup. simpl. split; [apply length_map|].
  apply Forall_fmap, Forall_forall. intros p Hp. simpl.
  destruct probs; [by apply elem_of_nil in Hp|]. simpl. lia.
Qed.

Lemma example_dataset_ok sampling_type shared filtering impl :
  dataset_ok (example_config sampling_type shared filtering impl) example_dataset.
Proof.
  split; [done|]. split; [done|]. simpl. intros t sl Ht.
  apply elem_of_cons in Ht as [->|Ht];
    [|apply elem_of_cons in Ht as [->|Ht]; [|by apply elem_of_nil in Ht]];
    destruct sl; simpl; lia.
Qed.

Lemma uniform_sampler_created :
  create example_setup (example_config "uniform" false only_object "fast")
    "negative_sampling" example_dataset example_world
  = Ret (uniform_sampler false only_object (Some "fast"))
        (log_requests example_world ["train_sp_to_o"]).
Proof. vm_compute. reflexivity. Qed.

Lemma frequency_sampler_created :
  create example_setup
    (example_config "frequency" false only_object "fast_if_available")
    "negative_sampling" example_dataset example_world
  = Ret (frequency_sampler only_object (Some "fast_if_available"))
        (log_requests example_world ["train_sp_to_o"]).
Proof. vm_compute. reflexivity. Qed.

Lemma uniform_sampler_invariant impl :
  impl ∈ valid_implementations →
  sampler_invariant (uniform_sampler false only_object (Some impl)).
Proof.
  intros Himpl. split; simpl.
  - intros []; simpl; lia.
  - exact I.
  - intros []; simpl; lia.
  - discriminate.
  - intros sl _. by exists impl.
Qed.

Lemma shared_sampler_invariant :
  sampler_invariant (uniform_sampler true no_filtering None).
Proof.
  split; simpl.
  - intros []; simpl; lia.
  - exact I.
  - intros []; simpl; lia.
  - by intros _ [].
  - by intros [].
Qed.

Lemma frequency_sampler_invariant :
  sampler_invariant (frequency_sampler only_object (Some "fast_if_available")).
Proof.
  eapply create_invariant;
    [apply example_setup_ok|apply example_dataset_ok
    |apply frequency_sampler_created].
Qed.

Lemma fair_tape_of g dec positives w l rest :
  entropy (rng_of g w) = (λ k, nth k l rest) →
  dec rest ∉ positives → fair g dec positives w.
Proof.
  intros He Hgood c. exists (c `max` length l). split; [lia|].
  rewrite He. rewrite nth_overflow by lia. done.
Qed.

Lemma example_world_fair impl triples :
  fair_tapes (uniform_sampler false only_object (Some impl)) SLOT.O triples
    example_world.
Proof.
  intros t _. split.
  - apply (fair_tape_of Torch _ _ _ [3; 5; 7; 2; 3; 4; 5]%Z 1%Z); [done|].
    by apply (bool_decide_eq_false_1 (_ ∈ _)).
  - apply (fair_tape_of Numba _ _ _ [3; 4; 5]%Z 1%Z); [done|].
    by apply (bool_decide_eq_false_1 (_ ∈ _)).
Qed.

Lemma uniform_sampler_supported shared filtering impl sl :
  supported (uniform_sampler shared filtering impl) sl.
Proof. by intros [? _]. Qed.

(** ** The properties at the examples *)

Lemma standard_valid : "standard" ∈ valid_implementations.
Proof. repeat constructor. Qed.

Lemma fast_valid : "fast" ∈ valid_implementations.
Proof. repeat constructor. Qed.

Lemma frequency_fast_invariant :
  sampler_invariant (frequency_sampler only_object (Some "fast")).
Proof.
  destruct frequency_sampler_invariant as [H1 H2 H3 H4 H5].
  split; try done. intros sl _. exists "fast". split; [done|apply fast_valid].
Qed.



Lemma sample_range_witness :
  ∃ m self' w',
    sample 5 (uniform_sampler false only_object (Some "fast"))
      [(1, 2, 3)%Z] SLOT.O (Some 4%Z) example_world = Ret (m, self') w' ∧
    ∀ row v, row ∈ m → v ∈ row → (0 ≤ v < 10)%Z.
Proof.
  eexists _, _, _. split; [vm_compute; reflexivity|].
  refine (proj1 (sample_range (uniform_sampler false only_object (Some "fast"))
                  [(1, 2, 3)%Z] SLOT.O (Some 4%Z) example_world
                  (uniform_sampler_invariant "fast" fast_valid)
                  ltac:(simpl; lia))
           5 _ _ _ _).
  vm_compute; reflexivity.
Defined.

Lemma shared_sampling_broadcast_witness :
  (∀ t, _sample (uniform_sampler true no_filtering None) [t] SLOT.O 4
          example_world
        = Ret [[3; 5; 7; 2]%Z] (set_consumed Torch 4 example_world)) ∧
  ∀ fuel (positive_triples : list Triple),
    sample fuel (uniform_sampler true no_filtering None) positive_triples
      SLOT.O (Some 4%Z) example_world =
      Ret (replicate (length positive_triples) [3; 5; 7; 2]%Z,
           uniform_sampler true no_filtering None)
          (set_consumed Torch 4 example_world).
Proof.
  destruct (shared_sampling_broadcast (uniform_sampler true no_filtering None)
              SLOT.O (Some 4%Z) example_world shared_sampler_invariant eq_refl
              ltac:(simpl; lia)) as (_ & Hone & _ & Hall).
  split; [exact Hone|]. intros fuel triples. exact (proj1 (Hall fuel triples)).
Defined.

Lemma fast_if_available_fallback_witness :
  sample 5 (frequency_sampler only_object (Some "fast_if_available"))
    [(1, 2, 3)%Z] SLOT.O (Some 4%Z) example_world =
    (negative_samples ←
       draw_stage (frequency_sampler only_object (Some "fast_if_available"))
         [(1, 2, 3)%Z] SLOT.O 4%Z;
     m ← _filter_and_resample 5
           (frequency_sampler only_object (Some "fast_if_available"))
           negative_samples SLOT.O [(1, 2, 3)%Z];
     mret (m, frequency_sampler only_object (Some "standard"))) example_world.
Proof.
  exact (proj1 (proj2 (fast_if_available_fallback
                         (frequency_sampler only_object (Some "fast_if_available"))
                         eq_refl eq_refl))
           5 [(1, 2, 3)%Z] SLOT.O (Some 4%Z) example_world eq_refl).
Defined.

Lemma empty_filtering_split_is_train_split_witness :
  ∃ self w',
    KgeSampler_init KgeUniformSampler
      (example_config "uniform" false only_object "standard")
      example_dataset example_world = Ret self w' ∧
    filtering_split self = "train" ∧
    index_calls w' = ["train_sp_to_o"].
Proof.
  eexists _, _. split; [vm_compute; reflexivity|].
  destruct (empty_filtering_split_is_train_split KgeUniformSampler
              (example_config "uniform" false only_object "standard")
              example_dataset example_world _ _ eq_refl
              ltac:(vm_compute; reflexivity)) as (H1 & H2 & _).
  split; [exact H1|exact H2].
Defined.

(** One run of the fallback: the frequency sampler filters with the
    standard filter and resolves to "standard". *)
Example fallback_run :
  sample 5 (frequency_sampler only_object (Some "fast_if_available"))
    [(1, 2, 3)%Z] SLOT.O (Some 4%Z) example_world
  = Ret ([[4; 5; 5; 2]%Z], frequency_sampler only_object (Some "standard"))
        (set_consumed Torch 7 (log_requests example_world ["train_sp_to_o"])).
Proof. vm_compute. reflexivity. Qed.

(** ** The standard filter replaces the collisions and nothing else *)

(** The standard filter leaves no positive in a row. *)
Lemma standard_filter_no_collision fuel self (raw : Matrix) sl triples w m w' :
  can_sample self sl →
  _filter_and_resample fuel self raw sl triples w = Ret m w' →
  ∀ i t row', triples !! i = Some t → m !! i = Some row' →
    ∀ v, v ∈ row' → v ∉ positives_of self sl t.
Proof.
  intros Hcan Hrun i t row' Ht Hrow' v Hv.
  apply _filter_and_resample_spec in Hrun
    as (cs & c' & _ & _ & _ & _ & Hlen & _ & Hrows); [|done].
  assert (i < length raw) as Hi.
  { rewrite <- Hlen. by eapply lookup_lt_Some. }
  destruct (lookup_lt_is_Some_2 raw i Hi) as [row Hrow].
  destruct (Hrows i t row Ht Hrow) as (row1 & c & c1 & H1 & _ & _ & Hres).
  simpl in H1. rewrite Hrow' in H1. injection H1 as <-.
  apply row_resampled_no_collision in Hres.
  by eapply Forall_forall in Hres.
Qed.

(** C4: the standard filter replaces the colliding positions only.  For
    every row [i] with positives [P_i]: the row keeps its length, every
    entry of the raw row outside [P_i] stays where it is, and the colliding
    positions, taken in increasing order, hold the accepted candidates (those
    outside [P_i]) in the order they were drawn; the candidates of row [i]
    are the cells of torch's generator between the cursors [cs !! i] and
    [cs !! (i + 1)].  On tapes that are fair for every row the filter
    returns. *)
Theorem filter_replaces_only_collisions self (raw : Matrix) sl triples w :
  can_sample self sl → length triples ≤ length raw →
  (∀ fuel m w',
     _filter_and_resample fuel self raw sl triples w = Ret m w' →
     length m = length raw ∧
     ∃ cs : list nat,
       cs !! 0 = Some (consumed (torch_rng w)) ∧
       cs !! length triples = Some (consumed (torch_rng w')) ∧
       ∀ i t row, triples !! i = Some t → raw !! i = Some row →
         ∃ row' c c',
           m !! i = Some row' ∧ cs !! i = Some c ∧ cs !! S i = Some c' ∧
           c ≤ c' ∧ length row' = length row ∧
           (∀ j v, row !! j = Some v → v ∉ positives_of self sl t →
                   row' !! j = Some v) ∧
           gather row' (where_in row (positives_of self sl t) false) =
             filter (λ v, v ∉ positives_of self sl t)
               (tape_values Torch (sample_value self sl) w c (c' - c))) ∧
  ((∀ t, t ∈ triples →
      fair Torch (sample_value self sl) (positives_of self sl t) w) →
   ∃ fuel m w', _filter_and_resample fuel self raw sl triples w = Ret m w').
Proof.
  intros Hcan Hlen. split.
  - intros fuel m w' Hrun.
    apply _filter_and_resample_spec in Hrun
      as (cs & c' & -> & _ & Hcs0 & Hcsn & Hlm & _ & Hrows); [|done].
    split; [done|]. exists cs. split; [done|]. split; [done|].
    intros i t row Ht Hrow.
    destruct (Hrows i t row Ht Hrow)
      as (row' & c & c1 & H1 & H2 & H3 & H4 & H5 & H6 & H7).
    by exists row', c, c1.
  - intros Hfair.
    destruct (_filter_and_resample_total self raw sl triples w Hcan Hlen Hfair)
      as (fuel0 & m & w' & Hrun).
    exists fuel0, m, w'. by apply Hrun.
Qed.

(** The scenario of the specification: vocabulary of ten entities, positives
    3 and 7, raw row 3, 5, 7, 2; the fresh candidates are 3, 4 and then 5. *)
Lemma filter_replaces_only_collisions_witness :
  ∃ m w',
    _filter_and_resample 5 (uniform_sampler false only_object (Some "standard"))
      [[3; 5; 7; 2]%Z] SLOT.O [(1, 2, 3)%Z]
      (set_consumed Torch 4 example_world) = Ret m w' ∧
    m = [[4; 5; 5; 2]%Z] ∧ length m = 1.
Proof.
  eexists _, _. split; [vm_compute; reflexivity|]. split; [reflexivity|].
  refine (proj1 (proj1 (filter_replaces_only_collisions
                   (uniform_sampler false only_object (Some "standard"))
                   [[3; 5; 7; 2]%Z] SLOT.O [(1, 2, 3)%Z]
                   (set_consumed Torch 4 example_world)
                   ltac:(unfold can_sample; simpl; lia) ltac:(simpl; lia))
            5 _ _ _)).
  vm_compute; reflexivity.
Defined.

(** ** The fast filter *)

(** C1, at the failing input: with positives 3 and 7 and the raw row
    3, 5, 7, 2 the fast filter draws 3 and 4, counts the one accepted
    candidate, and writes the first candidate drawn, the positive 3, in its
    place; the row returned holds 3. *)
Theorem fast_filter_returns_positive :
  sample 5 (uniform_sampler false only_object (Some "fast"))
    [(1, 2, 3)%Z] SLOT.O (Some 4%Z) example_world
  = Ret ([[3; 5; 5; 2]%Z], uniform_sampler false only_object (Some "fast"))
        (set_consumed Numba 3
           (set_consumed Torch 4 (log_requests example_world ["train_sp_to_o"])))
  ∧ positives_of (uniform_sampler false only_object (Some "fast")) SLOT.O
      (1, 2, 3)%Z = [3; 7]%Z
  ∧ sample 5 (uniform_sampler false only_object (Some "standard"))
      [(1, 2, 3)%Z] SLOT.O (Some 4%Z) example_world
    = Ret ([[4; 5; 5; 2]%Z], uniform_sampler false only_object (Some "standard"))
          (set_consumed Torch 7 (log_requests example_world ["train_sp_to_o"])).
Proof. repeat split; vm_compute; reflexivity. Qed.

(** ** Termination and divergence of the resample loop *)

(** As long as the cells decode to positives the loop makes no progress:
    [N] units of fuel do not suffice if the next [N] blocks are positives. *)
Lemma stream_loop_stalls g dec write positives resample_idx num_new
    N row nf nr c w :
  nr ≠ 0 →
  (∀ k, c ≤ k < c + N * nr → dec (entropy (rng_of g w) k) ∈ positives) →
  stream_loop g dec write positives resample_idx num_new N row nf nr
    (set_consumed g c w) = Diverge.
Proof.
  intros Hnr. revert c. induction N as [|N IH]; intros c Hbad.
  - by apply stream_loop_0.
  - rewrite stream_loop_S by done.
    assert (length (accepted g dec positives w c nr) = 0) as ->.
    { apply accepted_none. intros k Hk. apply Hbad. lia. }
    apply IH. intros k Hk. apply Hbad. lia.
Qed.

Lemma where_in_nonempty_length (row positives : list Z) :
  where_in row positives false ≠ [] →
  length (where_in row positives false) - 0 ≠ 0.
Proof. destruct (where_in row positives false); [done|simpl; lia]. Qed.

Lemma filter_rows_diverges fuel self sl idx triples i (m : Matrix) w k t row :
  can_sample self sl → i + length triples ≤ length m →
  triples !! k = Some t → m !! (i + k) = Some row →
  (∀ e, sample_value self sl e ∈ idx (pair_of sl t)) →
  where_in row (idx (pair_of sl t)) false ≠ [] →
  filter_rows fuel self sl idx triples i m w = Diverge.
Proof.
  intros Hcan. revert i m w k.
  induction triples as [|t0 rest IH]; intros i m w k Hlen Ht Hrow Hall Hcol;
    [done|].
  simpl in Hlen.
  destruct (lookup_lt_is_Some_2 m i ltac:(lia)) as [row0 Hrow0].
  cbn [filter_rows]. rewrite Hrow0, bind_unfold, filter_row_stream by done.
  destruct k as [|k'].
  - simpl in Ht. injection Ht as ->. rewrite Nat.add_0_r, Hrow0 in Hrow.
    injection Hrow as ->.
    rewrite stream_loop_diverges; [done|done|].
    by apply where_in_nonempty_length.
  - destruct (stream_loop _ _ _ _ _ _ _ _ _ _ w) as [row1 w1|e w1|] eqn:Hr;
      [|by apply stream_loop_no_raise in Hr|done].
    apply (IH (S i) _ w1 k' ); [rewrite length_insert; lia|done| |done|done].
    rewrite list_lookup_insert_ne by lia. rewrite <- Hrow. f_equal. lia.
Qed.

Lemma numba_rows_diverges (fuel : nat) (pairs : list (Z * Z))
    (pindex : gmap (Z * Z) (list Z)) (idx : Z * Z → list Z) voc_size todo i
    (m : Matrix) w k pr row :
  (0 < voc_size)%Z →
  i + todo ≤ length m → i + todo ≤ length pairs →
  (∀ p, p ∈ pairs → pindex !! p = Some (idx p)) →
  k < todo → pairs !! (i + k) = Some pr → m !! (i + k) = Some row →
  (∀ e, numpy_value voc_size e ∈ idx pr) →
  where_in row (idx pr) false ≠ [] →
  numba_rows fuel pairs pindex voc_size todo i m w = Diverge.
Proof.
  intros Hvoc Hlm Hlp Hidx Hk Hpr Hrow Hall Hcol. revert i m w k Hlm Hlp Hk Hpr Hrow.
  induction todo as [|todo IH]; intros i m w k Hlm Hlp Hk Hpr Hrow; [lia|].
  destruct (lookup_lt_is_Some_2 m i ltac:(lia)) as [row0 Hrow0].
  destruct (lookup_lt_is_Some_2 pairs i ltac:(lia)) as [pr0 Hpr0].
  cbn [numba_rows].
  rewrite Hpr0, (Hidx pr0) by (by eapply list_elem_of_lookup_2).
  rewrite Hrow0, bind_unfold, numba_row_stream by done.
  destruct k as [|k'].
  - rewrite Nat.add_0_r in *. rewrite Hpr0 in Hpr. injection Hpr as ->.
    rewrite Hrow0 in Hrow. injection Hrow as ->.
    rewrite stream_loop_diverges; [done|done|].
    by apply where_in_nonempty_length.
  - destruct (stream_loop _ _ _ _ _ _ _ _ _ _ w) as [row1 w1|e w1|] eqn:Hr;
      [|by apply stream_loop_no_raise in Hr|done].
    apply (IH (S i) _ w1 k'); [rewrite length_insert; lia|lia|lia| |].
    + rewrite <- Hpr. f_equal. lia.
    + rewrite list_lookup_insert_ne by lia. rewrite <- Hrow. f_equal. lia.
Qed.

(** If fewer than [voc] distinct positives exist, some value of the
    vocabulary is not a positive. *)
Lemma vocabulary_not_covered (positives : list Z) (voc : Z) :
  length (remove_dups positives) < Z.to_nat voc →
  ∃ v, (0 ≤ v < voc)%Z ∧ v ∉ positives.
Proof.
  intros Hlen.
  destruct (decide (Forall (λ v, v ∈ positives) (seqZ 0 voc))) as [Hall|Hnot].
  - exfalso.
    assert (seqZ 0 voc ⊆+ remove_dups positives) as Hsub.
    { apply NoDup_submseteq; [apply NoDup_seqZ|].
      intros v Hv. apply elem_of_remove_dups.
      by eapply Forall_forall in Hall. }
    apply submseteq_length in Hsub. rewrite length_seqZ in Hsub. lia.
  - apply not_Forall_Exists in Hnot; [|apply _].
    apply Exists_exists in Hnot as (v & Hv & Hout).
    exists v. split; [|done]. apply elem_of_seqZ in Hv. lia.
Qed.

(** Positives inside the vocabulary that are not fewer than [voc] cover it. *)
Lemma vocabulary_covered (positives : list Z) (voc : Z) :
  (∀ v, v ∈ positives → (0 ≤ v < voc)%Z) →
  ¬ length (remove_dups positives) < Z.to_nat voc →
  ∀ v, (0 ≤ v < voc)%Z → v ∈ positives.
Proof.
  intros Hin Hlen v Hv.
  assert (remove_dups positives ⊆+ seqZ 0 voc) as Hsub.
  { apply NoDup_submseteq; [apply NoDup_remove_dups|].
    intros u Hu. apply (proj1 (elem_of_remove_dups _ _)) in Hu.
    apply elem_of_seqZ. specialize (Hin u Hu). lia. }
  apply submseteq_length_Permutation in Hsub; [|rewrite length_seqZ; lia].
  apply elem_of_remove_dups. rewrite Hsub. apply elem_of_seqZ. lia.
Qed.

Lemma _filter_and_resample_diverges fuel self (raw : Matrix) sl triples w i t row :
  can_sample self sl → length triples ≤ length raw →
  triples !! i = Some t → raw !! i = Some row →
  (∀ e, sample_value self sl e ∈ positives_of self sl t) →
  where_in row (positives_of self sl t) false ≠ [] →
  _filter_and_resample fuel self raw sl triples w = Diverge.
Proof.
  intros Hcan Hlen Ht Hrow Hall Hcol. unfold _filter_and_resample.
  rewrite bind_unfold, dataset_index_spec.
  by eapply (filter_rows_diverges _ _ _ _ _ 0 _ _ i t row).
Qed.

Lemma lookup_pairs sl (triples : list Triple) i t :
  triples !! i = Some t → map (pair_of sl) triples !! i = Some (pair_of sl t).
Proof. intros H. by rewrite list_lookup_fmap, H. Qed.

Lemma fill_positives_index_pairs (idx : Z * Z → list Z) (pairs : list (Z * Z))
    (pr : Z * Z) :
  pr ∈ pairs → fill_positives_index idx pairs ∅ !! pr = Some (idx pr).
Proof. intros H. rewrite fill_positives_index_lookup. by destruct (decide _). Qed.

Lemma KgeUniformSampler_fast_diverges fuel self (raw : Matrix) sl triples w i t row :
  (0 < getitem (vocabulary_size self) sl)%Z → length triples ≤ length raw →
  triples !! i = Some t → raw !! i = Some row →
  (∀ e, numpy_value (getitem (vocabulary_size self) sl) e ∈ positives_of self sl t) →
  where_in row (positives_of self sl t) false ≠ [] →
  KgeUniformSampler_filter_and_resample_fast fuel self raw sl triples w = Diverge.
Proof.
  intros Hvoc Hlen Ht Hrow Hall Hcol.
  rewrite KgeUniformSampler_fast_nonempty by (by intros ->).
  eapply (numba_rows_diverges _ _ _
            (index (dataset self) (index_name (filtering_split self) sl))
            _ _ 0 _ _ i (pair_of sl t) row); try done.
  - rewrite length_map. simpl; lia.
  - apply fill_positives_index_pairs.
  - by eapply lookup_lt_Some.
  - by apply lookup_pairs.
Qed.

Lemma _filter_and_resample_stalls N self (raw : Matrix) sl triples w t row :
  can_sample self sl →
  triples !! 0 = Some t → raw !! 0 = Some row →
  where_in row (positives_of self sl t) false ≠ [] →
  (∀ k, consumed (torch_rng w) ≤ k
        < consumed (torch_rng w)
          + N * length (where_in row (positives_of self sl t) false) →
        sample_value self sl (entropy (torch_rng w) k) ∈ positives_of self sl t) →
  _filter_and_resample N self raw sl triples w = Diverge.
Proof.
  intros Hcan Ht Hrow Hcol Hbad. unfold _filter_and_resample.
  rewrite bind_unfold, dataset_index_spec.
  destruct triples as [|t0 rest]; [done|]. injection Ht as ->.
  destruct raw as [|row0 raw]; [done|]. injection Hrow as ->.
  cbn [filter_rows]. change ((row :: raw) !! 0) with (Some row). cbv iota.
  rewrite bind_unfold, filter_row_stream by done.
  rewrite <- (set_consumed_id Torch (log_requests _ _)).
  rewrite (stream_loop_stalls Torch); [done|by apply where_in_nonempty_length|].
  intros k Hk. rewrite Nat.sub_0_r in Hk. by apply Hbad.
Qed.

Lemma KgeUniformSampler_fast_stalls N self (raw : Matrix) sl triples w t row :
  (0 < getitem (vocabulary_size self) sl)%Z →
  triples !! 0 = Some t → raw !! 0 = Some row →
  where_in row (positives_of self sl t) false ≠ [] →
  (∀ k, consumed (numba_rng w) ≤ k
        < consumed (numba_rng w)
          + N * length (where_in row (positives_of self sl t) false) →
        numpy_value (getitem (vocabulary_size self) sl) (entropy (numba_rng w) k)
          ∈ positives_of self sl t) →
  KgeUniformSampler_filter_and_resample_fast N self raw sl triples w = Diverge.
Proof.
  intros Hvoc Ht Hrow Hcol Hbad.
  rewrite KgeUniformSampler_fast_nonempty by (by intros ->).
  destruct triples as [|t0 rest]; [done|]. injection Ht as ->.
  destruct raw as [|row0 raw]; [done|]. injection Hrow as ->.
  cbn [numba_rows length map].
  change ((pair_of sl t :: map (pair_of sl) rest) !! 0) with (Some (pair_of sl t)).
  cbv iota. rewrite fill_positives_index_pairs by left.
  change ((row :: raw) !! 0) with (Some row). cbv iota.
  rewrite bind_unfold, numba_row_stream by done.
  rewrite <- (set_consumed_id Numba (log_requests _ _)).
  rewrite (stream_loop_stalls Numba); [done|by apply where_in_nonempty_length|].
  intros k Hk. rewrite Nat.sub_0_r in Hk. by apply Hbad.
Qed.

(** A recurrent stream keeps yielding a value outside a set of positives
    with fewer distinct members than the vocabulary. *)
Lemma recurrent_fair g dec voc positives w :
  recurrent g dec voc w →
  length (remove_dups positives) < Z.to_nat voc →
  fair g dec positives w.
Proof.
  intros Hrec Hsmall.
  destruct (vocabulary_not_covered positives voc Hsmall) as (v & Hv & Hout).
  intros c. destruct (Hrec v Hv c) as (k & Hk & Hdec).
  exists k. split; [done|]. by rewrite Hdec.
Qed.

(** C5.  Under the precondition, that every row has fewer distinct
    positives than the vocabulary has values, the resample loops of both
    filters terminate: on every stream of samples that keeps yielding every
    value of the vocabulary the standard filter and the fast filter return,
    for every fuel from some bound on.  There is no bound on the retries:
    for every [N] the loop of the first row is still running after [N]
    iterations when the next [N] blocks of cells decode to positives.  If
    the precondition is violated for row [i], its positives being values of
    the vocabulary, and the row has an entry of the vocabulary, both filters
    run for ever, whatever the stream and the fuel, and raise no error. *)
Theorem resample_loop_termination self (raw : Matrix) sl triples w :
  sampler_invariant self → length triples ≤ length raw →
  let voc := getitem (vocabulary_size self) sl in
  ((∀ t, t ∈ triples → fewer_positives self sl t) →
   (recurrent Torch (sample_value self sl) voc w →
    ∃ fuel0 m w', ∀ fuel, fuel0 ≤ fuel →
      _filter_and_resample fuel self raw sl triples w = Ret m w') ∧
   (recurrent Numba (numpy_value voc) voc w → triples ≠ [] →
    ∃ fuel0 m w', ∀ fuel, fuel0 ≤ fuel →
      KgeUniformSampler_filter_and_resample_fast fuel self raw sl triples w
      = Ret m w')) ∧
  (∀ N t row,
     triples !! 0 = Some t → raw !! 0 = Some row →
     where_in row (positives_of self sl t) false ≠ [] →
     let blocks := N * length (where_in row (positives_of self sl t) false) in
     ((∀ k, consumed (torch_rng w) ≤ k < consumed (torch_rng w) + blocks →
            sample_value self sl (entropy (torch_rng w) k)
              ∈ positives_of self sl t) →
      _filter_and_resample N self raw sl triples w = Diverge) ∧
     ((∀ k, consumed (numba_rng w) ≤ k < consumed (numba_rng w) + blocks →
            numpy_value voc (entropy (numba_rng w) k) ∈ positives_of self sl t) →
      KgeUniformSampler_filter_and_resample_fast N self raw sl triples w
      = Diverge)) ∧
  (∀ i t row,
     triples !! i = Some t → raw !! i = Some row →
     (∀ v, v ∈ positives_of self sl t → (0 ≤ v < voc)%Z) →
     ¬ fewer_positives self sl t →
     (∃ v, v ∈ row ∧ in_vocabulary self sl v) →
     ∀ fuel,
       _filter_and_resample fuel self raw sl triples w = Diverge ∧
       KgeUniformSampler_filter_and_resample_fast fuel self raw sl triples w
       = Diverge).
Proof.
  intros Hinv Hlen voc.
  pose proof (invariant_can_sample self sl Hinv) as Hcan.
  pose proof (inv_vocabulary self Hinv sl) as Hvoc. fold voc in Hvoc.
  split; [|split].
  - intros Hsmall. split.
    + intros Hrec.
      apply (_filter_and_resample_total self raw sl triples w Hcan Hlen).
      intros t Ht. eapply recurrent_fair; [exact Hrec|by apply Hsmall].
    + intros Hrec Hne.
      apply (KgeUniformSampler_fast_total self raw sl triples w Hvoc Hlen Hne).
      intros t Ht. eapply recurrent_fair; [exact Hrec|by apply Hsmall].
  - intros N t row Ht Hrow Hcol blocks. split; intros Hbad.
    + by eapply _filter_and_resample_stalls.
    + by eapply KgeUniformSampler_fast_stalls.
  - intros i t row Ht Hrow Hin Hbig (v & Hv & Hvoc_v) fuel.
    pose proof (vocabulary_covered _ _ Hin Hbig) as Hcover.
    assert (where_in row (positives_of self sl t) false ≠ []) as Hcol.
    { apply list_elem_of_lookup_1 in Hv as [j Hj].
      assert (j ∈ where_in row (positives_of self sl t) false) as Hidx.
      { apply elem_of_where_in. exists v. split; [done|].
        rewrite bool_decide_eq_true_2; [done|]. by apply Hcover. }
      intros Hnil. rewrite Hnil in Hidx. by apply elem_of_nil in Hidx. }
    split.
    + eapply _filter_and_resample_diverges; try done.
      intros e. apply Hcover. by apply sample_value_in_vocabulary.
    + eapply KgeUniformSampler_fast_diverges; try done.
      intros e. apply Hcover. by apply numpy_value_in_vocabulary.
Qed.

Lemma uniform_sampler_can_sample shared filtering impl sl :
  can_sample (uniform_sampler shared filtering impl) sl.
Proof. unfold can_sample. destruct sl; simpl; lia. Qed.

(** A tape that counts up after its first entries is recurrent for the
    uniform draw. *)
Lemma tape_then_recurrent (l : list Z) (voc : Z) :
  (0 < voc)%Z →
  ∀ v, (0 ≤ v < voc)%Z → ∀ c,
    ∃ k, c ≤ k ∧ (entropy (tape_then l) k mod voc)%Z = v.
Proof.
  intros Hvoc v Hv c.
  exists (Z.to_nat (v + voc * Z.of_nat (c `max` length l))). split; [nia|].
  unfold tape_then. simpl. rewrite nth_overflow by nia.
  rewrite Z2Nat.id by nia.
  rewrite (Z.mul_comm voc), Z.mod_add by lia. by apply Z.mod_small.
Qed.

Lemma retry_world_recurrent_torch impl :
  recurrent Torch (sample_value (uniform_sampler false only_object impl) SLOT.O)
    10 retry_world.
Proof. intros v Hv c. by apply (tape_then_recurrent [3; 3]%Z 10). Qed.

Lemma retry_world_recurrent_numba :
  recurrent Numba (numpy_value 10) 10 retry_world.
Proof.
  intros v Hv c. unfold numpy_value.
  destruct (tape_then_recurrent [3; 3]%Z 10 ltac:(lia) v Hv c) as (k & Hk & Hd).
  exists k. split; [done|]. simpl in *. rewrite Z.sub_0_r. lia.
Qed.

Lemma resample_loop_termination_witness :
  (∃ fuel0 m w', ∀ fuel, fuel0 ≤ fuel →
     _filter_and_resample fuel
       (uniform_sampler false only_object (Some "standard"))
       [[3]%Z] SLOT.O [(1, 2, 3)%Z] retry_world = Ret m w') ∧
  _filter_and_resample 2 (uniform_sampler false only_object (Some "standard"))
    [[3]%Z] SLOT.O [(1, 2, 3)%Z] retry_world = Diverge.
Proof.
  destruct (resample_loop_termination
              (uniform_sampler false only_object (Some "standard"))
              [[3]%Z] SLOT.O [(1, 2, 3)%Z] retry_world
              (uniform_sampler_invariant "standard" standard_valid)
              ltac:(simpl; lia))
    as (Hterm & Hstall & _).
  split.
  - apply Hterm.
    + intros t _. unfold fewer_positives. simpl. lia.
    + apply retry_world_recurrent_torch.
  - apply (Hstall 2 (1, 2, 3)%Z [3%Z]); [reflexivity|reflexivity|discriminate|].
    intros k Hk. simpl in Hk.
    destruct k as [|[|k]]; [by left|by left|lia].
Defined.

(** The run on [retry_world]: two futile retries, then 2 is accepted. *)
Example retry_run :
  _filter_and_resample 3 (uniform_sampler false only_object (Some "standard"))
    [[3]%Z] SLOT.O [(1, 2, 3)%Z] retry_world
  = Ret [[2]%Z] (set_consumed Torch 3 (log_requests retry_world ["train_sp_to_o"])).
Proof. vm_compute. reflexivity. Qed.

(** With positives that cover a vocabulary of two, a row with an entry is
    never finished. *)
Example covered_run fuel :
  _filter_and_resample fuel covered_sampler [[1]%Z] SLOT.O [(0, 0, 0)%Z]
    retry_world = Diverge.
Proof.
  eapply (_filter_and_resample_diverges _ _ _ _ _ _ 0 (0, 0, 0)%Z [1%Z]);
    [unfold can_sample; simpl; lia|simpl; lia|done|done| |done].
  intros e. unfold sample_value, positives_of. simpl.
  assert (0 ≤ e mod 2 < 2)%Z as He by (apply Z.mod_pos_bound; lia).
  destruct (decide (e mod 2 = 0)%Z) as [->|Hne]; [by left|].
  replace (e mod 2)%Z with 1%Z by lia. right. by left.
Qed.

(** * Further properties of the sampler *)

(** ** Construction *)

(** What the base constructor returns, whatever the dataset. *)
Lemma KgeSampler_init_fields cls config ds w self w' :
  KgeSampler_init cls config ds w = Ret self w' →
  class_of self = cls ∧ _multinomials self = [] ∧ dataset self = ds ∧
  shared self = cfg_shared config ∧
  filter_positives self = cfg_filtering config ∧
  num_samples self = auto_config (cfg_num_samples config) ∧
  vocabulary_size self
    = Tensor3 (num_entities ds) (num_relations ds) (num_entities ds) ∧
  filtering_split self = resolved_split config ∧
  filter_implementation self
    = (if any3 (cfg_filtering config)
       then Some (cfg_filtering_implementation config) else None) ∧
  (any3 (cfg_filtering config) = true →
   cfg_shared config = false ∧
   cfg_filtering_implementation config ∈ valid_implementations) ∧
  w' = log_requests w
         (map (index_name (resolved_split config))
              (filtered_slots (cfg_filtering config))).
Proof.
  intros Hinit. rewrite KgeSampler_init_spec in Hinit.
  destruct (any3 (cfg_filtering config) && cfg_shared config) eqn:H1;
    [discriminate|].
  destruct (any3 (cfg_filtering config) && negb _) eqn:H2; [discriminate|].
  injection Hinit as <- <-. simpl.
  do 9 (split; [done|]). split; [|done].
  intros Hany. rewrite Hany in H1, H2. simpl in H1, H2. split; [done|].
  apply negb_false_iff in H2. by apply bool_decide_eq_true_1 in H2.
Qed.

Lemma frequency_slots_world setup config ds self ms slots w ms' w' :
  frequency_slots setup config ds self ms slots w = Ret ms' w' → w' = w.
Proof.
  revert ms. induction slots as [|sl rest IH]; intros ms Hms.
  - by injection Hms as _ <-.
  - cbn [frequency_slots] in Hms. rewrite bind_unfold in Hms.
    unfold frequency_slot in Hms. rewrite bind_unfold in Hms.
    destruct (bincount _ _ w) as [counts w3|e1 w3|] eqn:Hb; try discriminate.
    apply bincount_Ret_inv in Hb as [-> ->].
    rewrite mret_unfold in Hms. by eapply IH.
Qed.

(** What [create] returns: the fields of the base constructor, and for the
    frequency sampler one alias table per slot. *)
Lemma create_fields setup config key ds w self w' :
  create setup config key ds w = Ret self w' →
  ∃ cls self0,
    KgeSampler_init cls config ds w = Ret self0 w' ∧
    ((cfg_sampling_type config = "uniform" ∧ cls = KgeUniformSampler ∧
      self = self0) ∨
     (cfg_sampling_type config = "frequency" ∧ cls = KgeFrequencySampler ∧
      self = set_multinomials self0
               (map (λ sl, setup (smoothed_distribution config ds self0 sl))
                    SLOT.SLOTS))).
Proof.
  intros Hc. unfold create in Hc.
  destruct (String.eqb_spec (cfg_sampling_type config) "uniform") as [Hu|Hu].
  { exists KgeUniformSampler, self. split; [done|]. by left. }
  destruct (String.eqb_spec (cfg_sampling_type config) "frequency") as [Hf|Hf];
    [|discriminate].
  unfold KgeFrequencySampler_init in Hc.
  apply bind_Ret_inv in Hc as (self0 & w1 & Hinit & Hc).
  apply bind_Ret_inv in Hc as (ms & w2 & Hms & Hc).
  injection Hc as <- <-.
  pose proof (frequency_slots_world _ _ _ _ _ _ _ _ _ Hms) as ->.
  pose proof (frequency_slots_Ret_inv _ _ _ _ _ _ _ _ _ Hms) as ->.
  exists KgeFrequencySampler, self0. split; [done|]. by right.
Qed.

(** X1: [create] builds a uniform sampler for the sampling type "uniform"
    and a frequency sampler with three alias tables for "frequency"; for
    every other sampling type it raises the [ValueError] naming
    [<key>.sampling_type], before any index is requested. *)
Theorem create_dispatch setup config key ds w :
  (cfg_sampling_type config ≠ "uniform" →
   cfg_sampling_type config ≠ "frequency" →
   create setup config key ds w
   = Raise (ValueError (key +:+ ".sampling_type")) w) ∧
  (∀ self w',
     create setup config key ds w = Ret self w' →
     (cfg_sampling_type config = "uniform" ∧
      class_of self = KgeUniformSampler ∧ _multinomials self = []) ∨
     (cfg_sampling_type config = "frequency" ∧
      class_of self = KgeFrequencySampler ∧ length (_multinomials self) = 3)).
Proof.
  split.
  - intros Hu Hf. unfold create.
    destruct (String.eqb_spec (cfg_sampling_type config) "uniform"); [done|].
    by destruct (String.eqb_spec (cfg_sampling_type config) "frequency").
  - intros self w' Hc.
    apply create_fields in Hc as (cls & self0 & Hinit & Hcase).
    apply KgeSampler_init_fields in Hinit as (Hcls & Hms & _).
    destruct Hcase as [(Hty & -> & ->)|(Hty & -> & ->)]; [by left|by right].
Qed.

Lemma create_dispatch_witness :
  create example_setup (example_config "alias" false no_filtering "standard")
    "negative_sampling" example_dataset example_world
  = Raise (ValueError "negative_sampling.sampling_type") example_world.
Proof.
  apply (proj1 (create_dispatch example_setup
                  (example_config "alias" false no_filtering "standard")
                  "negative_sampling" example_dataset example_world));
    discriminate.
Defined.

(** X2: a sampler returned by [create] has the vocabulary of the relations
    for the predicate and of the entities for subject and object, no
    negative sample count, no filtered slot when sampling is shared, a valid
    filter implementation when some slot is filtered, and no filter
    implementation at all when none is. *)
Theorem constructed_sampler_fields setup config key ds w self w' :
  create setup config key ds w = Ret self w' →
  (∀ sl, getitem (vocabulary_size self) sl
         = if SLOT.eqb sl SLOT.P then num_relations ds else num_entities ds) ∧
  (∀ sl, (0 ≤ getitem (num_samples self) sl)%Z) ∧
  (shared self = true → ∀ sl, getitem (filter_positives self) sl = false) ∧
  (∀ sl, getitem (filter_positives self) sl = true →
     ∃ impl, filter_implementation self = Some impl ∧
             impl ∈ valid_implementations) ∧
  ((∀ sl, getitem (filter_positives self) sl = false) →
   filter_implementation self = None).
Proof.
  intros Hc. apply create_fields in Hc as (cls & self0 & Hinit & Hcase).
  apply KgeSampler_init_fields in Hinit
    as (_ & _ & _ & Hsh & Hfp & Hns & Hvoc & _ & Himpl & Hvalid & _).
  assert (vocabulary_size self = vocabulary_size self0 ∧
          num_samples self = num_samples self0 ∧
          shared self = shared self0 ∧
          filter_positives self = filter_positives self0 ∧
          filter_implementation self = filter_implementation self0)
    as (-> & -> & -> & -> & ->).
  { by destruct Hcase as [(_ & _ & ->)|(_ & _ & ->)]. }
  rewrite Hvoc, Hns, Hsh, Hfp, Himpl. repeat split.
  - by intros [].
  - apply auto_config_nonneg.
  - intros Hshared sl.
    destruct (any3 (cfg_filtering config)) eqn:Hany; [|by apply any3_false].
    destruct (Hvalid eq_refl) as [Hno _]. congruence.
  - intros sl Hsl. apply any3_true in Hsl. rewrite Hsl.
    eexists. split; [done|]. by apply Hvalid.
  - intros Hnone.
    destruct (cfg_filtering config) as [f1 f2 f3].
    pose proof (Hnone SLOT.S) as H1. pose proof (Hnone SLOT.P) as H2.
    pose proof (Hnone SLOT.O) as H3. simpl in *. by subst.
Qed.

Lemma constructed_sampler_fields_witness :
  (∀ sl, getitem (vocabulary_size
                    (frequency_sampler only_object (Some "fast_if_available")))
           sl
         = if SLOT.eqb sl SLOT.P then 4%Z else 10%Z) ∧
  (∀ sl, (0 ≤ getitem (num_samples
                         (frequency_sampler only_object
                            (Some "fast_if_available"))) sl)%Z).
Proof.
  destruct (constructed_sampler_fields _ _ _ _ _ _ _ frequency_sampler_created)
    as (H1 & H2 & _).
  split; [exact H1|exact H2].
Defined.

Lemma example_fits_int32 sampling_type shared filtering impl :
  fits_int32 (example_config sampling_type shared filtering impl) example_dataset.
Proof.
  split; [|split]; unfold int32; simpl; [|lia..]. intros []; simpl; lia.
Qed.

(** X3: for sample counts and vocabulary sizes that fit the [int32]
    tensors, the constructor fails only if some slot is filtered, and then
    either because filtering meets shared sampling, with the [ValueError] of
    the source, or, shared sampling being off, because [check_option]
    rejects a filter implementation that is not one of the three known.  The
    check of shared sampling comes first, and the indexes of the filtered
    slots, in the order subject, predicate, object, were requested before
    either check. *)
Theorem construction_failure cls config ds w e w' :
  fits_int32 config ds →
  KgeSampler_init cls config ds w = Raise e w' →
  any3 (cfg_filtering config) = true ∧
  index_calls w' =
    index_calls w ++
    map (index_name (resolved_split config))
        (filtered_slots (cfg_filtering config)) ∧
  ((cfg_shared config = true ∧ e = ValueError filtering_shared_msg) ∨
   (cfg_shared config = false ∧
    (cfg_filtering_implementation config ∉ valid_implementations) ∧
    e = ConfigurationError "filtering.implementation"
          (cfg_filtering_implementation config))).
Proof.
  intros _ Hinit. rewrite KgeSampler_init_spec in Hinit.
  destruct (any3 (cfg_filtering config)) eqn:Hany; simpl in Hinit;
    [|discriminate].
  split; [done|].
  destruct (cfg_shared config) eqn:Hsh.
  - injection Hinit as <- <-. split; [done|]. by left.
  - destruct (negb _) eqn:Hv; [|discriminate].
    injection Hinit as <- <-. split; [done|]. right.
    split; [done|]. split; [|done].
    apply negb_true_iff in Hv. by apply bool_decide_eq_false_1 in Hv.
Qed.

Lemma construction_failure_witness :
  KgeSampler_init KgeUniformSampler
    (example_config "uniform" true (Tensor3 true false true) "standard")
    example_dataset example_world
  = Raise (ValueError filtering_shared_msg)
      (log_requests example_world ["train_po_to_s"; "train_sp_to_o"]) ∧
  index_calls (log_requests example_world ["train_po_to_s"; "train_sp_to_o"])
  = index_calls example_world ++
    map (index_name
           (resolved_split
              (example_config "uniform" true (Tensor3 true false true)
                 "standard")))
        (filtered_slots (Tensor3 true false true)).
Proof.
  split; [vm_compute; reflexivity|].
  exact (proj1 (proj2 (construction_failure KgeUniformSampler
                (example_config "uniform" true (Tensor3 true false true) "standard")
                example_dataset example_world (ValueError filtering_shared_msg)
                (log_requests example_world ["train_po_to_s"; "train_sp_to_o"])
                (example_fits_int32 _ _ _ _)
                ltac:(vm_compute; reflexivity)))).
Defined.

(** X4: with no filtered slot, and sample counts and vocabulary sizes that
    fit the [int32] tensors, the constructor does not fail: neither shared
    sampling nor an unknown filter implementation is an error then, no index
    is requested, and the sampler has no filter implementation. *)
Theorem construction_without_filtering cls config ds w :
  fits_int32 config ds →
  any3 (cfg_filtering config) = false →
  ∃ self,
    KgeSampler_init cls config ds w = Ret self w ∧
    filter_implementation self = None ∧
    shared self = cfg_shared config ∧
    ∀ sl, getitem (filter_positives self) sl = false.
Proof.
  intros _ Hany. rewrite KgeSampler_init_spec, Hany. simpl.
  unfold filtered_slots.
  destruct (cfg_filtering config) as [[] [] []] eqn:Hf; try discriminate.
  simpl. eexists. split.
  - f_equal. destruct w. unfold log_requests. simpl. by rewrite app_nil_r.
  - simpl. repeat split. by intros [].
Qed.

Lemma construction_without_filtering_witness :
  ∃ self,
    KgeSampler_init KgeUniformSampler
      (example_config "uniform" true no_filtering "no such implementation")
      example_dataset example_world = Ret self example_world ∧
    filter_implementation self = None.
Proof.
  destruct (construction_without_filtering KgeUniformSampler
              (example_config "uniform" true no_filtering "no such implementation")
              example_dataset example_world (example_fits_int32 _ _ _ _)
              eq_refl) as (self & H1 & H2 & _).
  exists self. split; [exact H1|exact H2].
Defined.

(** ** Errors of [sample] *)

Lemma filter_rows_no_raise fuel self sl idx triples i (m : Matrix) w e w' :
  can_sample self sl → i + length triples ≤ length m →
  filter_rows fuel self sl idx triples i m w ≠ Raise e w'.
Proof.
  intros Hcan. revert i m w.
  induction triples as [|t rest IH]; intros i m w Hlen; [done|].
  simpl in Hlen.
  destruct (lookup_lt_is_Some_2 m i ltac:(lia)) as [row Hrow].
  cbn [filter_rows]. rewrite Hrow, bind_unfold, filter_row_stream by done.
  destruct (stream_loop _ _ _ _ _ _ _ _ _ _ w) as [row1 w1|e1 w1|] eqn:Hr;
    [|by apply stream_loop_no_raise in Hr|done].
  apply IH. rewrite length_insert. lia.
Qed.

Lemma _filter_and_resample_no_raise fuel self (m : Matrix) sl triples w e w' :
  can_sample self sl → length triples ≤ length m →
  _filter_and_resample fuel self m sl triples w ≠ Raise e w'.
Proof.
  intros Hcan Hlen. unfold _filter_and_resample.
  rewrite bind_unfold, dataset_index_spec. by apply filter_rows_no_raise.
Qed.

Lemma numba_rows_no_raise (fuel : nat) (pairs : list (Z * Z))
    (pindex : gmap (Z * Z) (list Z)) (idx : Z * Z → list Z) voc_size todo i
    (m : Matrix) w e w' :
  (0 < voc_size)%Z →
  i + todo ≤ length m → i + todo ≤ length pairs →
  (∀ pr, pr ∈ pairs → pindex !! pr = Some (idx pr)) →
  numba_rows fuel pairs pindex voc_size todo i m w ≠ Raise e w'.
Proof.
  intros Hvoc Hlm Hlp Hidx. revert i m w Hlm Hlp.
  induction todo as [|todo IH]; intros i m w Hlm Hlp; [done|].
  destruct (lookup_lt_is_Some_2 m i ltac:(lia)) as [row Hrow].
  destruct (lookup_lt_is_Some_2 pairs i ltac:(lia)) as [pr Hpr].
  cbn [numba_rows].
  rewrite Hpr, (Hidx pr) by (by eapply list_elem_of_lookup_2).
  rewrite Hrow, bind_unfold, numba_row_stream by done.
  destruct (stream_loop _ _ _ _ _ _ _ _ _ _ w) as [row1 w1|e1 w1|] eqn:Hr;
    [|by apply stream_loop_no_raise in Hr|done].
  apply IH; [rewrite length_insert; lia|lia].
Qed.

Lemma KgeUniformSampler_fast_no_raise fuel self (m : Matrix) sl triples w e w' :
  (0 < getitem (vocabulary_size self) sl)%Z → length triples ≤ length m →
  triples ≠ [] →
  KgeUniformSampler_filter_and_resample_fast fuel self m sl triples w
    ≠ Raise e w'.
Proof.
  intros Hvoc Hlen Hne. rewrite KgeUniformSampler_fast_nonempty by done.
  apply (numba_rows_no_raise _ _ _
           (index (dataset self) (index_name (filtering_split self) sl)));
    [done|simpl; lia|rewrite length_map; simpl; lia|].
  apply fill_positives_index_pairs.
Qed.

(** What the fast filter of the uniform sampler raises: [TypeError], for
    the batch without triples, after the index was requested. *)
Lemma KgeUniformSampler_fast_raises fuel self (m : Matrix) sl triples w e w' :
  (0 < getitem (vocabulary_size self) sl)%Z → length triples ≤ length m →
  KgeUniformSampler_filter_and_resample_fast fuel self m sl triples w
    = Raise e w' →
  triples = [] ∧ e = TypeError ∧
  w' = log_requests w [index_name (filtering_split self) sl].
Proof.
  intros Hvoc Hlen Hrun. destruct (decide (triples = [])) as [->|Hne].
  - rewrite KgeUniformSampler_fast_unfold in Hrun. by injection Hrun as <- <-.
  - by apply KgeUniformSampler_fast_no_raise in Hrun.
Qed.

(** X5: [sample] on a constructed sampler raises two errors and no other.
    The frequency sampler asked to filter with
    [filtering.implementation = fast] raises [NotImplementedError], whatever
    the batch, after the raw samples were drawn and before the index is
    requested.  A call that runs the fast filter of the uniform sampler on a
    batch without triples raises [TypeError], after the index was requested.
    In every other case [sample] returns or runs for ever. *)
Theorem sample_errors self triples sl n w :
  sampler_invariant self → (0 ≤ requested self sl n)%Z →
  let after_draw :=
    set_consumed Torch
      (consumed (torch_rng w)
       + raw_cells self (length triples) (Z.to_nat (requested self sl n))) w in
  (∀ fuel e w',
     sample fuel self triples sl n w = Raise e w' →
     (class_of self = KgeFrequencySampler ∧
      getitem (filter_positives self) sl = true ∧
      filter_implementation self = Some "fast" ∧
      e = NotImplementedError fast_unsupported_msg ∧ w' = after_draw) ∨
     (uses_fast_filter self sl ∧ triples = [] ∧ e = TypeError ∧
      w' = log_requests w [index_name (filtering_split self) sl])) ∧
  (class_of self = KgeFrequencySampler →
   getitem (filter_positives self) sl = true →
   filter_implementation self = Some "fast" →
   ∀ fuel,
     sample fuel self triples sl n w
     = Raise (NotImplementedError fast_unsupported_msg) after_draw) ∧
  (uses_fast_filter self sl → triples = [] →
   ∀ fuel,
     sample fuel self triples sl n w
     = Raise TypeError (log_requests w [index_name (filtering_split self) sl])).
Proof.
  intros Hinv Hn after_draw.
  pose proof (invariant_can_sample self sl Hinv) as Hcan.
  pose proof (inv_vocabulary self Hinv sl) as Hvoc.
  pose proof (proj1 (raw_matrix_shape self (length triples) sl
                       (Z.to_nat (requested self sl n)) w)) as Hraw.
  assert (∀ fuel e w',
            KgeUniformSampler_filter_and_resample_fast fuel self
              (raw_matrix self (length triples) sl
                 (Z.to_nat (requested self sl n)) w) sl triples after_draw
            = Raise e w' →
            class_of self = KgeUniformSampler →
            getitem (filter_positives self) sl = true →
            filter_implementation self ≠ Some "standard" →
            uses_fast_filter self sl ∧ triples = [] ∧ e = TypeError ∧
            w' = log_requests w [index_name (filtering_split self) sl])
    as Hfast.
  { intros fuel e w' Hf Hcls Hfp Hns.
    apply KgeUniformSampler_fast_raises in Hf as (-> & -> & ->); [|done|lia].
    split; [done|]. split; [done|]. split; [done|].
    assert (shared self = false) as Hsh.
    { destruct (shared self) eqn:Hsh; [|done].
      by rewrite (inv_exclusive self Hinv Hsh sl) in Hfp. }
    unfold after_draw, raw_cells. rewrite Hsh. simpl length.
    by rewrite Nat.mul_0_l, Nat.add_0_r, (set_consumed_id Torch). }
  split; [|split].
  - intros fuel e w' Hrun.
    rewrite sample_stages, bind_unfold, draw_stage_spec in Hrun by done.
    fold after_draw in Hrun. unfold filter_stage in Hrun.
    destruct (getitem (filter_positives self) sl) eqn:Hfp; [|discriminate].
    destruct (inv_implementation self Hinv sl Hfp) as (impl & Himpl & _).
    rewrite Himpl in Hrun.
    destruct (String.eqb_spec impl "fast") as [Heq|Hnf].
    { subst impl. rewrite bind_unfold in Hrun. unfold _filter_and_resample_fast in Hrun.
      destruct (class_of self) eqn:Hcls.
      - destruct (KgeUniformSampler_filter_and_resample_fast _ _ _ _ _ _)
          as [m1 w1|e1 w1|] eqn:Hf; try discriminate.
        injection Hrun as <- <-. right.
        apply (Hfast _ _ _ Hf); [done|done|]. by rewrite Himpl.
      - left. by injection Hrun as <- <-. }
    destruct (String.eqb_spec impl "standard") as [Heq|Hns].
    { subst impl. rewrite bind_unfold in Hrun.
      destruct (_filter_and_resample _ _ _ _ _ _) as [m1 w1|e1 w1|] eqn:Hf;
        try discriminate.
      apply _filter_and_resample_no_raise in Hf; [done|done|lia]. }
    unfold try_except_NotImplementedError in Hrun.
    rewrite bind_unfold in Hrun. unfold _filter_and_resample_fast in Hrun.
    destruct (class_of self) eqn:Hcls.
    + destruct (KgeUniformSampler_filter_and_resample_fast _ _ _ _ _ _)
        as [m1 w1|e1 w1|] eqn:Hf; try discriminate.
      destruct (Hfast _ _ _ Hf) as (Huse & Hnil & He & Hw);
        [done|done|rewrite Himpl; congruence|].
      subst e1. injection Hrun as <- <-. by right.
    + exfalso. unfold raise in Hrun. rewrite bind_unfold in Hrun.
      destruct (_filter_and_resample _ _ _ _ _ _) as [m1 w1|e1 w1|] eqn:Hf;
        try discriminate.
      apply _filter_and_resample_no_raise in Hf; [done|done|lia].
  - intros Hcls Hfp Himpl fuel. by apply sample_unsupported.
  - intros Huse -> fuel. by apply sample_untyped.
Qed.

Lemma sample_errors_witness :
  sample 5 (frequency_sampler only_object (Some "fast")) [(1, 2, 3)%Z] SLOT.O
    (Some 4%Z) example_world
  = Raise (NotImplementedError fast_unsupported_msg)
      (set_consumed Torch 4 example_world).
Proof.
  exact (proj1 (proj2 (sample_errors (frequency_sampler only_object (Some "fast"))
                         [(1, 2, 3)%Z] SLOT.O (Some 4%Z) example_world
                         frequency_fast_invariant ltac:(simpl; lia)))
           eq_refl eq_refl eq_refl 5).
Defined.

(** ** Resolution to the fast filter *)

(** X6: on the uniform sampler under [fast_if_available] a filtered call
    of [sample] is the raw draw followed by the fast filter, and records
    "fast"; on the sampler so resolved a filtered call runs the fast filter
    and leaves the record. *)
Theorem fast_if_available_resolves_fast self :
  class_of self = KgeUniformSampler →
  filter_implementation self = Some "fast_if_available" →
  (∀ sl, (0 < getitem (vocabulary_size self) sl)%Z) →
  let resolved := set_filter_implementation self "fast" in
  ∀ fuel triples sl n w,
    getitem (filter_positives self) sl = true →
    sample fuel self triples sl n w =
      (negative_samples ← draw_stage self triples sl (requested self sl n);
       m ← KgeUniformSampler_filter_and_resample_fast fuel self
             negative_samples sl triples;
       mret (m, resolved)) w ∧
    sample fuel resolved triples sl n w =
      (negative_samples ← draw_stage resolved triples sl (requested resolved sl n);
       m ← KgeUniformSampler_filter_and_resample_fast fuel resolved
             negative_samples sl triples;
       mret (m, resolved)) w.
Proof.
  intros Hcls Himpl Hvoc resolved fuel triples sl n w Hfp. split.
  - rewrite sample_stages, !bind_unfold.
    destruct (draw_stage self triples sl (requested self sl n) w)
      as [raw w1|e w1|]; try done.
    unfold filter_stage. rewrite Hfp, Himpl. simpl.
    unfold try_except_NotImplementedError, _filter_and_resample_fast.
    rewrite Hcls, !bind_unfold.
    destruct (KgeUniformSampler_filter_and_resample_fast fuel self raw sl triples w1)
      as [m1 w2|e1 w2|] eqn:Hf; try done.
    apply KgeUniformSampler_fast_Raise_inv in Hf as [-> | [-> | ->]]; done.
  - rewrite sample_stages, !bind_unfold.
    destruct (draw_stage resolved triples sl (requested resolved sl n) w)
      as [raw w1|e w1|]; try done.
    unfold filter_stage. simpl. rewrite Hfp.
    unfold _filter_and_resample_fast. simpl. by rewrite Hcls.
Qed.

Lemma fast_if_available_resolves_fast_witness :
  sample 5 (uniform_sampler false only_object (Some "fast_if_available"))
    [(1, 2, 3)%Z] SLOT.O (Some 4%Z) example_world =
    (negative_samples ←
       draw_stage (uniform_sampler false only_object (Some "fast_if_available"))
         [(1, 2, 3)%Z] SLOT.O 4%Z;
     m ← KgeUniformSampler_filter_and_resample_fast 5
           (uniform_sampler false only_object (Some "fast_if_available"))
           negative_samples SLOT.O [(1, 2, 3)%Z];
     mret (m, uniform_sampler false only_object (Some "fast"))) example_world.
Proof.
  exact (proj1 (fast_if_available_resolves_fast
                  (uniform_sampler false only_object (Some "fast_if_available"))
                  eq_refl eq_refl ltac:(intros []; simpl; lia)
                  5 [(1, 2, 3)%Z] SLOT.O (Some 4%Z) example_world eq_refl)).
Defined.

(** ** The standard filter through [sample] *)

(** X8: when the standard filter is in use, that is with
    [filtering.implementation = standard] or on the frequency sampler, no
    entry of row [i] of the matrix [sample] returns is a positive of triple
    [i]; and the call returns on fair tapes unless the implementation is
    [fast]. *)
Theorem standard_sample_no_collision self triples sl n w :
  sampler_invariant self → (0 ≤ requested self sl n)%Z →
  getitem (filter_positives self) sl = true →
  filter_implementation self = Some "standard" ∨
  class_of self = KgeFrequencySampler →
  (∀ fuel m self' w',
     sample fuel self triples sl n w = Ret (m, self') w' →
     ∀ i t row, triples !! i = Some t → m !! i = Some row →
       ∀ v, v ∈ row → v ∉ positives_of self sl t) ∧
  (filter_implementation self ≠ Some "fast" →
   fair_tapes self sl triples w →
   ∃ fuel m self' w', sample fuel self triples sl n w = Ret (m, self') w').
Proof.
  intros Hinv Hn Hfp Hstd.
  pose proof (invariant_can_sample self sl Hinv) as Hcan.
  split.
  - intros fuel m self' w' Hrun.
    rewrite sample_stages, bind_unfold, draw_stage_spec in Hrun by done.
    unfold filter_stage in Hrun. rewrite Hfp in Hrun.
    destruct (filter_implementation self) as [impl|] eqn:Himpl; [|discriminate].
    assert (∀ w0 w1 m1,
              _filter_and_resample fuel self
                (raw_matrix self (length triples) sl
                   (Z.to_nat (requested self sl n)) w) sl triples w0
              = Ret m1 w1 →
              ∀ i t row, triples !! i = Some t → m1 !! i = Some row →
                ∀ v, v ∈ row → v ∉ positives_of self sl t) as Hok.
    { intros w0 w1 m1 Hf. by eapply standard_filter_no_collision. }
    destruct (String.eqb_spec impl "fast") as [Heq|Hnf].
    { subst impl. rewrite bind_unfold in Hrun.
      unfold _filter_and_resample_fast in Hrun.
      destruct Hstd as [?|Hcls]; [done|]. by rewrite Hcls in Hrun. }
    destruct (String.eqb_spec impl "standard") as [Heq|Hns].
    { apply bind_Ret_inv in Hrun as (m1 & w1 & Hf & Hret).
      injection Hret as <- _ _. by eapply Hok. }
    destruct Hstd as [?|Hcls]; [congruence|].
    unfold try_except_NotImplementedError in Hrun.
    rewrite bind_unfold in Hrun. unfold _filter_and_resample_fast in Hrun.
    rewrite Hcls in Hrun. unfold raise in Hrun.
    apply bind_Ret_inv in Hrun as (m1 & w1 & Hf & Hret).
    injection Hret as <- _ _. by eapply Hok.
  - intros Hnf Hfair.
    destruct (sample_total self triples sl n w Hinv Hn) as
      (fuel0 & m & self' & w' & Hrun);
      [by intros (_ & _ & ?)
      |intros (Hcls & _ & Hns); destruct Hstd; congruence
      |done|].
    exists fuel0, m, self', w'. by apply Hrun.
Qed.

Lemma standard_sample_no_collision_witness :
  ∃ m self' w',
    sample 5 (uniform_sampler false only_object (Some "standard"))
      [(1, 2, 3)%Z] SLOT.O (Some 4%Z) example_world = Ret (m, self') w' ∧
    ∀ i t row, [(1, 2, 3)%Z] !! i = Some t → m !! i = Some row →
      ∀ v, v ∈ row →
        v ∉ positives_of (uniform_sampler false only_object (Some "standard"))
              SLOT.O t.
Proof.
  eexists _, _, _. split; [vm_compute; reflexivity|].
  refine (proj1 (standard_sample_no_collision
                   (uniform_sampler false only_object (Some "standard"))
                   [(1, 2, 3)%Z] SLOT.O (Some 4%Z) example_world
                   (uniform_sampler_invariant "standard" standard_valid)
                   ltac:(simpl; lia) eq_refl (or_introl eq_refl))
            5 _ _ _ _).
  vm_compute; reflexivity.
Defined.

(** ** The generators of the two filters *)

Lemma numba_rng_set_consumed_Torch c w :
  numba_rng (set_consumed Torch c w) = numba_rng w.
Proof. reflexivity. Qed.

(** The loop of the kernel for one row takes at least one cell of Numba's
    generator for every colliding entry of the row. *)
Lemma numba_row_cells fuel voc_size positives row c w row' w' :
  (0 < voc_size)%Z →
  numba_row fuel voc_size positives row (set_consumed Numba c w) = Ret row' w' →
  ∃ c', w' = set_consumed Numba c' w ∧
        c + length (where_in row positives false) ≤ c'.
Proof.
  intros Hvoc Hrun. rewrite numba_row_stream in Hrun by done.
  set (ridx := where_in row positives false) in *.
  eapply (stream_loop_invariant Numba (numpy_value voc_size) write_numba
            positives ridx (length ridx) w (λ _ nf cur, c + nf ≤ cur))
    in Hrun.
  - destruct Hrun as (c' & _ & -> & Hcells). by exists c'.
  - intros r nf cur Hcur Hnf. simpl.
    pose proof (length_accepted_le Numba (numpy_value voc_size) positives w cur
                  (length ridx - nf)) as Hle.
    destruct (_ =? 0); lia.
  - lia.
  - lia.
Qed.

Lemma numba_rows_cells (fuel : nat) (pairs : list (Z * Z))
    (pindex : gmap (Z * Z) (list Z)) (idx : Z * Z → list Z) voc_size todo i
    (m : Matrix) c w m' w' :
  (0 < voc_size)%Z →
  (∀ pr, pr ∈ pairs → pindex !! pr = Some (idx pr)) →
  numba_rows fuel pairs pindex voc_size todo i m (set_consumed Numba c w)
    = Ret m' w' →
  ∃ c', w' = set_consumed Numba c' w ∧
        c + sum_list (zip_with (λ pr row, length (where_in row (idx pr) false))
                        (take todo (drop i pairs)) (drop i m)) ≤ c'.
Proof.
  intros Hvoc Hidx. revert i m c.
  induction todo as [|todo IH]; intros i m c Hrun.
  - injection Hrun as _ <-. exists c. split; [done|]. simpl. lia.
  - cbn [numba_rows] in Hrun.
    destruct (pairs !! i) as [pr|] eqn:Hpr; [|discriminate].
    rewrite (Hidx pr) in Hrun by (by eapply list_elem_of_lookup_2).
    destruct (m !! i) as [row|] eqn:Hrow; [|discriminate].
    rewrite bind_unfold in Hrun.
    destruct (numba_row fuel voc_size (idx pr) row (set_consumed Numba c w))
      as [row1 w1| |] eqn:Hr; try discriminate.
    apply numba_row_cells in Hr as (c1 & -> & Hc1); [|done].
    apply IH in Hrun as (c' & -> & Hc').
    exists c'. split; [done|].
    rewrite (drop_S pairs pr i Hpr), (drop_S m row i Hrow).
    rewrite drop_insert_lt in Hc' by lia. simpl. lia.
Qed.

(** X9: the replacements of the standard filter come from torch's
    generator and those of the fast filter from the generator of Numba.  A
    call of [sample] that runs no filter or the standard filter leaves
    Numba's generator as it is.  A call that runs the fast filter takes
    from torch's generator the cells of the raw draw and no more, and from
    Numba's generator at least one cell for every colliding entry of the raw
    matrix.  On fair tapes the call returns, when it is one that returns a
    matrix. *)
Theorem generators_of_the_filters self triples sl n w :
  sampler_invariant self → (0 ≤ requested self sl n)%Z →
  let raw :=
    raw_matrix self (length triples) sl (Z.to_nat (requested self sl n)) w in
  (∀ fuel m self' w',
     sample fuel self triples sl n w = Ret (m, self') w' →
     (getitem (filter_positives self) sl = false ∨
      filter_implementation self = Some "standard" ∨
      class_of self = KgeFrequencySampler →
      numba_rng w' = numba_rng w) ∧
     (uses_fast_filter self sl →
      torch_rng w' =
        advance (raw_cells self (length triples)
                   (Z.to_nat (requested self sl n))) (torch_rng w) ∧
      entropy (numba_rng w') = entropy (numba_rng w) ∧
      consumed (numba_rng w) + collisions (positives_of self sl) triples raw
        ≤ consumed (numba_rng w'))) ∧
  (supported self sl → (uses_fast_filter self sl → triples ≠ []) →
   fair_tapes self sl triples w →
   ∃ fuel m self' w', sample fuel self triples sl n w = Ret (m, self') w').
Proof.
  intros Hinv Hn raw.
  pose proof (invariant_can_sample self sl Hinv) as Hcan.
  pose proof (inv_vocabulary self Hinv sl) as Hvoc.
  split.
  2:{ intros Hsup Hbatch Hfair.
      destruct (sample_total self triples sl n w Hinv Hn Hsup Hbatch Hfair)
        as (fuel0 & m & self' & w' & Hrun).
      exists fuel0, m, self', w'. by apply Hrun. }
  intros fuel m self' w' Hrun.
  rewrite sample_stages, bind_unfold, draw_stage_spec in Hrun by done.
  fold raw in Hrun.
  set (w0 := set_consumed Torch _ w) in *.
  assert (∀ m1 w1, _filter_and_resample fuel self raw sl triples w0 = Ret m1 w1 →
                   numba_rng w1 = numba_rng w) as Hstd.
  { intros m1 w1 Hf.
    by apply _filter_and_resample_spec in Hf as (cs & c' & -> & _). }
  assert (∀ m1 w1,
            KgeUniformSampler_filter_and_resample_fast fuel self raw sl triples w0
            = Ret m1 w1 →
            torch_rng w1 =
              advance (raw_cells self (length triples)
                         (Z.to_nat (requested self sl n))) (torch_rng w) ∧
            entropy (numba_rng w1) = entropy (numba_rng w) ∧
            consumed (numba_rng w) + collisions (positives_of self sl) triples raw
              ≤ consumed (numba_rng w1)) as Hfast.
  { intros m1 w1 Hf.
    apply KgeUniformSampler_fast_Ret_inv in Hf as [_ Hf].
    rewrite <- (set_consumed_id Numba (log_requests _ _)) in Hf.
    apply (numba_rows_cells _ _ _
             (index (dataset self) (index_name (filtering_split self) sl)))
      in Hf as (c' & -> & Hc'); [|done|apply fill_positives_index_pairs].
    split; [done|]. split; [done|].
    rewrite drop_0, take_ge in Hc' by (by rewrite length_map).
    change (map (pair_of sl) triples) with (pair_of sl <$> triples) in Hc'.
    rewrite zip_with_fmap_l in Hc'. exact Hc'. }
  unfold filter_stage in Hrun. unfold uses_fast_filter.
  destruct (getitem (filter_positives self) sl) eqn:Hfp.
  2:{ injection Hrun as _ _ <-. split; [done|]. by intros (_ & ? & _). }
  destruct (filter_implementation self) as [impl|] eqn:Himpl; [|discriminate].
  destruct (String.eqb_spec impl "fast") as [Heq|Hnf].
  { subst impl. apply bind_Ret_inv in Hrun as (m1 & w1 & Hf & Hret).
    injection Hret as _ _ <-. unfold _filter_and_resample_fast in Hf.
    destruct (class_of self) eqn:Hcls; [|discriminate].
    split; [intros [?|[?|?]]; done|]. intros _. by eapply Hfast. }
  destruct (String.eqb_spec impl "standard") as [Heq|Hns].
  { subst impl. apply bind_Ret_inv in Hrun as (m1 & w1 & Hf & Hret).
    injection Hret as _ _ <-.
    split; [intros _; by eapply Hstd|by intros (_ & _ & ?)]. }
  unfold try_except_NotImplementedError in Hrun.
  rewrite bind_unfold in Hrun. unfold _filter_and_resample_fast in Hrun.
  destruct (class_of self) eqn:Hcls.
  - destruct (KgeUniformSampler_filter_and_resample_fast _ _ _ _ _ _)
      as [m1 w1|e1 w1|] eqn:Hf; try discriminate.
    + injection Hrun as _ _ <-.
      split; [intros [?|[?|?]]; congruence|]. intros _. by eapply Hfast.
    + apply KgeUniformSampler_fast_Raise_inv in Hf as [-> | [-> | ->]]; done.
  - unfold raise in Hrun.
    apply bind_Ret_inv in Hrun as (m1 & w1 & Hf & Hret).
    injection Hret as _ _ <-.
    split; [intros _; by eapply Hstd|by intros (? & _)].
Qed.

Lemma generators_of_the_filters_witness :
  ∃ m self' w',
    sample 5 (uniform_sampler false only_object (Some "fast"))
      [(1, 2, 3)%Z] SLOT.O (Some 4%Z) example_world = Ret (m, self') w' ∧
    torch_rng w' = advance 4 (torch_rng example_world) ∧
    0 + 2 ≤ consumed (numba_rng w').
Proof.
  eexists _, _, _. split; [vm_compute; reflexivity|].
  destruct (proj2 (proj1 (generators_of_the_filters
                     (uniform_sampler false only_object (Some "fast"))
                     [(1, 2, 3)%Z] SLOT.O (Some 4%Z) example_world
                     (uniform_sampler_invariant "fast" fast_valid)
                     ltac:(simpl; lia))
              5 _ _ _ ltac:(vm_compute; reflexivity))
            ltac:(by split; [|split])) as (Ht & _ & Hc).
  split; [exact Ht|exact Hc].
Defined.

(** ** The fast filter, row by row *)

(** Every row of the result of the kernel is the result of the loop of
    that row. *)
Lemma numba_rows_rows (fuel : nat) (pairs : list (Z * Z))
    (pindex : gmap (Z * Z) (list Z)) (idx : Z * Z → list Z) voc_size todo i
    (m : Matrix) w m' w' :
  (∀ pr, pr ∈ pairs → pindex !! pr = Some (idx pr)) →
  numba_rows fuel pairs pindex voc_size todo i m w = Ret m' w' →
  length m' = length m ∧
  (∀ j, j < i → m' !! j = m !! j) ∧
  ∀ k pr row, k < todo → pairs !! (i + k) = Some pr → m !! (i + k) = Some row →
    ∃ row' w1 w2,
      m' !! (i + k) = Some row' ∧
      numba_row fuel voc_size (idx pr) row w1 = Ret row' w2.
Proof.
  intros Hidx. revert i m w.
  induction todo as [|todo IH]; intros i m w Hrun.
  - injection Hrun as <- _. split; [done|]. split; [done|]. intros; lia.
  - cbn [numba_rows] in Hrun.
    destruct (pairs !! i) as [pr0|] eqn:Hpr0; [|discriminate].
    rewrite (Hidx pr0) in Hrun by (by eapply list_elem_of_lookup_2).
    destruct (m !! i) as [row0|] eqn:Hrow0; [|discriminate].
    rewrite bind_unfold in Hrun.
    destruct (numba_row fuel voc_size (idx pr0) row0 w) as [row1 w1| |] eqn:Hr;
      try discriminate.
    apply IH in Hrun as (Hlen & Hbefore & Hrows).
    assert (i < length m) as Hi by (by eapply lookup_lt_Some).
    split; [by rewrite Hlen, length_insert|]. split.
    + intros j Hj. rewrite Hbefore by lia. apply list_lookup_insert_ne. lia.
    + intros k pr row Hk Hpr Hrow. destruct k as [|k].
      * rewrite Nat.add_0_r in *. rewrite Hpr0 in Hpr. injection Hpr as <-.
        rewrite Hrow0 in Hrow. injection Hrow as <-.
        exists row1, w, w1. split; [|done].
        rewrite Hbefore by lia. by apply list_lookup_insert_eq.
      * destruct (Hrows k pr row) as (row' & wa & wb & H1 & H2); [lia| | |].
        { rewrite <- Hpr. f_equal. lia. }
        { rewrite list_lookup_insert_ne by lia. rewrite <- Hrow. f_equal. lia. }
        exists row', wa, wb. split; [|done]. rewrite <- H1. f_equal. lia.
Qed.

Lemma where_in_empty_no_positive (row positives : list Z) :
  where_in row positives false = [] → Forall (λ v, v ∉ positives) row.
Proof.
  intros Hnil. apply Forall_lookup_2. intros j v Hj Hin.
  assert (j ∈ where_in row positives false) as Hidx.
  { apply elem_of_where_in. exists v. split; [done|].
    by rewrite bool_decide_eq_true_2. }
  rewrite Hnil in Hidx. by apply elem_of_nil in Hidx.
Qed.

(** The loop of one row keeps the entries outside the positives. *)
Lemma numba_row_frame fuel voc_size positives row w row' w' :
  (0 < voc_size)%Z →
  numba_row fuel voc_size positives row w = Ret row' w' →
  length row' = length row ∧
  ∀ j v, row !! j = Some v → v ∉ positives → row' !! j = Some v.
Proof.
  intros Hvoc Hrun. rewrite numba_row_stream in Hrun by done.
  rewrite <- (set_consumed_id Numba w) in Hrun.
  set (ridx := where_in row positives false) in *.
  eapply (stream_loop_invariant Numba (numpy_value voc_size) write_numba
            positives ridx (length ridx) w
            (λ r _ _, length r = length row ∧
                      ∀ j, j ∉ ridx → r !! j = row !! j)) in Hrun.
  - destruct Hrun as (c' & _ & _ & Hlen & Hother). split; [done|].
    intros j v Hj Hv. rewrite Hother; [done|].
    intros (u & Hu & Hb)%elem_of_where_in.
    rewrite Hj in Hu. injection Hu as <-.
    rewrite bool_decide_eq_false_2 in Hb by done. discriminate.
  - intros r nf cur [Hlen Hother] Hnf. simpl.
    destruct (_ =? 0); [done|]. unfold write_numba.
    split; [by rewrite length_numba_write|].
    intros j Hj. rewrite numba_write_lookup_other; [by apply Hother|].
    intros Hs. apply Hj. by eapply slice_subseteq.
  - lia.
  - done.
Qed.

(** A row with at most one colliding entry comes out without a positive. *)
Lemma numba_row_single_collision fuel voc_size positives row w row' w' :
  (0 < voc_size)%Z →
  length (where_in row positives false) ≤ 1 →
  numba_row fuel voc_size positives row w = Ret row' w' →
  Forall (λ v, v ∉ positives) row'.
Proof.
  intros Hvoc Hone Hrun. rewrite numba_row_stream in Hrun by done.
  rewrite <- (set_consumed_id Numba w) in Hrun.
  set (ridx := where_in row positives false) in *.
  eapply (stream_loop_invariant Numba (numpy_value voc_size) write_numba
            positives ridx (length ridx) w
            (λ r nf _, (nf = 0 ∧ r = row) ∨
                       (nf = length ridx ∧ Forall (λ v, v ∉ positives) r)))
    in Hrun.
  - destruct Hrun as (c' & _ & _ & [[H0 ->]|[_ Hall]]); [|done].
    apply where_in_empty_no_positive. fold ridx. by apply nil_length_inv.
  - intros r nf cur [[-> ->]|[-> _]] Hnf; [|lia]. simpl.
    assert (length ridx = 1) as Hlen by lia. rewrite Hlen. simpl.
    destruct ridx as [|j0 [|? ?]] eqn:Hridx; try discriminate.
    set (v := numpy_value voc_size (entropy (numba_rng w) cur)).
    unfold accepted.
    change (candidates Numba (numpy_value voc_size) w cur 1) with [v].
    rewrite where_in_cons.
    destruct (decide (v ∈ positives)) as [Hin|Hout].
    + rewrite bool_decide_eq_true_2 by done. simpl. by left.
    + rewrite bool_decide_eq_false_2 by done. simpl. right. split; [done|].
      unfold write_numba, slice. simpl.
      apply Forall_lookup_2. intros j u Hj.
      destruct (decide (j = j0)) as [->|Hne].
      * apply list_lookup_insert_Some in Hj as [(_ & <- & _)|[? _]]; done.
      * rewrite list_lookup_insert_ne in Hj by done. intros Hu.
        assert (j ∈ where_in row positives false) as Hidx.
        { apply elem_of_where_in. exists u. split; [done|].
          by rewrite bool_decide_eq_true_2. }
        fold ridx in Hidx. rewrite Hridx in Hidx.
        apply list_elem_of_singleton in Hidx. done.
  - lia.
  - by left.
Qed.

Lemma KgeUniformSampler_fast_rows fuel self (raw : Matrix) sl triples w m w' :
  KgeUniformSampler_filter_and_resample_fast fuel self raw sl triples w
    = Ret m w' →
  length m = length raw ∧
  ∀ i t row, triples !! i = Some t → raw !! i = Some row →
    ∃ row' w1 w2,
      m !! i = Some row' ∧
      numba_row fuel (getitem (vocabulary_size self) sl)
        (positives_of self sl t) row w1 = Ret row' w2.
Proof.
  intros Hrun. apply KgeUniformSampler_fast_Ret_inv in Hrun as [_ Hrun].
  apply (numba_rows_rows _ _ _
           (index (dataset self) (index_name (filtering_split self) sl)))
    in Hrun as (Hlen & _ & Hrows); [|apply fill_positives_index_pairs].
  split; [done|]. intros i t row Ht Hrow.
  apply (Hrows i (pair_of sl t) row); [by eapply lookup_lt_Some| |done].
  by apply lookup_pairs.
Qed.

(** X10: the fast filter writes into colliding positions only: every row
    keeps its length and every entry of the raw matrix outside the positives
    of its row stays where it is; and for a batch with at least one triple
    the filter returns on fair tapes. *)
Theorem fast_filter_frame self (raw : Matrix) sl triples w :
  (0 < getitem (vocabulary_size self) sl)%Z → length triples ≤ length raw →
  (∀ fuel m w',
     KgeUniformSampler_filter_and_resample_fast fuel self raw sl triples w
       = Ret m w' →
     length m = length raw ∧
     ∀ i t row, triples !! i = Some t → raw !! i = Some row →
       ∃ row', m !! i = Some row' ∧ length row' = length row ∧
         ∀ j v, row !! j = Some v → v ∉ positives_of self sl t →
                row' !! j = Some v) ∧
  (triples ≠ [] →
   (∀ t, t ∈ triples →
      fair Numba (numpy_value (getitem (vocabulary_size self) sl))
        (positives_of self sl t) w) →
   ∃ fuel m w',
     KgeUniformSampler_filter_and_resample_fast fuel self raw sl triples w
       = Ret m w').
Proof.
  intros Hvoc Hlen. split.
  - intros fuel m w' Hrun.
    apply KgeUniformSampler_fast_rows in Hrun as [Hl Hrows].
    split; [done|]. intros i t row Ht Hrow.
    destruct (Hrows i t row Ht Hrow) as (row' & w1 & w2 & Hm & Hr).
    apply numba_row_frame in Hr as [? ?]; [|done].
    by exists row'.
  - intros Hne Hfair.
    destruct (KgeUniformSampler_fast_total self raw sl triples w Hvoc Hlen Hne
                Hfair) as (fuel0 & m & w' & Hrun).
    exists fuel0, m, w'. by apply Hrun.
Qed.

Lemma fast_filter_frame_witness :
  ∃ m w',
    KgeUniformSampler_filter_and_resample_fast 5
      (uniform_sampler false only_object (Some "fast"))
      [[3; 5; 7; 2]%Z] SLOT.O [(1, 2, 3)%Z] example_world = Ret m w' ∧
    length m = 1.
Proof.
  eexists _, _. split; [vm_compute; reflexivity|].
  refine (proj1 (proj1 (fast_filter_frame
                   (uniform_sampler false only_object (Some "fast"))
                   [[3; 5; 7; 2]%Z] SLOT.O [(1, 2, 3)%Z] example_world
                   ltac:(simpl; lia) ltac:(simpl; lia))
            5 _ _ _)).
  vm_compute; reflexivity.
Defined.

(** X11: the fast filter is right for rows with at most one colliding
    entry: such a row of the result holds no positive of its triple,
    whatever happens to the other rows; and for a batch with at least one
    triple the filter returns on fair tapes. *)
Theorem fast_filter_single_collision self (raw : Matrix) sl triples w :
  (0 < getitem (vocabulary_size self) sl)%Z → length triples ≤ length raw →
  (∀ fuel m w',
     KgeUniformSampler_filter_and_resample_fast fuel self raw sl triples w
       = Ret m w' →
     ∀ i t row, triples !! i = Some t → raw !! i = Some row →
       length (where_in row (positives_of self sl t) false) ≤ 1 →
       ∃ row', m !! i = Some row' ∧
               ∀ v, v ∈ row' → v ∉ positives_of self sl t) ∧
  (triples ≠ [] →
   (∀ t, t ∈ triples →
      fair Numba (numpy_value (getitem (vocabulary_size self) sl))
        (positives_of self sl t) w) →
   ∃ fuel m w',
     KgeUniformSampler_filter_and_resample_fast fuel self raw sl triples w
       = Ret m w').
Proof.
  intros Hvoc Hlen. split.
  - intros fuel m w' Hrun i t row Ht Hrow Hone.
    apply KgeUniformSampler_fast_rows in Hrun as [Hl Hrows].
    destruct (Hrows i t row Ht Hrow) as (row' & w1 & w2 & Hm & Hr).
    apply numba_row_single_collision in Hr; [|done..].
    exists row'. split; [done|]. intros v Hv.
    by eapply Forall_forall in Hr.
  - intros Hne Hfair.
    destruct (KgeUniformSampler_fast_total self raw sl triples w Hvoc Hlen Hne
                Hfair) as (fuel0 & m & w' & Hrun).
    exists fuel0, m, w'. by apply Hrun.
Qed.

Lemma fast_filter_single_collision_witness :
  ∃ m w',
    KgeUniformSampler_filter_and_resample_fast 5
      (uniform_sampler false only_object (Some "fast"))
      [[3; 5; 4; 2]%Z] SLOT.O [(1, 2, 3)%Z] example_world = Ret m w' ∧
    ∃ row', m !! 0 = Some row' ∧
            ∀ v, v ∈ row' →
              v ∉ positives_of (uniform_sampler false only_object (Some "fast"))
                    SLOT.O (1, 2, 3)%Z.
Proof.
  eexists _, _. split; [vm_compute; reflexivity|].
  refine (proj1 (fast_filter_single_collision
                   (uniform_sampler false only_object (Some "fast"))
                   [[3; 5; 4; 2]%Z] SLOT.O [(1, 2, 3)%Z] example_world
                   ltac:(simpl; lia) ltac:(simpl; lia))
            5 _ _ _ 0 (1, 2, 3)%Z [3; 5; 4; 2]%Z eq_refl eq_refl
            ltac:(vm_compute; lia)).
  vm_compute; reflexivity.
Defined.

(** ** The dictionary of the fast filter *)

(** X12: the dictionary the fast filter fills from the batch holds exactly
    the pairs of the batch, each once however often it occurs, and maps each
    to the positives the index has for it. *)
Theorem positives_index_lookup (idx : Z * Z → list Z) (pairs : list (Z * Z)) :
  (∀ pr, fill_positives_index idx pairs ∅ !! pr
         = if decide (pr ∈ pairs) then Some (idx pr) else None) ∧
  dom (fill_positives_index idx pairs ∅) = list_to_set pairs ∧
  size (fill_positives_index idx pairs ∅) = length (remove_dups pairs).
Proof.
  assert (∀ pr, fill_positives_index idx pairs ∅ !! pr
                = if decide (pr ∈ pairs) then Some (idx pr) else None) as Hl.
  { intros pr. rewrite fill_positives_index_lookup.
    destruct (decide _); [done|apply lookup_empty]. }
  assert (dom (fill_positives_index idx pairs ∅)
          = (list_to_set pairs : gset (Z * Z))) as Hdom.
  { apply set_eq. intros pr. rewrite elem_of_dom, Hl, elem_of_list_to_set.
    destruct (decide (pr ∈ pairs)); split; try done; by intros [? ?]. }
  split; [done|]. split; [done|].
  rewrite <- size_dom, Hdom.
  assert ((list_to_set pairs : gset (Z * Z)) = list_to_set (remove_dups pairs))
    as ->.
  { apply set_eq. intros pr.
    by rewrite !elem_of_list_to_set, elem_of_remove_dups. }
  apply size_list_to_set, NoDup_remove_dups.
Qed.

(** ** The batch as seen by [sample] *)

Lemma _sample_batch_size self (l l' : list Triple) sl n w :
  length l = length l' → _sample self l sl n w = _sample self l' sl n w.
Proof.
  intros Hlen. unfold _sample, KgeUniformSampler_sample,
    KgeFrequencySampler_sample. by rewrite Hlen.
Qed.

Lemma resample_loop_triple fuel self t t' sl positives resample_idx num_new
    row num_found num_remaining w :
  resample_loop fuel self t sl positives resample_idx num_new row num_found
    num_remaining w
  = resample_loop fuel self t' sl positives resample_idx num_new row num_found
      num_remaining w.
Proof.
  revert row num_found num_remaining w.
  induction fuel as [|fuel IH]; intros row num_found num_remaining w;
    cbn [resample_loop]; destruct (num_remaining =? 0); try done.
  rewrite !bind_unfold, (_sample_batch_size self [t] [t']) by done.
  destruct (_sample self [t'] sl (Z.of_nat num_remaining) w) as [m w1|e w1|];
    try done.
  destruct (length _ =? 0); apply IH.
Qed.

Lemma filter_rows_pairs fuel self sl idx (triples triples' : list Triple) :
  map (pair_of sl) triples = map (pair_of sl) triples' →
  ∀ i (m : Matrix) w,
    filter_rows fuel self sl idx triples i m w
    = filter_rows fuel self sl idx triples' i m w.
Proof.
  revert triples'.
  induction triples as [|t rest IH]; intros [|t' rest'] Hmap i m w;
    try discriminate; [done|].
  change (pair_of sl t :: map (pair_of sl) rest
          = pair_of sl t' :: map (pair_of sl) rest') in Hmap.
  assert (pair_of sl t = pair_of sl t') as Hpair by congruence.
  assert (map (pair_of sl) rest = map (pair_of sl) rest') as Hrest
    by congruence.
  cbn [filter_rows].
  destruct (m !! i) as [row|]; [|done].
  rewrite !bind_unfold. unfold filter_row. rewrite Hpair.
  rewrite (resample_loop_triple fuel self t t').
  destruct (resample_loop _ _ _ _ _ _ _ _ _ _ w) as [row' w1|e w1|]; try done.
  by apply IH.
Qed.

Lemma _filter_and_resample_pairs fuel self (m : Matrix) sl triples triples' w :
  map (pair_of sl) triples = map (pair_of sl) triples' →
  _filter_and_resample fuel self m sl triples w
  = _filter_and_resample fuel self m sl triples' w.
Proof.
  intros Hmap. unfold _filter_and_resample.
  rewrite !bind_unfold, dataset_index_spec. by apply filter_rows_pairs.
Qed.

Lemma _filter_and_resample_fast_pairs fuel self (m : Matrix) sl triples triples' w :
  map (pair_of sl) triples = map (pair_of sl) triples' →
  _filter_and_resample_fast fuel self m sl triples w
  = _filter_and_resample_fast fuel self m sl triples' w.
Proof.
  intros Hmap.
  assert (length triples = length triples') as Hlen.
  { by rewrite <- (length_map (pair_of sl) triples), Hmap, length_map. }
  unfold _filter_and_resample_fast,
    KgeUniformSampler_filter_and_resample_fast.
  destruct (class_of self); [|done]. by rewrite Hmap, Hlen.
Qed.

(** X13: [sample] reads of the batch its number of rows and, when the slot
    is filtered, the two columns other than the slot; the entries of the
    sampled slot itself are never read.  Two batches that agree on the pair
    columns give the same result, the same sampler and the same state of the
    generators, also when the call raises or runs out of fuel. *)
Theorem sample_reads_pair_columns fuel self triples triples' sl n w :
  map (pair_of sl) triples = map (pair_of sl) triples' →
  sample fuel self triples sl n w = sample fuel self triples' sl n w.
Proof.
  intros Hmap.
  assert (length triples = length triples') as Hlen.
  { by rewrite <- (length_map (pair_of sl) triples), Hmap, length_map. }
  rewrite !sample_stages, !bind_unfold.
  assert (draw_stage self triples sl (requested self sl n) w
          = draw_stage self triples' sl (requested self sl n) w) as ->.
  { unfold draw_stage. destruct (shared self).
    - unfold _sample_shared. by rewrite !bind_unfold, Hlen.
    - by apply _sample_batch_size. }
  destruct (draw_stage self triples' sl (requested self sl n) w)
    as [m w1|e w1|]; try done.
  unfold filter_stage. destruct (getitem (filter_positives self) sl); [|done].
  destruct (filter_implementation self) as [impl|]; [|done].
  destruct (String.eqb impl "fast").
  { by rewrite !bind_unfold, (_filter_and_resample_fast_pairs _ _ _ _ _ _ _ Hmap). }
  destruct (String.eqb impl "standard").
  { by rewrite !bind_unfold, (_filter_and_resample_pairs _ _ _ _ _ _ _ Hmap). }
  unfold try_except_NotImplementedError.
  rewrite !bind_unfold, (_filter_and_resample_fast_pairs _ _ _ _ _ _ _ Hmap).
  destruct (_filter_and_resample_fast fuel self m sl triples' w1)
    as [m' w2|[] w2|]; try done.
  by rewrite !bind_unfold, (_filter_and_resample_pairs _ _ _ _ _ _ _ Hmap).
Qed.

Lemma sample_reads_pair_columns_witness :
  sample 5 (uniform_sampler false only_object (Some "standard"))
    [(1, 2, 3); (4, 0, 5)]%Z SLOT.O None example_world
  = sample 5 (uniform_sampler false only_object (Some "standard"))
      [(1, 2, 9); (4, 0, 0)]%Z SLOT.O None example_world.
Proof.
  apply (sample_reads_pair_columns 5
           (uniform_sampler false only_object (Some "standard"))
           [(1, 2, 3); (4, 0, 5)]%Z [(1, 2, 9); (4, 0, 0)]%Z SLOT.O None
           example_world).
  reflexivity.
Defined.

(** ** The distribution of the frequency sampler *)

Lemma bincount_value_occurrences (x : list Z) (minlength : Z) :
  (0 < minlength)%Z → Forall (λ v, v < minlength)%Z x →
  bincount_value x minlength
  = map (λ v, occurrences x (Z.of_nat v)) (seq 0 (Z.to_nat minlength)).
Proof.
  intros Hm Hx. unfold bincount_value.
  assert (foldr Z.max (-1) x ≤ minlength - 1)%Z.
  { apply foldr_max_bound; [lia|]. eapply Forall_impl; [exact Hx|].
    simpl. intros; lia. }
  by replace (Z.max minlength (foldr Z.max (-1) x + 1))%Z with minlength by lia.
Qed.

Lemma indicator_sum (a : Z) (s len : nat) :
  foldr Z.add 0%Z
    (map (λ v, if decide (a = Z.of_nat v) then 1 else 0)%Z (seq s len))
  = (if decide (Z.of_nat s ≤ a < Z.of_nat (s + len))%Z then 1 else 0)%Z.
Proof.
  revert s. induction len as [|len IH]; intros s; simpl.
  - case_decide; [lia|done].
  - rewrite IH. repeat case_decide; lia.
Qed.

Lemma foldr_add_map_add {A} (f g : A → Z) (l : list A) :
  foldr Z.add 0%Z (map (λ v, f v + g v)%Z l)
  = (foldr Z.add 0 (map f l) + foldr Z.add 0 (map g l))%Z.
Proof. induction l as [|a l IH]; simpl; lia. Qed.

(** The counts of [np.bincount] add up to the number of entries. *)
Lemma occurrences_sum (x : list Z) (len : nat) :
  Forall (λ v, 0 ≤ v < Z.of_nat len)%Z x →
  foldr Z.add 0%Z (map (λ v, occurrences x (Z.of_nat v)) (seq 0 len))
  = Z.of_nat (length x).
Proof.
  induction 1 as [|a x Ha Hx IH].
  - unfold occurrences. simpl. induction (seq 0 len); simpl; lia.
  - rewrite (map_ext _ (λ v, (if decide (a = Z.of_nat v) then 1 else 0)
                             + occurrences x (Z.of_nat v))%Z).
    + rewrite foldr_add_map_add, IH, indicator_sum. simpl length.
      case_decide; lia.
    + intros v. unfold occurrences. rewrite filter_cons.
      case_decide; simpl length; lia.
Qed.

Lemma Qsum_smoothed (alpha : Q) (counts : list Z) :
  (Qsum (map (λ c, inject_Z c + alpha) counts)
   == inject_Z (foldr Z.add 0%Z counts)
      + inject_Z (Z.of_nat (length counts)) * alpha)%Q.
Proof.
  induction counts as [|c counts IH].
  - simpl. ring.
  - cbn [map foldr length Qsum]. fold (Qsum (map (λ c, inject_Z c + alpha)%Q counts)).
    rewrite IH, Nat2Z.inj_succ, <- Z.add_1_r, !inject_Z_plus. ring.
Qed.

Lemma Qsum_div (l : list Q) (total : Q) :
  (Qsum (map (λ c, c / total) l) == Qsum l / total)%Q.
Proof.
  induction l as [|c l IH].
  - simpl. unfold Qdiv. ring.
  - cbn [map foldr Qsum]. fold (Qsum (map (λ c, c / total)%Q l)). fold (Qsum l).
    rewrite IH. unfold Qdiv. ring.
Qed.

(** X14: the distribution the frequency sampler hands to the alias setup
    for a slot is additive smoothing of the relative frequencies in the
    training split: as many entries as the vocabulary, entry [v] is
    [(count(v) + alpha) / (N + V * alpha)] for [N] training triples and a
    vocabulary of [V], and the entries add up to one (in exact arithmetic). *)
Theorem frequency_distribution setup config key ds w self w' sl :
  dataset_ok config ds →
  (0 <= cfg_frequency_smoothing config)%Q →
  (0 < cfg_frequency_smoothing config)%Q ∨ split ds (cfg_train_split config) ≠ [] →
  class_of self = KgeFrequencySampler →
  create setup config key ds w = Ret self w' →
  let alpha := cfg_frequency_smoothing config in
  let V := getitem (vocabulary_size self) sl in
  let N := Z.of_nat (length (split ds (cfg_train_split config))) in
  ∃ probs total,
    _multinomials self !! slot_index sl = Some (setup probs) ∧
    length probs = Z.to_nat V ∧
    (total == inject_Z N + inject_Z V * alpha)%Q ∧ (0 < total)%Q ∧
    (∀ v, (0 ≤ v < V)%Z →
       probs !! Z.to_nat v
       = Some ((inject_Z (occurrences (train_column config ds sl) v) + alpha)
               / total)%Q) ∧
    (Qsum probs == 1)%Q.
Proof.
  intros (He & Hr & Htrain) Ha Hne Hcls Hc alpha V N.
  apply create_fields in Hc as (cls & self0 & Hinit & Hcase).
  apply KgeSampler_init_fields in Hinit
    as (Hcls0 & _ & _ & _ & _ & _ & Hvoc & _).
  destruct Hcase as [(_ & -> & ->)|(_ & -> & ->)];
    [by rewrite Hcls0 in Hcls|].
  assert (V = getitem (vocabulary_size self0) sl) as HV by done.
  assert (0 < V)%Z as HVpos.
  { rewrite HV, Hvoc. by destruct sl. }
  set (x := train_column config ds sl).
  assert (Forall (λ v, 0 ≤ v < V)%Z x) as Hx.
  { apply Forall_fmap, Forall_forall. intros t Ht. simpl.
    rewrite HV, Hvoc. specialize (Htrain t sl Ht). by destruct sl. }
  set (counts := map (λ v, occurrences x (Z.of_nat v)) (seq 0 (Z.to_nat V))).
  set (smoothed := map (λ c, inject_Z c + alpha)%Q counts).
  assert (smoothed_distribution config ds self0 sl
          = map (λ c, c / Qsum smoothed)%Q smoothed) as Hdist.
  { unfold smoothed_distribution. fold (train_column config ds sl). fold x.
    rewrite <- HV, bincount_value_occurrences; [done..|].
    eapply Forall_impl; [exact Hx|]. simpl. intros; lia. }
  assert (length x = length (split ds (cfg_train_split config))) as Hlenx.
  { apply length_map. }
  assert (Qsum smoothed == inject_Z N + inject_Z V * alpha)%Q as Htotal.
  { unfold smoothed. rewrite Qsum_smoothed. unfold counts.
    rewrite occurrences_sum.
    - rewrite length_map, length_seq, Hlenx, Z2Nat.id by lia. reflexivity.
    - eapply Forall_impl; [exact Hx|]. simpl. intros; lia. }
  assert (0 < Qsum smoothed)%Q as Hpos.
  { rewrite Htotal.
    assert (0 <= inject_Z N)%Q as HN.
    { change 0%Q with (inject_Z 0). rewrite <- Zle_Qle. lia. }
    assert (0 < inject_Z V)%Q as HVq.
    { change 0%Q with (inject_Z 0). rewrite <- Zlt_Qlt. lia. }
    destruct Hne as [Hal|Hsp].
    - apply (Qlt_le_trans _ (inject_Z V * alpha)).
      + by apply Qmult_lt_0_compat.
      + rewrite <- (Qplus_0_l (inject_Z V * alpha)) at 1.
        by apply Qplus_le_l.
    - apply (Qlt_le_trans _ (inject_Z N)).
      + change 0%Q with (inject_Z 0). rewrite <- Zlt_Qlt.
        destruct (split ds (cfg_train_split config)); [done|]. subst N.
        simpl length. lia.
      + rewrite <- (Qplus_0_r (inject_Z N)) at 1.
        apply Qplus_le_r, Qmult_le_0_compat; [by apply Qlt_le_weak|done]. }
  exists (smoothed_distribution config ds self0 sl), (Qsum smoothed).
  split; [by destruct sl|].
  split; [by rewrite Hdist; unfold smoothed, counts;
             rewrite !length_map, length_seq|].
  split; [done|]. split; [done|]. split.
  - intros v Hv. rewrite Hdist. unfold smoothed at 2. unfold counts.
    rewrite !list_lookup_fmap.
    rewrite lookup_seq_lt by lia. simpl. by rewrite Z2Nat.id by lia.
  - rewrite Hdist, Qsum_div. apply Qmult_inv_r.
    intros H0. rewrite H0 in Hpos. by apply Qlt_irrefl in Hpos.
Qed.

Lemma frequency_distribution_witness :
  ∃ probs total,
    _multinomials (frequency_sampler only_object (Some "fast_if_available"))
      !! slot_index SLOT.O = Some (example_setup probs) ∧
    (total == 12)%Q ∧
    probs !! 3 = Some (2 / total)%Q ∧
    (Qsum probs == 1)%Q.
Proof.
  destruct (frequency_distribution example_setup
              (example_config "frequency" false only_object "fast_if_available")
              "negative_sampling" example_dataset example_world
              (frequency_sampler only_object (Some "fast_if_available"))
              (log_requests example_world ["train_sp_to_o"]) SLOT.O
              (example_dataset_ok _ _ _ _)
              ltac:(done) ltac:(by left) eq_refl
              ltac:(vm_compute; reflexivity))
    as (probs & total & Hms & _ & Htotal & _ & Hentry & Hsum).
  exists probs, total. split; [exact Hms|]. split; [exact Htotal|].
  split; [exact (Hentry 3%Z ltac:(simpl; lia))|exact Hsum].
Defined.
